(** * PDF report layout engine: a shallow embedding

    The development follows the two report generators of the repository:

    - [PdfGenerator]: [src/utils/pdfGenerator.ts];
    - [ModernGenerator]: the generator with the Modern Corporate Color
      System palette, the [clean] sanitizer and the three-tier currency
      formatter.

    Conventions of the embedding.

    - A JavaScript number is an exact rational or one of the three IEEE
      specials (+Infinity, -Infinity, NaN).  Arithmetic on finite values is
      exact: binary64 rounding and the sign of zero are outside the model.
    - A JavaScript string is the list of its UTF-16 code units.
    - The jsPDF document is a list of pages, each page the list of the
      drawing operations it received, together with the current page number.
      Styling calls (fonts, colours) and the backgrounds of boxes and cards
      are not recorded; inside the charts every shape is, and the band of a
      section is one operation with its title.
    - What jsPDF, jspdf-autotable, [Date] and [Intl] decide (page size, text
      measurement, table pagination, date formatting) is taken from an
      environment record [env]. *)

From Stdlib Require Import ZArith QArith Qround Qabs Lia Lqa String Ascii List Bool.
From stdpp Require Import base list.

(** ** JavaScript numbers *)

Module JS.

Inductive number : Type :=
  | Fin (q : Q)
  | PInf
  | NInf
  | NaN.

(** Equality of numbers up to the representation of the rational. *)
Definition num_eq (a b : number) : Prop :=
  match a, b with
  | Fin x, Fin y => (x == y)%Q
  | PInf, PInf | NInf, NInf | NaN, NaN => True
  | _, _ => False
  end.

Definition of_Z (z : Z) : number := Fin (inject_Z z).
Definition of_nat (n : nat) : number := of_Z (Z.of_nat n).

Definition isNaN (a : number) : bool :=
  match a with NaN => true | _ => false end.

(** Sign of a number: [Lt] negative, [Eq] zero, [Gt] positive. *)
Definition sign (a : number) : option comparison :=
  match a with
  | Fin q => Some (q ?= 0)%Q
  | PInf => Some Gt
  | NInf => Some Lt
  | NaN => None
  end.

Definition neg (a : number) : number :=
  match a with
  | Fin q => Fin (- q)
  | PInf => NInf
  | NInf => PInf
  | NaN => NaN
  end.

Definition add (a b : number) : number :=
  match a, b with
  | NaN, _ | _, NaN => NaN
  | Fin x, Fin y => Fin (x + y)
  | PInf, NInf | NInf, PInf => NaN
  | PInf, _ | _, PInf => PInf
  | NInf, _ | _, NInf => NInf
  end.

Definition sub (a b : number) : number := add a (neg b).

(** The infinity carrying the product of two signs; a zero factor gives NaN. *)
Definition inf_of_signs (sa sb : comparison) : number :=
  match sa, sb with
  | Eq, _ | _, Eq => NaN
  | Gt, Gt | Lt, Lt => PInf
  | _, _ => NInf
  end.

Definition mul (a b : number) : number :=
  match a, b with
  | Fin x, Fin y => Fin (x * y)
  | _, _ =>
      match sign a, sign b with
      | Some sa, Some sb => inf_of_signs sa sb
      | _, _ => NaN
      end
  end.

(** Division. A finite value divided by zero is an infinity of the sign of
    the numerator, and 0/0 is NaN (zero is taken as +0). *)
Definition div (a b : number) : number :=
  match a, b with
  | NaN, _ | _, NaN => NaN
  | Fin x, Fin y =>
      if Qeq_bool y 0 then
        match (x ?= 0)%Q with
        | Eq => NaN
        | Gt => PInf
        | Lt => NInf
        end
      else Fin (x / y)
  | Fin _, _ => Fin 0
  | _, Fin y =>
      match (y ?= 0)%Q, a with
      | Lt, PInf => NInf
      | Lt, _ => PInf
      | _, _ => a
      end
  | _, _ => NaN
  end.

(** [a < b]; false as soon as one side is NaN. *)
Definition ltb (a b : number) : bool :=
  match a, b with
  | NaN, _ | _, NaN => false
  | Fin x, Fin y => negb (Qle_bool y x)
  | NInf, NInf | PInf, _ => false
  | NInf, _ => true
  | Fin _, PInf => true
  | Fin _, NInf => false
  end.

Definition gtb (a b : number) : bool := ltb b a.

(** [a <= b]; false as soon as one side is NaN. *)
Definition leb (a b : number) : bool :=
  match a, b with
  | NaN, _ | _, NaN => false
  | Fin x, Fin y => Qle_bool x y
  | NInf, _ | _, PInf => true
  | _, _ => false
  end.

Definition geb (a b : number) : bool := leb b a.

(** [Math.max] and [Math.min] of two arguments. *)
Definition max (a b : number) : number :=
  if isNaN a || isNaN b then NaN else if ltb a b then b else a.

Definition min (a b : number) : number :=
  if isNaN a || isNaN b then NaN else if ltb b a then b else a.

(** [Math.max(...l)]: -Infinity on the empty list. *)
Definition max_list (l : list number) : number := fold_left max l NInf.

Definition ceil (a : number) : number :=
  match a with
  | Fin q => of_Z (Qceiling q)
  | _ => a
  end.

(** [Math.round]: the nearest integer, ties towards +Infinity. *)
Definition round (a : number) : number :=
  match a with
  | Fin q => of_Z (Qfloor (q + (1 # 2)))
  | _ => a
  end.

(** Truthiness of a number: 0 and NaN are falsy. *)
Definition truthy (a : number) : bool :=
  match a with
  | Fin q => negb (Qeq_bool q 0)
  | NaN => false
  | _ => true
  end.

(** [x || d] for an optional number. *)
Definition or_num (x : option number) (d : number) : number :=
  match x with
  | Some v => if truthy v then v else d
  | None => d
  end.

(** [Math.PI], the binary64 value nearest to pi. *)
Definition PIq : Q := 884279719003555 # 281474976710656.
Definition Math_PI : number := Fin PIq.

End JS.

Export JS.

Declare Scope js_scope.
Delimit Scope js_scope with js.
Bind Scope js_scope with number.
Infix "+" := add : js_scope.
Infix "-" := sub : js_scope.
Infix "*" := mul : js_scope.
Infix "/" := div : js_scope.
Infix "<?" := ltb : js_scope.
Infix ">?" := gtb : js_scope.
Infix "<=?" := leb : js_scope.
Infix ">=?" := geb : js_scope.
Infix "≈" := num_eq (at level 70).

(** Integer literals of the source are read as finite numbers. *)
Definition number_of_Z (z : Z) : number := Fin (z # 1).
Definition number_to_Z (a : number) : option Z :=
  match a with
  | Fin (z # 1) => Some z
  | _ => None
  end.
Number Notation number number_of_Z number_to_Z : js_scope.


(** ** JavaScript strings *)

(** A string is the list of its UTF-16 code units. *)
Definition jsstring : Type := list N.

(** An ASCII literal of the source. *)
Definition lit (s : string) : jsstring :=
  map N_of_ascii (list_ascii_of_string s).

Definition jsstring_eqb (a b : jsstring) : bool :=
  bool_decide (a = b).

(** [a.includes(x)] on an array of strings. *)
Definition includes (l : list jsstring) (x : jsstring) : bool :=
  existsb (jsstring_eqb x) l.

(** [s.substring(0, n)]. *)
Definition substring0 (n : nat) (s : jsstring) : jsstring := firstn n s.

(** [x || d] for an optional string: [undefined] and the empty string are
    falsy. *)
Definition or_str (x : option jsstring) (d : jsstring) : jsstring :=
  match x with
  | Some ((_ :: _) as s) => s
  | _ => d
  end.

(** Decimal digits. *)
Fixpoint uint_units (d : Decimal.uint) : jsstring :=
  match d with
  | Decimal.Nil => []
  | Decimal.D0 d => 48%N :: uint_units d
  | Decimal.D1 d => 49%N :: uint_units d
  | Decimal.D2 d => 50%N :: uint_units d
  | Decimal.D3 d => 51%N :: uint_units d
  | Decimal.D4 d => 52%N :: uint_units d
  | Decimal.D5 d => 53%N :: uint_units d
  | Decimal.D6 d => 54%N :: uint_units d
  | Decimal.D7 d => 55%N :: uint_units d
  | Decimal.D8 d => 56%N :: uint_units d
  | Decimal.D9 d => 57%N :: uint_units d
  end.

(** [n.toString()] for a natural number such as an array length. *)
Definition N_toString (n : N) : jsstring := uint_units (N.to_uint n).
Definition nat_toString (n : nat) : jsstring := N_toString (N.of_nat n).

(** [z.toString()] for an integer. *)
Definition Z_toString (z : Z) : jsstring :=
  match z with
  | Zneg p => lit "-" ++ N_toString (Npos p)
  | _ => N_toString (Z.to_N z)
  end.

(** Left padding with the digit 0 up to [n] code units. *)
Definition pad_zeros (n : nat) (s : jsstring) : jsstring :=
  repeat 48%N (n - length s) ++ s.

(** The last [n] elements of a list. *)
Definition lastn {A} (n : nat) (l : list A) : list A :=
  skipn (length l - n) l.

(** [x.toFixed(d)]: let n be the integer for which n / 10^d - x is as close
    to zero as possible, the larger one when there are two.  (Values of
    10^21 and more, printed in exponent notation by JavaScript, are not
    treated apart.) *)
Definition toFixed (a : number) (d : nat) : jsstring :=
  match a with
  | NaN => lit "NaN"
  | PInf => lit "Infinity"
  | NInf => lit "-Infinity"
  | Fin q =>
      let s := if Qle_bool 0 q then [] else lit "-" in
      let x := Qabs q in
      let n := Qfloor (x * inject_Z (10 ^ Z.of_nat d) + (1 # 2)) in
      let m := pad_zeros (S d) (N_toString (Z.to_N n)) in
      let k := (length m - d)%nat in
      s ++ firstn k m ++
        match d with
        | O => []
        | _ => lit "." ++ skipn k m
        end
  end.

(** Digit grouping of the [en-IN] locale: the last three digits, then
    groups of two. *)
Fixpoint pairs_rev (r : jsstring) : jsstring :=
  match r with
  | a :: b :: (_ :: _) as rest => a :: b :: 44%N :: pairs_rev rest
  | _ => r
  end.

Definition group_enIN (ds : jsstring) : jsstring :=
  if (length ds <=? 3)%nat then ds
  else rev (pairs_rev (rev (firstn (length ds - 3) ds)))
         ++ 44%N :: lastn 3 ds.

Fixpoint dropWhile {A} (f : A -> bool) (l : list A) : list A :=
  match l with
  | x :: r => if f x then dropWhile f r else l
  | [] => []
  end.

(** Removal of the trailing zeros of a fraction. *)
Definition strip_zeros (s : jsstring) : jsstring :=
  rev (dropWhile (fun c => bool_decide (c = 48%N)) (rev s)).

(** [x.toLocaleString('en-IN')]: at most three fraction digits, rounded
    half away from zero, the integer part grouped. *)
Definition toLocaleString_enIN (a : number) : jsstring :=
  match a with
  | NaN => lit "NaN"
  | PInf => [8734%N]
  | NInf => lit "-" ++ [8734%N]
  | Fin q =>
      let s := if Qle_bool 0 q then [] else lit "-" in
      let n := Z.to_N (Qfloor (Qabs q * 1000 + (1 # 2))) in
      let frac := strip_zeros (pad_zeros 3 (N_toString (n mod 1000))) in
      s ++ group_enIN (N_toString (n / 1000)) ++
        match frac with
        | [] => []
        | _ => lit "." ++ frac
        end
  end.

(** ** The text sanitizer *)

(** The class [\s] of JavaScript regular expressions, which is also what
    [trim] removes. *)
Definition is_space (c : N) : bool :=
  ((9 <=? c) && (c <=? 13) || (c =? 32) || (c =? 160) || (c =? 5760)
   || (8192 <=? c) && (c <=? 8202) || (c =? 8232) || (c =? 8233)
   || (c =? 8239) || (c =? 8287) || (c =? 12288) || (c =? 65279))%N.

(** The class [\x20-\x7E]. *)
Definition is_printable (c : N) : bool := ((32 <=? c) && (c <=? 126))%N.

(** Fifth replacement: every run of [\s] becomes one space; [in_run] tells
    that the previous code unit already belonged to the run being replaced. *)
Fixpoint collapse_spaces (in_run : bool) (s : jsstring) : jsstring :=
  match s with
  | [] => []
  | c :: r =>
      if is_space c then
        if in_run then collapse_spaces true r
        else 32%N :: collapse_spaces true r
      else c :: collapse_spaces false r
  end.

Definition trim (s : jsstring) : jsstring :=
  rev (dropWhile is_space (rev (dropWhile is_space s))).

Module Sanitizer.

(** First replacement: every rupee sign (U+20B9) becomes [Rs] and a space. *)
Definition replace_rupee (s : jsstring) : jsstring :=
  flat_map (fun c => if (c =? 8377)%N then lit "Rs " else [c]) s.

(** Second replacement: the curly single quotes U+2018 and U+2019 become
    the apostrophe. *)
Definition replace_single_quotes (s : jsstring) : jsstring :=
  map (fun c => if ((c =? 8216) || (c =? 8217))%N then 39%N else c) s.

(** Third replacement: the curly double quotes U+201C and U+201D become
    the straight double quote. *)
Definition replace_double_quotes (s : jsstring) : jsstring :=
  map (fun c => if ((c =? 8220) || (c =? 8221))%N then 34%N else c) s.

(** Fourth replacement: the no-break space U+00A0 becomes a space. *)
Definition replace_nbsp (s : jsstring) : jsstring :=
  map (fun c => if (c =? 160)%N then 32%N else c) s.

(** Sixth replacement: every code unit outside [\x20-\x7E] is removed. *)
Definition strip_non_printable (s : jsstring) : jsstring :=
  List.filter is_printable s.

(** [clean(value)]; [None] stands for [null] and [undefined]. *)
Definition clean (value : option jsstring) : jsstring :=
  let s := match value with None => [] | Some v => v end in
  trim
    (strip_non_printable
       (collapse_spaces false
          (replace_nbsp
             (replace_double_quotes
                (replace_single_quotes
                   (replace_rupee s)))))).

(** Two adjacent ASCII spaces somewhere in the string. *)
Fixpoint has_double_space (s : jsstring) : bool :=
  match s with
  | a :: (b :: _) as r => ((a =? 32) && (b =? 32))%N || has_double_space r
  | _ => false
  end.

(** The example of the specification: rupee sign, space, 1,000, space,
    en dash, space, and demo between curly double quotes. *)
Definition spec_example : jsstring :=
  [8377%N; 32%N] ++ lit "1,000" ++ [32%N; 8211%N; 32%N; 8220%N]
    ++ lit "demo" ++ [8221%N].

End Sanitizer.

Export Sanitizer.

(** ** Drawing operations *)

(** A point given by its coordinates, or on the circle of centre
    [(cx, cy)] and radius [r] at a given angle, that is
    [(cx + r * Math.cos(angle), cy + r * Math.sin(angle))]. *)
Inductive point : Type :=
  | Cart (x y : number)
  | Polar (cx cy r angle : number).

(** What a page of the document receives. *)
Inductive op : Type :=
  | Text (s : jsstring)
  | TextLines (l : list jsstring)
  | Circle (x y r : number)
  | Triangle (p1 p2 p3 : point)
  | RoundedRect (x y w h : number)
  | SectionBand (title : jsstring)
  | Header (texts : list jsstring)
  | Footer (texts : list jsstring)
  | Table (head : list jsstring) (body : list (list jsstring)) (part : nat).

(** A chart entry [{label, value, color, percentage?}]. *)
Record chart_item : Type := {
  label : jsstring;
  value : number;
  color : nat * nat * nat;
  percentage : option number
}.

(** [data.reduce((sum, item) => sum + item.value, 0)] *)
Definition sum_values (data : list chart_item) : number :=
  fold_left (fun sum item => (sum + value item)%js) data 0%js.

(** Number of times the body of [for (let i = 0; i <= steps; i++)] runs;
    [None] when the loop never exits. *)
Definition loop_count (steps : number) : option nat :=
  match steps with
  | Fin q => Some (if Qle_bool 0 q then S (Z.to_nat (Qfloor q)) else O)
  | PInf => None
  | NInf | NaN => Some O
  end.

(** One turn of [data.forEach] in a pie or donut renderer: the angle at
    which the slice starts, its span, the number of steps of its fan and
    what it draws. *)
Record slice : Type := {
  slice_start : number;
  slice_span : number;
  slice_steps : number;
  slice_ops : list op
}.

Definition slice_geometry (s : slice) : number * number :=
  (slice_start s, slice_span s).

(** *** [drawPieChart] of [src/utils/pdfGenerator.ts] *)

Module PieChart.

Section Pie.
Variables centerX centerY radius : number.

Definition fan (currentAngle sliceAngle steps : number) (n : nat) : list op :=
  map (fun i =>
         let angle := (currentAngle + sliceAngle * of_nat i / steps)%js in
         let nextAngle :=
           (currentAngle + sliceAngle * (of_nat i + 1) / steps)%js in
         Triangle (Cart centerX centerY)
                  (Polar centerX centerY radius angle)
                  (Polar centerX centerY radius nextAngle))
      (seq 0 n).

Fixpoint slices (total currentAngle : number) (data : list chart_item)
  : option (list slice) :=
  match data with
  | [] => Some []
  | item :: rest =>
      let sliceAngle := (value item / total * 2 * Math_PI)%js in
      let steps := ceil (sliceAngle * 180 / Math_PI / 5)%js in
      match loop_count steps with
      | None => None
      | Some n =>
          match slices total (currentAngle + sliceAngle)%js rest with
          | None => None
          | Some more =>
              Some ({| slice_start := currentAngle;
                       slice_span := sliceAngle;
                       slice_steps := steps;
                       slice_ops :=
                         Circle centerX centerY radius
                           :: fan currentAngle sliceAngle steps n |}
                      :: more)
          end
      end
  end.

Definition pie_slices (data : list chart_item) : option (list slice) :=
  slices (sum_values data) (neg Math_PI / 2)%js data.

(** The operations of one call, in order; [None] when a fan never ends. *)
Definition drawPieChart (data : list chart_item) : option (list op) :=
  match pie_slices data with
  | None => None
  | Some l =>
      Some (flat_map slice_ops l
              ++ [Circle centerX centerY (radius * Fin (1 # 2))%js])
  end.
End Pie.

End PieChart.

(** *** [drawModernDonutChart] *)

Module DonutChart.

Section Donut.
Variables centerX centerY outerRadius innerRadius : number.

Definition fan (currentAngle sliceAngle steps : number) (n : nat) : list op :=
  flat_map (fun i =>
         let angle1 := (currentAngle + sliceAngle * of_nat i / steps)%js in
         let angle2 :=
           (currentAngle + sliceAngle * (of_nat i + 1) / steps)%js in
         let p1Outer := Polar centerX centerY outerRadius angle1 in
         let p2Outer := Polar centerX centerY outerRadius angle2 in
         let p1Inner := Polar centerX centerY innerRadius angle1 in
         let p2Inner := Polar centerX centerY innerRadius angle2 in
         [Triangle p1Outer p2Outer p1Inner;
          Triangle p2Outer p2Inner p1Inner])
      (seq 0 n).

Fixpoint slices (total currentAngle : number) (data : list chart_item)
  : option (list slice) :=
  match data with
  | [] => Some []
  | item :: rest =>
      let sliceAngle := (value item / total * 2 * Math_PI)%js in
      let steps := ceil (sliceAngle * 180 / Math_PI / 2)%js in
      match loop_count steps with
      | None => None
      | Some n =>
          match slices total (currentAngle + sliceAngle)%js rest with
          | None => None
          | Some more =>
              Some ({| slice_start := currentAngle;
                       slice_span := sliceAngle;
                       slice_steps := steps;
                       slice_ops := fan currentAngle sliceAngle steps n |}
                      :: more)
          end
      end
  end.

Definition donut_slices (data : list chart_item) : option (list slice) :=
  slices (sum_values data) (neg Math_PI / 2)%js data.

Definition drawModernDonutChart (data : list chart_item)
  : option (list op) :=
  match donut_slices data with
  | None => None
  | Some l =>
      Some (flat_map slice_ops l ++ [Circle centerX centerY innerRadius])
  end.
End Donut.

End DonutChart.

(** ** The environment *)

(** What the libraries decide.  [tableLayout startY head body] gives the
    number of pages jspdf-autotable adds while drawing the table and the
    vertical position at which the table ends. *)
Record env : Type := {
  pageWidth : number;
  pageHeight : number;
  formatDate : jsstring -> jsstring;
  splitTextToSize : jsstring -> number -> list jsstring;
  getTextWidth : jsstring -> number;
  numberToString : Q -> jsstring;
  tableLayout : number -> list jsstring -> list (list jsstring) -> nat * number;
  isPast : jsstring -> bool
}.

(** [x.toString()] on a number: integers print their digits; for the other
    finite values the shortest decimal that reads back as the same binary64
    is asked from the environment. *)
Definition Number_toString (E : env) (a : number) : jsstring :=
  match a with
  | NaN => lit "NaN"
  | PInf => lit "Infinity"
  | NInf => lit "-Infinity"
  | Fin q =>
      if Qeq_bool q (inject_Z (Qfloor q)) then Z_toString (Qfloor q)
      else numberToString E q
  end.

(** ** The input *)

(** An element of the untyped arrays [recentWins], [marketWins],
    [matching_market_wins] and [lowCompetitionBids.results], with the fields
    the generators read; [None] is [undefined]. *)
Record Bid : Type := {
  bid_number : option jsstring;
  org : option jsstring;
  dept : option jsstring;
  organisation : option jsstring;
  quantity : option Z;
  total_price : option number;
  ended_at : option jsstring;
  created_at : option jsstring;
  price_hint : option number;
  confidence : option jsstring;
  bidders_count : option Z;
  seller_count : option jsstring;
  bid_end_ts : option jsstring
}.

(** [{org, signal}], [{dept, signal}] and [{ministry, signal}]. *)
Record Affinity : Type := {
  entity : jsstring;
  signal : jsstring
}.

Record LikelyWin : Type := {
  offered_item : option jsstring;
  reason : option jsstring;
  matching_market_wins : option (list Bid)
}.

Record Signals : Type := {
  org_affinity : option (list Affinity);
  dept_affinity : option (list Affinity);
  ministry_affinity : option (list Affinity);
  quantity_ranges : option (list jsstring);
  price_ranges : option (list jsstring)
}.

Record Guidance : Type := {
  note : option jsstring;
  next_steps : option (list jsstring);
  expansion_areas : option (list jsstring)
}.

Record Ai : Type := {
  strategy_summary : option jsstring;
  likely_wins : option (list LikelyWin);
  signals : option Signals;
  guidance : option Guidance
}.

Record MissedButWinnable : Type := {
  recentWins : option (list Bid);
  marketWins : option (list Bid);
  ai : option Ai
}.

Record Params : Type := {
  sellerName : jsstring;
  department : jsstring;
  offeredItem : jsstring;
  days : number
}.

Record Meta : Type := {
  report_generated_at : jsstring;
  params_used : Params
}.

Record PriceBand : Type := {
  highest : number;
  lowest : number;
  average : number
}.

Record Department : Type := {
  department_name : jsstring;
  total_tenders : number
}.

Record Category : Type := {
  category : jsstring;
  count : number
}.

Record FilterOptions : Type := {
  includeSections : list jsstring
}.

(** The field [marketWins], for where a constant of a generator has the
    same name. *)
Definition marketWins_of (m : MissedButWinnable) : option (list Bid) :=
  marketWins m.

(** [x || []] and [x?.f] on optional values. *)
Definition or_nil {A} (x : option (list A)) : list A :=
  match x with
  | Some l => l
  | None => []
  end.

Definition opt_bind {A B} (x : option A) (f : A -> option B) : option B :=
  match x with
  | Some a => f a
  | None => None
  end.

(** [l.reduce((sum, w) => sum + (w.total_price || 0), 0)] *)
Definition sum_total_price (l : list Bid) : number :=
  fold_left (fun sum w => (sum + or_num (total_price w) 0)%js) l 0%js.

(** ** The document and the layout monad *)

(** The jsPDF document: its pages, the number of the current page (from 1)
    and [lastAutoTable.finalY]. *)
Record jsPDF : Type := {
  pages : list (list op);
  page : nat;
  lastAutoTable : option number
}.

(** [new jsPDF()]: one empty page. *)
Definition new_jsPDF : jsPDF :=
  {| pages := [[]]; page := 1; lastAutoTable := None |}.

(** The state of one run of [generatePDF]: the document and the closure
    variable [yPosition]. *)
Record state : Type := {
  doc : jsPDF;
  yPosition : number
}.

Definition M (A : Type) : Type := state -> A * state.

Definition ret {A} (a : A) : M A := fun s => (a, s).

Definition bind {A B} (m : M A) (f : A -> M B) : M B :=
  fun s => let '(a, s') := m s in f a s'.

Declare Scope layout_scope.
Delimit Scope layout_scope with M.
Notation "x <- m ;; k" := (bind m (fun x => k))
  (at level 100, m at next level, right associativity) : layout_scope.
Notation "m ;; k" := (bind m (fun _ => k))
  (at level 100, right associativity) : layout_scope.
Local Open Scope layout_scope.

Definition exec {A} (m : M A) (s : state) : state := snd (m s).

Definition when (c : bool) (m : M unit) : M unit :=
  if c then m else ret tt.

(** [l.forEach(f)] *)
Fixpoint forEach {A} (l : list A) (f : A -> M unit) : M unit :=
  match l with
  | [] => ret tt
  | x :: r => f x ;; forEach r f
  end.

(** [l.forEach((x, index) => f)] *)
Definition forEachi {A} (l : list A) (f : nat -> A -> M unit) : M unit :=
  forEach (combine (seq 0 (length l)) l) (fun p => f (fst p) (snd p)).

(** [l.map((x, index) => f)] *)
Definition mapi {A B} (f : nat -> A -> B) (l : list A) : list B :=
  map (fun p => f (fst p) (snd p)) (combine (seq 0 (length l)) l).

Definition getY : M number := fun s => (yPosition s, s).

Definition setY (y : number) : M unit :=
  fun s => (tt, {| doc := doc s; yPosition := y |}).

(** [yPosition += dy] *)
Definition advance (dy : number) : M unit :=
  y <- getY ;; setY (y + dy)%js.

Definition add_op (o : op) (d : jsPDF) : jsPDF :=
  {| pages := match page d with
              | O => pages d
              | S i => alter (fun p => p ++ [o]) i (pages d)
              end;
     page := page d;
     lastAutoTable := lastAutoTable d |}.

(** A drawing call: the operation goes to the current page. *)
Definition emit (o : op) : M unit :=
  fun s => (tt, {| doc := add_op o (doc s); yPosition := yPosition s |}).

Definition emit_all (l : list op) : M unit := forEach l emit.

(** [doc.text(s, x, y)] *)
Definition text (s : jsstring) : M unit := emit (Text s).

(** [doc.addPage()]: a new last page, which becomes the current one. *)
Definition addPage : M unit :=
  fun s =>
    (tt, {| doc := {| pages := pages (doc s) ++ [[]];
                      page := S (length (pages (doc s)));
                      lastAutoTable := lastAutoTable (doc s) |};
            yPosition := yPosition s |}).

(** [doc.setPage(n)] *)
Definition setPage (n : nat) : M unit :=
  fun s =>
    (tt, {| doc := {| pages := pages (doc s);
                      page := n;
                      lastAutoTable := lastAutoTable (doc s) |};
            yPosition := yPosition s |}).

(** [doc.getCurrentPageInfo().pageNumber] *)
Definition pageNumber : M nat := fun s => (page (doc s), s).

Definition setFinalY (y : number) : M unit :=
  fun s =>
    (tt, {| doc := {| pages := pages (doc s);
                      page := page (doc s);
                      lastAutoTable := Some y |};
            yPosition := yPosition s |}).

(** [doc.lastAutoTable?.finalY]; [undefined] behaves as NaN in the
    comparisons and sums where it is read. *)
Definition getFinalY : M number :=
  fun s => (match lastAutoTable (doc s) with
            | Some y => y
            | None => NaN
            end, s).

(** [autoTable(doc, {startY: yPosition, head, body, didDrawPage})]: the
    table starts on the current page at [yPosition], adds the pages the
    layout asks for, calls [didDrawPage] with the number of each page of the
    table (from 1) once that page is drawn, and records where it ended. *)
Definition autoTable (E : env) (head : list jsstring)
    (body : list (list jsstring)) (didDrawPage : nat -> M unit) : M unit :=
  startY <- getY ;;
  let '(extra, finalY) := tableLayout E startY head body in
  forEach (seq 1 (S extra))
    (fun k => when (1 <? k)%nat addPage ;;
              emit (Table head body k) ;;
              didDrawPage k) ;;
  setFinalY finalY.

(** [yPosition = doc.lastAutoTable.finalY + gap] *)
Definition resumeBelowTable (gap : number) : M unit :=
  y <- getFinalY ;; setY (y + gap)%js.

(** ** Helpers shared by the generators *)

(** [s.length > n ? s.substring(0, k) + '...' : s] *)
Definition truncate (n k : nat) (s : jsstring) : jsstring :=
  if (n <? length s)%nat then substring0 k s ++ lit "..." else s.

(** [parseFloat(x.toFixed(d))]: the value that [toFixed] prints. *)
Definition fixed_value (a : number) (d : nat) : number :=
  match a with
  | Fin q =>
      let n := Qfloor (Qabs q * inject_Z (10 ^ Z.of_nat d) + (1 # 2)) in
      let v := (inject_Z n / inject_Z (10 ^ Z.of_nat d))%Q in
      Fin (if Qle_bool 0 q then v else - v)
  | _ => a
  end.

(** [(i + 1).toString()] for an index. *)
Definition rank (index : nat) : jsstring := nat_toString (S index).

(** *** [drawBarChart] of [src/utils/pdfGenerator.ts] *)

Module BarChart.

Section Bar.
Variable E : env.
Variables x y width : number.

Definition barHeight : number := 8%js.
Definition spacing : number := 3%js.

(** [maxValue || Math.max(...data.map(d => d.value))] *)
Definition chart_max (data : list chart_item) (maxValue : option number)
  : number :=
  or_num maxValue (max_list (map value data)).

Definition barWidth (max : number) (item : chart_item) : number :=
  (value item / max * width)%js.

Definition bar_row (max : number) (index : nat) (item : chart_item)
  : list op :=
  let currentY := (y + of_nat index * (barHeight + spacing))%js in
  [Text (truncate 25 22 (label item));
   RoundedRect (x + 70)%js currentY (JS.max (barWidth max item) 2%js)
     barHeight;
   Text (Number_toString E (value item))].

Definition drawBarChart (data : list chart_item)
    (maxValue : option number) : list op :=
  let max := chart_max data maxValue in
  concat (mapi (bar_row max) data).
End Bar.

End BarChart.

(** ** The generator of [src/utils/pdfGenerator.ts] *)

Module PdfGenerator.

Record StateStat : Type := {
  state_name : jsstring;
  state_count : number;
  state_value : option number
}.

Record Seller : Type := {
  seller : option jsstring;
  seller_dept : option jsstring;
  seller_value : option number
}.

Record LowCompetition : Type := {
  results : option (list Bid)
}.

Record Data : Type := {
  priceBand : option PriceBand;
  topPerformingStates : option (list StateStat);
  topSellersByDept : option (list Seller);
  lowCompetitionBids : option LowCompetition;
  missedButWinnable : option MissedButWinnable
}.

Record ReportData : Type := {
  meta : Meta;
  data : Data
}.

(** The literals of the file that are not ASCII, code unit by code unit. *)
Definition rupee : jsstring := [226%N; 8218%N; 185%N].
Definition bullet : jsstring := [226%N; 8364%N; 162%N].
Definition star : jsstring := [226%N; 173%N].
Definition arrow : jsstring := [226%N; 8211%N; 184%N].
Definition fire : jsstring := [240%N; 376%N; 8221%N; 165%N].
Definition check_mark : jsstring := [226%N; 339%N; 8220%N].

Definition formatCurrency (amount : number) : jsstring :=
  rupee ++ lit " " ++ toLocaleString_enIN amount.

Section Generator.
Variable E : env.
Variable reportData : ReportData.
Variable filters : FilterOptions.

Definition margin : number := 15%js.

(** The width left between the margins, minus [k]. *)
Definition inner (k : number) : number :=
  (pageWidth E - 2 * margin - k)%js.

Definition params : Params := params_used (meta reportData).

Definition selected (id : string) : bool :=
  includes (includeSections filters) (lit id).

(** *** Performance metrics *)

Definition wins : list Bid :=
  or_nil (opt_bind (missedButWinnable (data reportData)) recentWins).
Definition marketWins : list Bid :=
  or_nil (opt_bind (missedButWinnable (data reportData)) marketWins_of).
Definition totalBids : nat := (length wins + length marketWins)%nat.
Definition successCount : nat := length wins.
Definition losses : nat := length marketWins.

Definition winRate_value : number :=
  (of_nat successCount / of_nat totalBids * 100)%js.
Definition winRate : jsstring :=
  if (0 <? totalBids)%nat then toFixed winRate_value 1 else lit "0.0".
(** [parseFloat(winRate)] *)
Definition parseFloat_winRate : number :=
  if (0 <? totalBids)%nat then fixed_value winRate_value 1 else 0%js.

Definition totalValue : number := sum_total_price wins.
Definition avgValue : number :=
  if (0 <? successCount)%nat
  then round (totalValue / of_nat successCount)%js
  else 0%js.
Definition avgBidsPerDay : jsstring :=
  toFixed (of_nat totalBids / days params)%js 2.

(** *** Page primitives *)

Definition addPageHeader : M unit :=
  emit (Header [lit "Government Tender Performance Analysis"]).

Definition addPageFooter : M unit :=
  pageNum <- pageNumber ;;
  emit (Footer
          [lit "Generated: "
             ++ formatDate E (report_generated_at (meta reportData));
           lit "Page " ++ nat_toString pageNum;
           sellerName params]).

Definition addNewPage : M unit :=
  addPage ;;
  setY 20%js ;;
  addPageHeader ;;
  addPageFooter.

Definition checkPageBreak (requiredSpace : number) : M bool :=
  y <- getY ;;
  if (y + requiredSpace >? pageHeight E - 25)%js
  then addNewPage ;; ret true
  else ret false.

(** The coloured band with the title, and the 17 units it takes. *)
Definition sectionBand (title : jsstring) : M unit :=
  emit (SectionBand title) ;;
  advance 17%js.

Definition addSectionHeader (title : string) : M unit :=
  checkPageBreak 20%js ;;
  sectionBand (lit title).

(** A table without a [didDrawPage] hook. *)
Definition plainTable (head : list jsstring) (body : list (list jsstring))
  : M unit :=
  autoTable E head body (fun _ => ret tt).

(** *** Cover page *)

Definition coverPage : M unit :=
  text (lit "GOVERNMENT") ;;
  text (lit "TENDER ANALYSIS") ;;
  setY 50%js ;;
  text (lit "Comprehensive Performance Report") ;;
  advance 18%js ;;
  text (sellerName params) ;;
  advance 40%js ;;
  detailsBoxY <- getY ;;
  setY (detailsBoxY + 12)%js ;;
  text (lit "Report Generated:") ;;
  text (formatDate E (report_generated_at (meta reportData))) ;;
  advance 8%js ;;
  text (lit "Analysis Period:") ;;
  text (Number_toString E (days params) ++ lit " days") ;;
  advance 8%js ;;
  text (lit "Department:") ;;
  text (truncate 40 37 (department params)) ;;
  advance 10%js ;;
  text (lit "Offered Items:") ;;
  advance 5%js ;;
  let itemsText := or_str (Some (offeredItem params)) (lit "Various items") in
  let wrappedItems := splitTextToSize E itemsText (inner 20%js) in
  forEach (firstn 2 wrappedItems)
    (fun line => text line ;; advance 4%js).

(** *** Bids summary *)

Definition pieData : list chart_item :=
  [ {| label := lit "Wins"; value := of_nat successCount;
       color := (34, 197, 94)%nat; percentage := None |};
    {| label := lit "Losses"; value := of_nat losses;
       color := (239, 68, 68)%nat; percentage := None |} ].

Definition performanceMetrics : list (list jsstring) :=
  [ [lit "Total Bids Participated"; nat_toString totalBids;
     lit "Participation"];
    [lit "Successful Wins"; nat_toString successCount; lit "Performance"];
    [lit "Unsuccessful Bids"; nat_toString losses; lit "Performance"];
    [lit "Win Rate"; winRate ++ lit "%"; lit "Performance"];
    [lit "Total Bid Value"; formatCurrency totalValue; lit "Financial"];
    [lit "Average Order Value"; formatCurrency avgValue; lit "Financial"];
    [lit "Qualified Bid Value";
     formatCurrency (totalValue * Fin (98 # 100))%js; lit "Financial"];
    [lit "Disqualified Bid Value";
     formatCurrency (totalValue * Fin (2 # 100))%js; lit "Financial"];
    [lit "Average Bid per Day"; avgBidsPerDay; lit "Activity"] ].

Definition deptSignals : list Affinity :=
  or_nil (opt_bind (opt_bind (opt_bind (missedButWinnable (data reportData))
                                ai) signals) dept_affinity).

(** The three KPI boxes of the executive summary. *)
Definition kpiCards : M unit :=
  text (lit "Win Rate") ;;
  text (winRate ++ lit "%") ;;
  text (lit "Total Bids") ;;
  text (nat_toString totalBids) ;;
  text (lit "Success Count") ;;
  text (nat_toString successCount) ;;
  advance (28 + 15)%js.

Definition bidsSummary : M unit :=
  sectionBand (lit "Executive Summary") ;;
  text (lit "Performance Highlights") ;;
  advance 10%js ;;
  kpiCards ;;
  text (lit "Win/Loss Distribution") ;;
  advance 10%js ;;
  y <- getY ;;
  emit_all
    (default []
       (PieChart.drawPieChart (margin + 35)%js (y + 25)%js 22%js pieData)) ;;
  text (lit "Wins: " ++ nat_toString successCount ++ lit " (" ++ winRate
          ++ lit "%)") ;;
  text (lit "Losses: " ++ nat_toString losses ++ lit " ("
          ++ toFixed (100 - parseFloat_winRate)%js 1 ++ lit "%)") ;;
  advance 60%js ;;
  text (lit "Detailed Performance Metrics") ;;
  advance 8%js ;;
  plainTable [lit "Metric"; lit "Value"; lit "Category"]
    performanceMetrics ;;
  resumeBelowTable 15%js ;;
  checkPageBreak 50%js ;;
  addSectionHeader "AI-Powered Strategic Insights" ;;
  text (lit "Comprehensive analysis of bidding activity across government departments") ;;
  advance 10%js ;;
  when (0 <? length deptSignals)%nat
    (let deptData :=
       mapi (fun index d =>
               let estValue :=
                 round (totalValue / of_nat (length deptSignals))%js in
               [rank index;
                truncate 45 42 (entity d);
                formatCurrency estValue;
                toFixed (1 / of_nat (length deptSignals) * 100)%js 1
                  ++ lit "%";
                lit "Active"])
            (firstn 10 deptSignals) in
     plainTable [lit "#"; lit "Department"; lit "Est. Value";
                 lit "Share %"; lit "Status"] deptData ;;
     resumeBelowTable 10%js ;;
     checkPageBreak 60%js ;;
     text (lit "Top 5 Departments - Visual Distribution") ;;
     advance 10%js ;;
     let chartData :=
       mapi (fun index d =>
               {| label := substring0 30 (entity d);
                  value :=
                    round (100 / of_nat (length deptSignals)
                           * (5 - of_nat index))%js;
                  color := (59, 130, 246)%nat;
                  percentage := None |})
            (firstn 5 deptSignals) in
     y <- getY ;;
     emit_all (BarChart.drawBarChart E margin y (inner 80%js) chartData
                 None) ;;
     advance (of_nat (length chartData) * 11 + 10)%js).

(** *** Market overview *)

Definition marketMetrics : list (list jsstring) :=
  [ [lit "Total Bids Participated"; nat_toString totalBids; lit "100%"];
    [lit "Successful Wins"; nat_toString successCount; winRate ++ lit "%"];
    [lit "Lost Opportunities"; nat_toString losses;
     toFixed (100 - parseFloat_winRate)%js 1 ++ lit "%"];
    [lit "Average Order Value"; formatCurrency avgValue; lit "-"];
    [lit "Average Bids/Day"; avgBidsPerDay; lit "-"];
    [lit "Estimated Market Size"; formatCurrency (totalValue * 3)%js;
     lit "Est."] ].

Definition marketOverview : M unit :=
  addSectionHeader "Overall Market Overview" ;;
  text (winRate ++ lit "%") ;;
  text (lit "Win Rate") ;;
  text (nat_toString totalBids) ;;
  text (lit "Total Bids") ;;
  let shortValue :=
    if (totalValue >? 10000000)%js
    then toFixed (totalValue / 10000000)%js 1 ++ lit "Cr"
    else toFixed (totalValue / 100000)%js 1 ++ lit "L" in
  text shortValue ;;
  text (lit "Total Value") ;;
  advance (28 + 15)%js ;;
  checkPageBreak 60%js ;;
  text (lit "Market Performance Metrics") ;;
  advance 8%js ;;
  plainTable [lit "Metric"; lit "Value"; lit "Percentage"] marketMetrics ;;
  resumeBelowTable 15%js ;;
  match priceBand (data reportData) with
  | Some band =>
      checkPageBreak 50%js ;;
      text (lit "Price Band Analysis") ;;
      advance 8%js ;;
      plainTable []
        [ [lit "Highest Bid Value"; formatCurrency (highest band)];
          [lit "Average Bid Value"; formatCurrency (average band)];
          [lit "Lowest Bid Value"; formatCurrency (lowest band)];
          [lit "Price Range";
           formatCurrency (highest band - lowest band)%js] ] ;;
      resumeBelowTable 10%js
  | None => ret tt
  end.

(** *** Top performer department *)

Definition topPerformer : M unit :=
  addSectionHeader "Top Performer Department" ;;
  text (lit "Analysis of highest-performing departments based on engagement and success metrics") ;;
  advance 10%js ;;
  let deptAffinity := deptSignals in
  when (0 <? length deptAffinity)%nat
    (forEachi (firstn 5 deptAffinity)
       (fun index d =>
          checkPageBreak 30%js ;;
          text (lit "#" ++ rank index ++ lit "  " ++ entity d) ;;
          advance 13%js ;;
          forEach (splitTextToSize E (signal d) (inner 10%js))
            (fun line =>
               checkPageBreak 5%js ;;
               text line ;;
               advance 5%js) ;;
          advance 5%js) ;;
     checkPageBreak 60%js ;;
     advance 10%js ;;
     text (lit "Top 5 Departments - Performance Breakdown") ;;
     advance 8%js ;;
     let topDeptMetrics :=
       mapi (fun index d =>
               [rank index;
                substring0 50 (entity d);
                Number_toString E
                  (round (totalValue / of_nat (length deptAffinity))%js);
                toFixed (100 / of_nat (length deptAffinity))%js 1
                  ++ lit "%";
                if (index =? 0)%nat then star ++ lit " Best"
                else lit "Active"])
            (firstn 5 deptAffinity) in
     plainTable [lit "Rank"; lit "Department";
                 lit "Est. Value (" ++ rupee ++ lit ")";
                 lit "Market Share"; lit "Status"] topDeptMetrics ;;
     resumeBelowTable 10%js).

(** *** Missed-but-winnable tenders *)

(** [x ? formatDate(x) : 'N/A'] *)
Definition date_or_na (x : option jsstring) : jsstring :=
  match x with
  | Some ((_ :: _) as d) => formatDate E d
  | _ => lit "N/A"
  end.

Definition strategy_text : option jsstring :=
  opt_bind (opt_bind (missedButWinnable (data reportData)) ai)
    strategy_summary.

Definition missedTenders : M unit :=
  addSectionHeader "Missed-but-Winnable Tenders" ;;
  text (lit "Opportunities where you had strong positioning but didn't participate") ;;
  advance 10%js ;;
  (if (0 <? length marketWins)%nat then
     text (lit "Total Missed Opportunities: "
             ++ nat_toString (length marketWins)) ;;
     let missedValue := sum_total_price marketWins in
     text (lit "Estimated Missed Value: " ++ formatCurrency missedValue) ;;
     advance 25%js ;;
     let missedData :=
       mapi (fun index win =>
               [rank index;
                substring0 20 (or_str (bid_number win) (lit "N/A"));
                substring0 30 (or_str (org win) (lit "N/A"));
                substring0 25 (or_str (dept win) (lit "N/A"));
                formatCurrency (or_num (total_price win) 0%js);
                date_or_na (ended_at win)])
            (firstn 10 marketWins) in
     plainTable [lit "#"; lit "Bid Number"; lit "Organization";
                 lit "Department"; lit "Value"; lit "End Date"]
       missedData ;;
     resumeBelowTable 15%js
   else
     text (lit "No missed opportunities identified in the analysis period.") ;;
     advance 10%js) ;;
  checkPageBreak 40%js ;;
  text (lit "AI-Powered Recovery Strategy") ;;
  advance 8%js ;;
  let strategy := or_str strategy_text (lit "No strategy available") in
  forEach (splitTextToSize E strategy (inner 10%js))
    (fun line =>
       checkPageBreak 5%js ;;
       text line ;;
       advance 5%js).

(** *** Comprehensive AI insights *)

(** [let lineY = yPosition; lines.forEach(line => { checkPageBreak(5);
    text(line); lineY += step }); yPosition = lineY + gap] *)
Definition linesFrom (lines : list jsstring) (step gap : number)
    (breaks : bool) : M unit :=
  lineY <- getY ;;
  forEach lines
    (fun line =>
       when breaks (checkPageBreak 5%js ;; ret tt) ;;
       text line) ;;
  setY (fold_left (fun acc _ => acc + step)%js lines lineY + gap)%js.

Definition likelyWinsBlock (likelyWins : list LikelyWin) : M unit :=
  checkPageBreak 50%js ;;
  addNewPage ;;
  addSectionHeader "High-Probability Win Opportunities" ;;
  text (lit "AI-identified opportunities with highest success probability based on market analysis") ;;
  advance 12%js ;;
  forEachi (firstn 3 likelyWins)
    (fun index opportunity =>
       checkPageBreak 80%js ;;
       text (lit "Opportunity #" ++ rank index) ;;
       advance 13%js ;;
       text (lit "Target Product/Service:") ;;
       advance 5%js ;;
       forEach (splitTextToSize E (or_str (offered_item opportunity) [])
                  (inner 10%js))
         (fun line =>
            checkPageBreak 5%js ;;
            text line ;;
            advance 4%js) ;;
       advance 3%js ;;
       text (lit "Why This Opportunity:") ;;
       advance 5%js ;;
       forEach (splitTextToSize E (or_str (reason opportunity) [])
                  (inner 10%js))
         (fun line =>
            checkPageBreak 5%js ;;
            text line ;;
            advance 4%js) ;;
       advance 5%js ;;
       let matchingWins := or_nil (matching_market_wins opportunity) in
       when (0 <? length matchingWins)%nat
         (checkPageBreak 40%js ;;
          text (lit "Supporting Market Evidence ("
                  ++ nat_toString (length matchingWins)
                  ++ lit " similar wins):") ;;
          advance 7%js ;;
          let winData :=
            mapi (fun idx win =>
                    [rank idx;
                     substring0 22 (or_str (bid_number win) (lit "N/A"));
                     substring0 35
                       (or_str (org win) (or_str (dept win) (lit "N/A")));
                     match quantity win with
                     | Some q => if (q =? 0)%Z then lit "-"
                                 else Z_toString q
                     | None => lit "-"
                     end;
                     match price_hint win with
                     | Some h => if truthy h then formatCurrency h
                                 else lit "-"
                     | None => lit "-"
                     end;
                     or_str (confidence win) (lit "-")])
                 (firstn 5 matchingWins) in
          plainTable [lit "#"; lit "Bid Number"; lit "Organization/Dept";
                      lit "Qty"; lit "Value"; lit "Match"] winData ;;
          resumeBelowTable 12%js)).

Definition guidanceBlock (g : Guidance) : M unit :=
  checkPageBreak 50%js ;;
  addNewPage ;;
  addSectionHeader "Strategic Action Plan & Next Steps" ;;
  match note g with
  | Some ((_ :: _) as n) =>
      linesFrom (splitTextToSize E n (inner 10%js)) (Fin (45 # 10)) 8%js
        false
  | _ => ret tt
  end ;;
  let nextSteps := or_nil (next_steps g) in
  when (0 <? length nextSteps)%nat
    (checkPageBreak 40%js ;;
     text (lit "Immediate Action Items") ;;
     advance 10%js ;;
     forEachi nextSteps
       (fun index step =>
          checkPageBreak 20%js ;;
          text (rank index) ;;
          linesFrom (splitTextToSize E step (inner 15%js)) (Fin (45 # 10))
            5%js true) ;;
     advance 5%js) ;;
  let expansionAreas := or_nil (expansion_areas g) in
  when (0 <? length expansionAreas)%nat
    (checkPageBreak 40%js ;;
     text (lit "Future Growth & Expansion Opportunities") ;;
     advance 10%js ;;
     forEach expansionAreas
       (fun area =>
          checkPageBreak 20%js ;;
          text arrow ;;
          linesFrom (splitTextToSize E area (inner 12%js)) (Fin (45 # 10))
            7%js true)).

Definition aiInsights (aiData : Ai) : M unit :=
  addSectionHeader "Comprehensive AI Intelligence & Recommendations" ;;
  text (lit "Strategic Overview") ;;
  advance 8%js ;;
  forEach (splitTextToSize E (or_str (strategy_summary aiData) [])
             (inner 10%js))
    (fun line =>
       checkPageBreak 5%js ;;
       y <- getY ;;
       finalY <- getFinalY ;;
       when ((y >? finalY)%js || (y <? y + 5)%js)
         (text line ;; advance 5%js)) ;;
  advance 10%js ;;
  let likelyWins := or_nil (likely_wins aiData) in
  when (0 <? length likelyWins)%nat (likelyWinsBlock likelyWins) ;;
  match guidance aiData with
  | Some g => guidanceBlock g
  | None => ret tt
  end.

(** *** Buyer and department insights *)

Definition the_signals : option Signals :=
  opt_bind (opt_bind (missedButWinnable (data reportData)) ai) signals.

Definition rangeList (ranges : list jsstring) : M unit :=
  forEach (firstn 5 ranges)
    (fun range =>
       checkPageBreak 6%js ;;
       forEach (splitTextToSize E (bullet ++ lit " " ++ range)
                  (inner 10%js))
         (fun line => text line ;; advance (Fin (45 # 10)))).

Definition buyerInsights : M unit :=
  addSectionHeader "Buyer / Department Insights" ;;
  text (lit "Deep insights into buyer behavior patterns and department preferences") ;;
  advance 12%js ;;
  let orgAffinity := or_nil (opt_bind the_signals org_affinity) in
  when (0 <? length orgAffinity)%nat
    (text (lit "Top Organizations with Engagement History") ;;
     advance 8%js ;;
     forEachi (firstn 5 orgAffinity)
       (fun index o =>
          checkPageBreak 25%js ;;
          let orgName := truncate 50 47 (entity o) in
          text (rank index ++ lit ". " ++ orgName) ;;
          advance 10%js ;;
          forEach (splitTextToSize E (signal o) (inner 10%js))
            (fun line =>
               checkPageBreak 5%js ;;
               text line ;;
               advance (Fin (45 # 10))) ;;
          advance 5%js) ;;
     advance 5%js) ;;
  let ministryAffinity := or_nil (opt_bind the_signals ministry_affinity) in
  when (0 <? length ministryAffinity)%nat
    (checkPageBreak 50%js ;;
     text (lit "Ministry-Level Engagement Patterns") ;;
     advance 8%js ;;
     let ministryData :=
       mapi (fun index m =>
               [rank index;
                truncate 55 52 (entity m);
                truncate 70 67 (signal m)])
            (firstn 8 ministryAffinity) in
     plainTable [lit "#"; lit "Ministry"; lit "Insight"] ministryData ;;
     resumeBelowTable 10%js) ;;
  checkPageBreak 70%js ;;
  text (lit "Winning Patterns Analysis") ;;
  advance 8%js ;;
  let quantityRanges := or_nil (opt_bind the_signals quantity_ranges) in
  let priceRanges := or_nil (opt_bind the_signals price_ranges) in
  when (0 <? length quantityRanges)%nat
    (text (lit "Optimal Quantity Ranges:") ;;
     advance 6%js ;;
     rangeList quantityRanges ;;
     advance 5%js) ;;
  when (0 <? length priceRanges)%nat
    (checkPageBreak 40%js ;;
     text (lit "Successful Price Ranges:") ;;
     advance 6%js ;;
     rangeList priceRanges).

(** *** Rivalry scorecard *)

Definition rivalryScore : M unit :=
  addSectionHeader "Rivalry Scorecard" ;;
  text (lit "Competitive analysis of key players in your market segment") ;;
  advance 12%js ;;
  let topSellers := or_nil (topSellersByDept (data reportData)) in
  when (0 <? length topSellers)%nat
    (text (lit "Top Competitors by Department") ;;
     advance 8%js ;;
     let rivalData :=
       mapi (fun index s =>
               [rank index;
                or_str (seller s) (lit "Unknown");
                or_str (seller_dept s) (lit "N/A");
                formatCurrency (or_num (seller_value s) 0%js);
                if (index <? 3)%nat then fire ++ lit " High"
                else if (index <? 7)%nat then lit "Medium"
                else lit "Low"])
            (firstn 10 topSellers) in
     plainTable [lit "Rank"; lit "Competitor"; lit "Department";
                 lit "Value"; lit "Threat Level"] rivalData ;;
     resumeBelowTable 15%js) ;;
  checkPageBreak 60%js ;;
  text (lit "Your Competitive Position") ;;
  text (lit "Market Share: "
          ++ toFixed (of_nat successCount
                      / of_nat (totalBids + length topSellers) * 100)%js 1
          ++ lit "%") ;;
  text (lit "Win Rate vs Market: " ++ winRate
          ++ lit "% (Industry Avg: 35%)") ;;
  text (lit "Competitive Advantage: "
          ++ (if (parseFloat_winRate >? 35)%js
              then lit "Above Average " ++ check_mark
              else lit "Below Average - Needs Improvement")) ;;
  advance 40%js.

(** *** Low-competition opportunities *)

Definition lowCompetition : M unit :=
  addSectionHeader "Single-Bidder / Low-Competition Opportunities" ;;
  text (lit "High-value opportunities with minimal competition - prime targets for success") ;;
  advance 12%js ;;
  let lowCompBids :=
    or_nil (opt_bind (lowCompetitionBids (data reportData)) results) in
  (if (0 <? length lowCompBids)%nat then
     text (lit "Total Low-Competition Opportunities: "
             ++ nat_toString (length lowCompBids)) ;;
     let lowCompValue := sum_total_price lowCompBids in
     text (lit "Total Opportunity Value: " ++ formatCurrency lowCompValue) ;;
     advance 25%js ;;
     let lowCompData :=
       mapi (fun index bid =>
               [rank index;
                substring0 20 (or_str (bid_number bid) (lit "N/A"));
                substring0 28 (or_str (org bid) (lit "N/A"));
                substring0 23 (or_str (dept bid) (lit "N/A"));
                formatCurrency (or_num (total_price bid) 0%js);
                Z_toString
                  (match bidders_count bid with
                   | Some c => if (c =? 0)%Z then 1%Z else c
                   | None => 1%Z
                   end) ++ lit " bidders";
                date_or_na (ended_at bid)])
            (firstn 10 lowCompBids) in
     plainTable [lit "#"; lit "Bid Number"; lit "Organization";
                 lit "Department"; lit "Value"; lit "Competition";
                 lit "Date"] lowCompData ;;
     resumeBelowTable 15%js
   else
     text (lit "No low-competition opportunities identified in the current analysis.") ;;
     advance 10%js) ;;
  checkPageBreak 50%js ;;
  text (lit "Strategic Recommendations") ;;
  text (bullet ++ lit " Focus on low-competition tenders to maximize win rate") ;;
  text (bullet ++ lit " Quick response times are critical for single-bidder opportunities") ;;
  text (bullet ++ lit " Leverage competitive pricing to secure these high-probability wins") ;;
  advance 40%js.

(** *** Top performing states *)

(** [topStates.reduce((sum, s) => sum + s.count, 0)] *)
Definition sum_counts (l : list StateStat) : number :=
  fold_left (fun sum st => (sum + state_count st)%js) l 0%js.

Definition topStatesSection : M unit :=
  addSectionHeader "Top Performing States / Geographies" ;;
  text (lit "Geographic distribution of successful bids and market opportunities") ;;
  advance 12%js ;;
  let topStates := or_nil (topPerformingStates (data reportData)) in
  match topStates with
  | topState :: _ =>
      let statesData :=
        mapi (fun index st =>
                [rank index;
                 state_name st;
                 Number_toString E (state_count st);
                 formatCurrency (or_num (state_value st) 0%js);
                 toFixed (state_count st / sum_counts topStates * 100)%js 1
                   ++ lit "%";
                 if (index <? 3)%nat then star ++ lit " Top"
                 else lit "Active"])
             (firstn 15 topStates) in
      plainTable [lit "Rank"; lit "State / UT"; lit "Tender Count";
                  lit "Total Value"; lit "Share %"; lit "Status"]
        statesData ;;
      resumeBelowTable 15%js ;;
      checkPageBreak 50%js ;;
      text (lit "Geographic Market Insights") ;;
      let totalTenders := sum_counts topStates in
      let topStateShare :=
        toFixed (state_count topState / totalTenders * 100)%js 1 in
      text (bullet ++ lit " Top Market: " ++ state_name topState
              ++ lit " (" ++ topStateShare
              ++ lit "% of total opportunities)") ;;
      text (bullet ++ lit " Geographic Spread: Active in "
              ++ nat_toString (length topStates)
              ++ lit " states/regions") ;;
      text (bullet ++ lit " Expansion Opportunity: Consider increasing presence in underserved regions") ;;
      text (bullet ++ lit " Focus Strategy: Concentrate resources on top 5 states for maximum ROI") ;;
      advance 45%js ;;
      checkPageBreak 60%js ;;
      text (lit "Top 5 States - Visual Distribution") ;;
      advance 8%js ;;
      let maxCount := state_count topState in
      forEach (firstn 5 topStates)
        (fun st =>
           let barWidth := (inner 55 * state_count st / maxCount)%js in
           text (substring0 20 (state_name st)) ;;
           y <- getY ;;
           emit (RoundedRect (margin + 52)%js (y - 3)%js
                   (JS.max barWidth 5%js) 5%js) ;;
           text (Number_toString E (state_count st)) ;;
           advance 8%js)
  | [] =>
      text (lit "Geographic data not available in the current analysis.") ;;
      advance 10%js
  end.

(** *** Recent successful bids *)

Definition recentBids : M unit :=
  addSectionHeader "Recent Successful Bids - Detailed List" ;;
  text (lit "Complete list of your winning bids in the analysis period") ;;
  advance 10%js ;;
  let bidsTableData :=
    mapi (fun index win =>
            [rank index;
             substring0 25 (or_str (bid_number win) (lit "N/A"));
             substring0 28 (or_str (org win) []);
             substring0 23 (or_str (dept win) []);
             match quantity win with
             | Some q => Z_toString q
             | None => lit "N/A"
             end;
             formatCurrency (or_num (total_price win) 0%js);
             date_or_na (ended_at win)])
         (firstn 20 wins) in
  autoTable E
    [lit "#"; lit "Bid Number"; lit "Organization"; lit "Department";
     lit "Qty"; lit "Value"; lit "Date"]
    bidsTableData
    (fun pageNumber =>
       when (1 <? pageNumber)%nat (addPageHeader ;; addPageFooter)).

(** *** The whole document *)

(** The sections after the cover. The [addNewPage()] with which a section
    opens is written here, before the body of the section. *)
Definition sections : M unit :=
  when (selected "bidsSummary") (addNewPage ;; bidsSummary) ;;
  when (selected "marketOverview") (addNewPage ;; marketOverview) ;;
  when (selected "topPerformer") (addNewPage ;; topPerformer) ;;
  when (selected "missedTenders") (addNewPage ;; missedTenders) ;;
  match opt_bind (missedButWinnable (data reportData)) ai with
  | Some aiData => addNewPage ;; aiInsights aiData
  | None => ret tt
  end ;;
  when (selected "buyerInsights") (addNewPage ;; buyerInsights) ;;
  when (selected "rivalryScore") (addNewPage ;; rivalryScore) ;;
  when (selected "lowCompetition") (addNewPage ;; lowCompetition) ;;
  when (selected "topStates") (addNewPage ;; topStatesSection) ;;
  when (0 <? length wins)%nat (addNewPage ;; recentBids).

(** The last statements add the footer to the first page. *)
Definition generatePDF : M unit :=
  coverPage ;;
  sections ;;
  setPage 1 ;;
  addPageFooter.

(** The document returned for the initial state of the function. *)
Definition initial : state := {| doc := new_jsPDF; yPosition := 20%js |}.

Definition document : jsPDF := doc (exec generatePDF initial).

End Generator.

End PdfGenerator.

(** ** The modern generator *)

Module ModernGenerator.

Record StateStat : Type := {
  state_name : jsstring;
  state_total_tenders : number
}.

Record Seller : Type := {
  seller_name : jsstring;
  participation_count : number
}.

Record Data : Type := {
  allDepartments : option (list Department);
  categoryListing : option (list Category);
  topPerformingStates : option (option (list StateStat));
  topSellersByDept : option (option (list Seller));
  lowCompetitionBids : option (option (list Bid));
  missedButWinnable : option MissedButWinnable
}.

Record ReportData : Type := {
  meta : Meta;
  data : Data
}.

(** The colours of the palette that the charts use. *)
Definition deepBlue : nat * nat * nat := (30, 64, 175)%nat.
Definition brightBlue : nat * nat * nat := (59, 130, 246)%nat.
Definition successGreen : nat * nat * nat := (16, 185, 129)%nat.
Definition warningOrange : nat * nat * nat := (245, 158, 11)%nat.
Definition errorRed : nat * nat * nat := (239, 68, 68)%nat.

Definition formatCurrency (amount : number) : jsstring :=
  if (amount >=? 10000000)%js then
    lit "Rs " ++ toFixed (amount / 10000000)%js 2 ++ lit " Cr"
  else if (amount >=? 100000)%js then
    lit "Rs " ++ toFixed (amount / 100000)%js 2 ++ lit " L"
  else
    lit "Rs " ++ toLocaleString_enIN amount.

(** [s.toLowerCase()] on the ASCII strings that [clean] returns. *)
Definition toLowerCase (s : jsstring) : jsstring :=
  map (fun c => if ((65 <=? c) && (c <=? 90))%N then (c + 32)%N else c) s.

(** *** [drawModernBarChart] *)

Section Bar.
Variable E : env.
Variables x y width : number.

Definition barHeight : number := 10%js.
Definition spacing : number := 6%js.
Definition maxLabelWidth : number := 50%js.

(** The [while] loop that shortens the label; every turn removes one code
    unit and the loop stops at length 3, so [fuel] turns are enough when
    [fuel] is the length of the label. *)
Fixpoint shorten (fuel : nat) (labelText : jsstring) : jsstring :=
  match fuel with
  | O => labelText
  | S fuel' =>
      if (getTextWidth E labelText >? maxLabelWidth)%js
         && (3 <? length labelText)%nat
      then shorten fuel' (substring0 (length labelText - 1) labelText)
      else labelText
  end.

Definition bar_label (item : chart_item) : jsstring :=
  let cleaned := clean (Some (label item)) in
  let labelText := shorten (length cleaned) cleaned in
  if jsstring_eqb labelText cleaned then labelText
  else labelText ++ lit "...".

Definition barWidth (max : number) (item : chart_item) : number :=
  (value item / max * width)%js.

Definition bar_row (showValues : bool) (max : number) (index : nat)
    (item : chart_item) : list op :=
  let currentY := (y + of_nat index * (barHeight + spacing))%js in
  [Text (bar_label item);
   RoundedRect (x + 55)%js (currentY + 1)%js width (barHeight - 2)%js;
   RoundedRect (x + 55)%js (currentY + 1)%js
     (JS.max (barWidth max item) 2%js) (barHeight - 2)%js;
   RoundedRect (x + 55)%js (currentY + 1)%js
     (JS.max (barWidth max item) 2%js) ((barHeight - 2) / 2)%js]
  ++ (if showValues then
        [Text (match percentage item with
               | Some p =>
                   if truthy p then toFixed p 1 ++ lit "%"
                   else formatCurrency (value item)
               | None => formatCurrency (value item)
               end)]
      else []).

Definition drawModernBarChart (data : list chart_item)
    (showValues : bool) : list op :=
  let max := max_list (map value data) in
  concat (mapi (bar_row showValues max) data).
End Bar.

Section Generator.
Variable E : env.
Variable reportData : ReportData.
Variable filters : FilterOptions.

Definition margin : number := 15%js.
Definition HEADER_H : number := 15%js.
Definition FOOTER_H : number := 12%js.
Definition SAFE_TOP : number := (HEADER_H + 3)%js.
Definition SAFE_BOTTOM : number := (pageHeight E - FOOTER_H - 5)%js.

Definition inner (k : number) : number :=
  (pageWidth E - 2 * margin - k)%js.

Definition params : Params := params_used (meta reportData).

Definition selected (id : string) : bool :=
  includes (includeSections filters) (lit id).

(** *** Performance metrics *)

Definition wins : list Bid :=
  or_nil (opt_bind (missedButWinnable (data reportData)) recentWins).
Definition marketWins : list Bid :=
  or_nil (opt_bind (missedButWinnable (data reportData)) marketWins_of).
Definition totalBids : nat := (length wins + length marketWins)%nat.
Definition successCount : nat := length wins.
Definition losses : nat := length marketWins.
Definition winRate : number :=
  if (0 <? totalBids)%nat
  then (of_nat successCount / of_nat totalBids * 100)%js
  else 0%js.

Definition totalValue : number := sum_total_price wins.
Definition avgValue : number :=
  if (0 <? successCount)%nat
  then round (totalValue / of_nat successCount)%js
  else 0%js.
Definition avgBidsPerDay : number :=
  (of_nat totalBids / days params)%js.

(** *** Page primitives *)

Definition addPageHeader : M unit :=
  emit (Header [lit "Government Tender Analysis";
                formatDate E (report_generated_at (meta reportData))]).

Definition addPageFooter : M unit :=
  pageNum <- pageNumber ;;
  emit (Footer [sellerName params;
                lit "Page " ++ nat_toString pageNum;
                lit "Confidential"]).

Definition addNewPage : M unit :=
  addPage ;;
  setY SAFE_TOP ;;
  addPageHeader ;;
  addPageFooter.

Definition checkPageBreak (requiredSpace : number) : M bool :=
  y <- getY ;;
  if (y + requiredSpace >? SAFE_BOTTOM)%js
  then addNewPage ;; ret true
  else ret false.

Definition addSectionHeader (title : string) : M unit :=
  checkPageBreak 20%js ;;
  emit (SectionBand (lit title)) ;;
  advance 13%js.

(** The tables of this generator stamp every page they draw on. *)
Definition stampedTable (head : list jsstring)
    (body : list (list jsstring)) : M unit :=
  autoTable E head (map (map (fun cell => clean (Some cell))) body)
    (fun _ => addPageHeader ;; addPageFooter).

(** A card with a bar chart, as every chart section draws it:
    [chartHeight = Math.min(data.length * 16 + 10, cap)]. *)
Definition barChartCard (chartData : list chart_item) (cap : number)
    (showValues : bool) : M unit :=
  let chartHeight := JS.min (of_nat (length chartData) * 16 + 10)%js cap in
  checkPageBreak (chartHeight + 20)%js ;;
  y <- getY ;;
  emit_all (drawModernBarChart E (margin + 8)%js (y + 6)%js (inner 75%js)
              chartData showValues) ;;
  advance (chartHeight + 8)%js.

(** *** Cover page *)

Definition coverPage : M unit :=
  text (lit "GOVERNMENT TENDER ANALYSIS") ;;
  text (lit "Comprehensive Performance Report") ;;
  setY 50%js ;;
  text (sellerName params) ;;
  setY 85%js ;;
  text (lit "Report Generated:") ;;
  text (formatDate E (report_generated_at (meta reportData))) ;;
  text (lit "Analysis Period:") ;;
  text (Number_toString E (days params) ++ lit " days") ;;
  text (lit "Department:") ;;
  let deptText := clean (Some (department params)) in
  text (if (50 <? length deptText)%nat
        then substring0 50 deptText ++ lit "..."
        else deptText) ;;
  text (lit "Offered Items:") ;;
  let itemsText :=
    clean (Some (or_str (Some (offeredItem params))
                   (lit "Various items"))) in
  emit (TextLines (firstn 2 (splitTextToSize E itemsText (inner 60%js)))).

(** *** Performance overview *)

Definition donutData : list chart_item :=
  [ {| label := lit "Wins"; value := of_nat successCount;
       color := successGreen; percentage := None |};
    {| label := lit "Losses"; value := of_nat losses;
       color := errorRed; percentage := None |} ].

(** The four KPI cards of the performance overview. *)
Definition kpiCards : M unit :=
  text (toFixed winRate 1 ++ lit "%") ;;
  text (lit "Win Rate") ;;
  text (nat_toString totalBids) ;;
  text (lit "Total Bids") ;;
  advance (24 + 6)%js ;;
  text (nat_toString successCount) ;;
  text (lit "Successful Wins") ;;
  text (formatCurrency totalValue) ;;
  text (lit "Total Value") ;;
  advance (24 + 8)%js.

Definition performanceOverview : M unit :=
  addSectionHeader "Performance Overview" ;;
  kpiCards ;;
  text (lit "Win/Loss Distribution") ;;
  y <- getY ;;
  emit_all
    (default []
       (DonutChart.drawModernDonutChart (margin + 30)%js (y + 32)%js
          18%js 10%js donutData)) ;;
  text (toFixed winRate 1 ++ lit "%") ;;
  text (lit "Win Rate") ;;
  text (lit "Wins: " ++ nat_toString successCount ++ lit " ("
          ++ toFixed winRate 1 ++ lit "%)") ;;
  text (lit "Losses: " ++ nat_toString losses ++ lit " ("
          ++ toFixed (100 - winRate)%js 1 ++ lit "%)") ;;
  text (lit "Avg Order Value:") ;;
  text (formatCurrency avgValue) ;;
  text (lit "Avg Bids/Day:") ;;
  text (toFixed avgBidsPerDay 2).

(** *** Department-wise summary *)

Definition dept_item (c : nat * nat * nat) (d : Department) : chart_item :=
  {| label := clean (Some (department_name d));
     value := total_tenders d;
     color := c;
     percentage := Some 0%js |}.

Definition departmentSummary : M unit :=
  addSectionHeader "Summary of Bids Participated - Department-wise" ;;
  let allDepts :=
    List.filter
      (fun d =>
         let c := clean (Some (department_name d)) in
         negb (jsstring_eqb c []) && negb (jsstring_eqb (toLowerCase c) (lit "na")))
      (or_nil (allDepartments (data reportData))) in
  when (0 <? length allDepts)%nat
    (barChartCard (map (dept_item brightBlue) (firstn 15 allDepts)) 120%js
       false).

(** *** Overall market overview *)

Definition strategy_text : option jsstring :=
  opt_bind (opt_bind (missedButWinnable (data reportData)) ai)
    strategy_summary.

Definition marketOverview : M unit :=
  checkPageBreak 65%js ;;
  addSectionHeader "Overall Market Overview" ;;
  text (lit "Market Analysis Summary") ;;
  let aiSummary :=
    or_str strategy_text (lit "No market analysis available.") in
  emit (TextLines (firstn 8 (splitTextToSize E aiSummary (inner 20%js)))) ;;
  advance 58%js.

(** *** Top performer departments *)

Definition topPerformer : M unit :=
  checkPageBreak 70%js ;;
  addSectionHeader "Top Performer Departments" ;;
  match allDepartments (data reportData) with
  | Some ((_ :: _) as l) =>
      barChartCard (map (dept_item successGreen) (firstn 12 l)) 110%js
        false
  | _ => ret tt
  end.

(** *** Missed-but-winnable tenders *)

(** [a || b] on optional strings. *)
Definition or_opt (a b : option jsstring) : option jsstring :=
  match a with
  | Some (_ :: _) => a
  | _ => b
  end.

(** [formatDate(x)] where [x] may be [undefined]. *)
Definition formatDate_opt (x : option jsstring) : jsstring :=
  match x with
  | Some d => formatDate E d
  | None => lit "Invalid Date"
  end.

(** [win.quantity?.toString() || '0'] *)
Definition quantity_text (b : Bid) : jsstring :=
  match quantity b with
  | Some q => Z_toString q
  | None => lit "0"
  end.

Definition bid_row (index : nat) (win : Bid) : list jsstring :=
  [rank index;
   clean (Some (substring0 18 (or_str (bid_number win) (lit "N/A"))));
   clean (Some (substring0 28 (or_str (org win) (lit "N/A"))));
   clean (Some (substring0 22 (or_str (dept win) (lit "N/A"))));
   quantity_text win;
   formatCurrency (or_num (total_price win) 0%js);
   formatDate_opt (or_opt (ended_at win) (created_at win))].

Definition missedTenders : M unit :=
  addSectionHeader "Missed-but-Winnable Tenders" ;;
  when (0 <? length marketWins)%nat
    (text (lit "Total Missed:") ;;
     text (nat_toString (length marketWins)) ;;
     text (lit "Potential Value:") ;;
     let missedValue := sum_total_price marketWins in
     text (formatCurrency missedValue) ;;
     advance 19%js ;;
     stampedTable
       [lit "#"; lit "Bid Number"; lit "Organization"; lit "Department";
        lit "Qty"; lit "Value"; lit "Date"]
       (mapi bid_row (firstn 10 marketWins)) ;;
     resumeBelowTable 8%js).

(** *** Buyer and department insights *)

Definition the_signals : option Signals :=
  opt_bind (opt_bind (missedButWinnable (data reportData)) ai) signals.

Definition org_item (o : Affinity) : chart_item :=
  let winCount :=
    length (List.filter
              (fun w => match org w with
                        | Some n => jsstring_eqb n (entity o)
                        | None => false
                        end) wins) in
  let pct :=
    if (0 <? totalBids)%nat
    then (of_nat winCount / of_nat totalBids * 100)%js
    else 0%js in
  {| label := entity o;
     value := of_nat winCount;
     color := if (pct >? 40)%js then successGreen
              else if (pct >? 20)%js then brightBlue
              else warningOrange;
     percentage := Some pct |}.

Definition buyerInsights : M unit :=
  checkPageBreak 70%js ;;
  addSectionHeader "Buyer / Department Insights" ;;
  let orgAffinity := or_nil (opt_bind the_signals org_affinity) in
  when (0 <? length orgAffinity)%nat
    (barChartCard (map org_item (firstn 10 orgAffinity)) 85%js true).

(** *** Rivalry scorecard *)

Definition rivalryScorecard : M unit :=
  checkPageBreak 70%js ;;
  addSectionHeader "Rivalry Scorecard - Top Sellers" ;;
  let topSellers :=
    or_nil (opt_bind (topSellersByDept (data reportData)) (fun r => r)) in
  when (0 <? length topSellers)%nat
    (barChartCard
       (map (fun s => {| label := seller_name s;
                         value := participation_count s;
                         color := errorRed;
                         percentage := Some 0%js |})
            (firstn 10 topSellers))
       85%js false).

(** *** Low-competition opportunities *)

Definition opp_row (index : nat) (opp : Bid) : list jsstring :=
  let o := clean (Some (substring0 30
                          (or_str (organisation opp) (lit "N/A")))) in
  let bidNum := clean (Some (substring0 20
                               (or_str (bid_number opp) (lit "N/A")))) in
  let endDate := match bid_end_ts opp with
                 | Some ((_ :: _) as d) => formatDate E d
                 | _ => lit "N/A"
                 end in
  let competitors := or_str (seller_count opp) (lit "0") in
  let urgency := match bid_end_ts opp with
                 | Some ((_ :: _) as d) =>
                     if isPast E d then lit "Closed" else lit "Open"
                 | _ => lit "Unknown"
                 end in
  [rank index; bidNum; o; quantity_text opp; competitors; endDate; urgency].

Definition lowCompetition : M unit :=
  addSectionHeader "Single-Bidder / Low-Competition Opportunities" ;;
  let opportunities :=
    or_nil (opt_bind (lowCompetitionBids (data reportData)) (fun r => r)) in
  when (0 <? length opportunities)%nat
    (text (lit "Total Opportunities:") ;;
     text (nat_toString (length opportunities)) ;;
     text (lit "Single Competitor:") ;;
     let singleComp :=
       length (List.filter
                 (fun o => match seller_count o with
                           | Some c => jsstring_eqb c (lit "1")
                           | None => false
                           end) opportunities) in
     text (nat_toString singleComp) ;;
     advance 19%js ;;
     stampedTable
       [lit "#"; lit "Bid Number"; lit "Organization"; lit "Qty";
        lit "Rivals"; lit "End Date"; lit "Status"]
       (mapi opp_row (firstn 12 opportunities)) ;;
     resumeBelowTable 8%js).

(** *** Top performing states *)

Definition topStates : M unit :=
  checkPageBreak 70%js ;;
  addSectionHeader "Top Performing States / Geographies" ;;
  match opt_bind (topPerformingStates (data reportData)) (fun r => r) with
  | Some l =>
      let statesData :=
        map (fun st => {| label := state_name st;
                          value := state_total_tenders st;
                          color := successGreen;
                          percentage := Some 0%js |})
            (firstn 15 l) in
      when (0 <? length statesData)%nat
        (barChartCard statesData 120%js false)
  | None => ret tt
  end.

(** *** Category distribution *)

Definition categoryDistribution : M unit :=
  addSectionHeader "Category Distribution Analysis" ;;
  let categories := or_nil (categoryListing (data reportData)) in
  when (0 <? length categories)%nat
    (let topCategories := firstn 12 categories in
     let totalCount :=
       fold_left (fun sum cat => (sum + count cat)%js) topCategories 0%js in
     barChartCard
       (map (fun cat => {| label := category cat;
                           value := count cat;
                           color := brightBlue;
                           percentage :=
                             Some (count cat / totalCount * 100)%js |})
            topCategories)
       100%js true).

(** *** Recent successful bids *)

Definition recentBids : M unit :=
  checkPageBreak 80%js ;;
  addSectionHeader "Recent Successful Bids - Detailed View" ;;
  text (lit "Total Wins:") ;;
  text (nat_toString successCount) ;;
  text (lit "Total Value:") ;;
  text (formatCurrency totalValue) ;;
  text (lit "Average:") ;;
  text (formatCurrency avgValue) ;;
  advance 19%js ;;
  stampedTable
    [lit "#"; lit "Bid Number"; lit "Organization"; lit "Department";
     lit "Qty"; lit "Value"; lit "Date"]
    (mapi bid_row (firstn 10 wins)) ;;
  resumeBelowTable 8%js.

(** *** Strategic recommendations *)

Definition recommendationsSection (recommendations : list jsstring)
  : M unit :=
  checkPageBreak 80%js ;;
  addSectionHeader "Strategic Recommendations" ;;
  let cardWidth := (inner 10 / 2)%js in
  let cardHeight := 40%js in
  forEachi (firstn 6 recommendations)
    (fun index rec =>
       let cardCount := index in
       when ((cardCount mod 2 =? 0)%nat && (0 <? cardCount)%nat)
         (advance (cardHeight + 6)%js ;;
          checkPageBreak (cardHeight + 8)%js ;;
          ret tt) ;;
       text (rank index) ;;
       text (lit "Action " ++ rank index) ;;
       emit (TextLines
               (firstn 4 (splitTextToSize E rec (cardWidth - 18)%js)))) ;;
  advance (cardHeight + 8)%js.

(** *** Disclaimer *)

Definition disclaimerText : jsstring :=
  lit "This report is generated based on available public data and AI analysis. While we strive for accuracy, we cannot guarantee the completeness or correctness of all information. Bid decisions should be made based on thorough due diligence and official tender documents. Past performance does not guarantee future results. This analysis is for informational purposes only.".

Definition disclaimer : M unit :=
  checkPageBreak 50%js ;;
  text (lit "Important Disclaimer") ;;
  emit (TextLines (splitTextToSize E disclaimerText (inner 18%js))) ;;
  advance (42 + 6)%js ;;
  text ([169%N]
          ++ lit " 2025 Government Tender Analysis Platform. All rights reserved.") ;;
  text (lit "For support: support@tenderanalysis.com").

(** *** The whole document *)

(** The sections after the cover and the page break that follows it. The
    [addNewPage()] with which a section opens is written here, before the
    body of the section. *)
Definition sections : M unit :=
  performanceOverview ;;
  addNewPage ;;
  departmentSummary ;;
  marketOverview ;;
  topPerformer ;;
  addNewPage ;;
  missedTenders ;;
  buyerInsights ;;
  rivalryScorecard ;;
  addNewPage ;;
  lowCompetition ;;
  topStates ;;
  when (selected "categoryAnalysis") (addNewPage ;; categoryDistribution) ;;
  when (selected "bidsSummary" && (0 <? length wins)%nat) recentBids ;;
  match opt_bind (opt_bind (opt_bind (missedButWinnable (data reportData))
                              ai) guidance) next_steps with
  | Some recommendations => recommendationsSection recommendations
  | None => ret tt
  end ;;
  disclaimer.

Definition generatePDF : M unit :=
  coverPage ;;
  addNewPage ;;
  sections.

Definition initial : state :=
  {| doc := new_jsPDF; yPosition := SAFE_TOP |}.

Definition document : jsPDF := doc (exec generatePDF initial).

End Generator.

End ModernGenerator.

(** ** The first generator of [src/unnamed/part_001] *)

(** [src/unnamed/part_001] holds two generators. The second one is the
    modern generator above; the first one (lines 1 to 943) is embedded here.
    Its [ReportData] and its [drawModernDonutChart] are those of the modern
    generator, word for word, and are shared with it; the rest is its
    own. *)
Module CorporateGenerator.

Definition deepBlue : nat * nat * nat := (30, 64, 175)%nat.
Definition brightBlue : nat * nat * nat := (59, 130, 246)%nat.
Definition successGreen : nat * nat * nat := (16, 185, 129)%nat.
Definition warningOrange : nat * nat * nat := (245, 158, 11)%nat.
Definition errorRed : nat * nat * nat := (239, 68, 68)%nat.

(** The rupee sign (U+20B9) and a space. *)
Definition rupee : jsstring := [8377%N; 32%N].

Definition formatCurrency (amount : number) : jsstring :=
  if (amount >=? 10000000)%js then
    rupee ++ toFixed (amount / 10000000)%js 2 ++ lit " Cr"
  else if (amount >=? 100000)%js then
    rupee ++ toFixed (amount / 100000)%js 2 ++ lit " L"
  else
    rupee ++ toLocaleString_enIN amount.

(** *** [drawModernBarChart] *)

Section Bar.
Variable E : env.
Variables x y width : number.

Definition barHeight : number := 12%js.
Definition spacing : number := 8%js.
Definition maxLabelWidth : number := 55%js.

(** The [while] loop that shortens the label; every turn removes one code
    unit and the loop stops at length 3, so [fuel] turns are enough when
    [fuel] is the length of the label. *)
Fixpoint shorten (fuel : nat) (labelText : jsstring) : jsstring :=
  match fuel with
  | O => labelText
  | S fuel' =>
      if (getTextWidth E labelText >? maxLabelWidth)%js
         && (3 <? length labelText)%nat
      then shorten fuel' (substring0 (length labelText - 1) labelText)
      else labelText
  end.

Definition bar_label (item : chart_item) : jsstring :=
  let labelText := shorten (length (label item)) (label item) in
  if jsstring_eqb labelText (label item) then labelText
  else labelText ++ lit "...".

Definition barWidth (max : number) (item : chart_item) : number :=
  (value item / max * width)%js.

Definition bar_row (showValues : bool) (max : number) (index : nat)
    (item : chart_item) : list op :=
  let currentY := (y + of_nat index * (barHeight + spacing))%js in
  [Text (bar_label item);
   RoundedRect (x + 60)%js (currentY + 2)%js width (barHeight - 4)%js;
   RoundedRect (x + 60)%js (currentY + 2)%js
     (JS.max (barWidth max item) 2%js) (barHeight - 4)%js;
   RoundedRect (x + 60)%js (currentY + 2)%js
     (JS.max (barWidth max item) 2%js) ((barHeight - 4) / 2)%js]
  ++ (if showValues then
        [Text (match percentage item with
               | Some p =>
                   if truthy p then toFixed p 1 ++ lit "%"
                   else formatCurrency (value item)
               | None => formatCurrency (value item)
               end)]
      else []).

Definition drawModernBarChart (data : list chart_item)
    (showValues : bool) : list op :=
  let max := max_list (map value data) in
  concat (mapi (bar_row showValues max) data).
End Bar.

Section Generator.
Variable E : env.
Variable reportData : ModernGenerator.ReportData.
Variable filters : FilterOptions.

Definition margin : number := 20%js.

Definition inner (k : number) : number :=
  (pageWidth E - 2 * margin - k)%js.

Definition params : Params :=
  params_used (ModernGenerator.meta reportData).

Definition the_data : ModernGenerator.Data := ModernGenerator.data reportData.

Definition selected (id : string) : bool :=
  includes (includeSections filters) (lit id).

(** *** Performance metrics *)

Definition wins : list Bid :=
  or_nil (opt_bind (ModernGenerator.missedButWinnable the_data) recentWins).
Definition marketWins : list Bid :=
  or_nil (opt_bind (ModernGenerator.missedButWinnable the_data)
            marketWins_of).
Definition totalBids : nat := (length wins + length marketWins)%nat.
Definition successCount : nat := length wins.
Definition losses : nat := length marketWins.
Definition winRate : number :=
  if (0 <? totalBids)%nat
  then (of_nat successCount / of_nat totalBids * 100)%js
  else 0%js.

Definition totalValue : number := sum_total_price wins.
Definition avgValue : number :=
  if (0 <? successCount)%nat
  then round (totalValue / of_nat successCount)%js
  else 0%js.
Definition avgBidsPerDay : number :=
  (of_nat totalBids / days params)%js.

(** *** Page primitives *)

Definition addPageHeader : M unit :=
  emit (Header [lit "Government Tender Analysis Report";
                formatDate E
                  (report_generated_at (ModernGenerator.meta reportData))]).

Definition addPageFooter : M unit :=
  pageNum <- pageNumber ;;
  emit (Footer [sellerName params;
                lit "Page " ++ nat_toString pageNum;
                lit "Confidential"]).

Definition addNewPage : M unit :=
  addPage ;;
  setY 20%js ;;
  addPageHeader ;;
  addPageFooter.

Definition checkPageBreak (requiredSpace : number) : M bool :=
  y <- getY ;;
  if (y + requiredSpace >? pageHeight E - 25)%js
  then addNewPage ;; ret true
  else ret false.

(** [addSectionHeader(title, icon, color)]; the empty string is falsy. *)
Definition addSectionHeader (title : string) (icon : jsstring) : M unit :=
  checkPageBreak 25%js ;;
  when (negb (jsstring_eqb icon [])) (text icon) ;;
  emit (SectionBand (lit title)) ;;
  advance 18%js.

(** The tables of this generator stamp every page they draw on; their cells
    are drawn as they are. *)
Definition stampedTable (head : list jsstring)
    (body : list (list jsstring)) : M unit :=
  autoTable E head body (fun _ => addPageHeader ;; addPageFooter).

(** A card with a bar chart, as every chart section draws it:
    [chartHeight = data.length * 20 + 10], with no page check of its
    own. *)
Definition barChartCard (chartData : list chart_item) (showValues : bool)
  : M unit :=
  let chartHeight := (of_nat (length chartData) * 20 + 10)%js in
  y <- getY ;;
  emit_all (drawModernBarChart E (margin + 10)%js (y + 8)%js (inner 80%js)
              chartData showValues) ;;
  advance (chartHeight + 12)%js.

(** *** Cover page *)

(** [deptText[0]] is the first line that [splitTextToSize] returns; jsPDF
    returns at least one line. Were there none, [doc.text] would be given
    nothing and raise; the layout monad has no such outcome and draws the
    empty string. *)
Definition coverPage : M unit :=
  text (lit "GOVERNMENT TENDER PERFORMANCE") ;;
  text (lit "COMPREHENSIVE ANALYSIS REPORT") ;;
  setY 40%js ;;
  text (sellerName params) ;;
  setY 90%js ;;
  text (lit "REPORT GENERATED:") ;;
  text (formatDate E
          (report_generated_at (ModernGenerator.meta reportData))) ;;
  text (lit "ANALYSIS PERIOD:") ;;
  text (Number_toString E (days params) ++ lit " days") ;;
  text (lit "DEPARTMENT:") ;;
  let deptText := splitTextToSize E (department params) (inner 80%js) in
  text (hd [] deptText) ;;
  text (lit "ITEMS:") ;;
  let itemsText :=
    splitTextToSize E
      (or_str (Some (offeredItem params)) (lit "Various items"))
      (inner 80%js) in
  emit (TextLines (firstn 2 itemsText)).

(** *** Performance overview *)

Definition donutData : list chart_item :=
  [ {| label := lit "Wins"; value := of_nat successCount;
       color := successGreen; percentage := None |};
    {| label := lit "Losses"; value := of_nat losses;
       color := errorRed; percentage := None |} ].

(** The four KPI cards, in a grid of two by two. *)
Definition kpiCards : M unit :=
  text (toFixed winRate 1 ++ lit "%") ;;
  text (lit "Win Rate") ;;
  text (nat_toString totalBids) ;;
  text (lit "Total Bids") ;;
  advance (28 + 8)%js ;;
  text (nat_toString successCount) ;;
  text (lit "Successful Wins") ;;
  text (formatCurrency totalValue) ;;
  text (lit "Total Value") ;;
  advance (28 + 12)%js.

Definition performanceOverview : M unit :=
  setY 150%js ;;
  addSectionHeader "Performance Overview" [] ;;
  kpiCards ;;
  checkPageBreak 70%js ;;
  text (lit "Win/Loss Distribution") ;;
  y <- getY ;;
  emit_all
    (default []
       (DonutChart.drawModernDonutChart (margin + 35)%js (y + 38)%js
          20%js 12%js donutData)) ;;
  text (toFixed winRate 1 ++ lit "%") ;;
  text (lit "Win Rate") ;;
  text (lit "Wins: " ++ nat_toString successCount ++ lit " ("
          ++ toFixed winRate 1 ++ lit "%)") ;;
  text (lit "Losses: " ++ nat_toString losses ++ lit " ("
          ++ toFixed (100 - winRate)%js 1 ++ lit "%)") ;;
  text (lit "Avg Order Value:") ;;
  text (formatCurrency avgValue) ;;
  text (lit "Avg Bids/Day:") ;;
  text (toFixed avgBidsPerDay 2).

(** *** AI insights *)

Definition the_ai : option Ai :=
  opt_bind (ModernGenerator.missedButWinnable the_data) ai.

Definition the_signals : option Signals := opt_bind the_ai signals.

Definition aiSummaryCard : M unit :=
  addSectionHeader "AI-Powered Strategic Insights" [] ;;
  let aiSummary := or_str (opt_bind the_ai strategy_summary) [] in
  text (lit "Strategic Summary") ;;
  emit (TextLines (firstn 7 (splitTextToSize E aiSummary (inner 25%js)))) ;;
  advance (55 + 12)%js.

(** The colour of a bar, by its share. *)
Definition share_color (pct : number) : nat * nat * nat :=
  if (pct >? 40)%js then successGreen
  else if (pct >? 20)%js then brightBlue
  else warningOrange.

Definition org_item (o : Affinity) : chart_item :=
  let winCount :=
    length (List.filter
              (fun w => match org w with
                        | Some n => jsstring_eqb n (entity o)
                        | None => false
                        end) wins) in
  let pct :=
    if (0 <? totalBids)%nat
    then (of_nat winCount / of_nat totalBids * 100)%js
    else 0%js in
  {| label := entity o;
     value := of_nat winCount;
     color := share_color pct;
     percentage := Some pct |}.

Definition organizationAffinity : M unit :=
  checkPageBreak 80%js ;;
  addSectionHeader "Organization Affinity Analysis" [] ;;
  let orgAffinity := or_nil (opt_bind the_signals org_affinity) in
  when (0 <? length orgAffinity)%nat
    (barChartCard (map org_item (firstn 8 orgAffinity)) true).

Definition dept_item (d : Affinity) : chart_item :=
  let deptWins :=
    List.filter
      (fun w => match dept w with
                | Some n => jsstring_eqb n (entity d)
                | None => false
                end) wins in
  let deptValue := sum_total_price deptWins in
  let pct :=
    if (totalValue >? 0)%js
    then (deptValue / totalValue * 100)%js
    else 0%js in
  {| label := entity d;
     value := deptValue;
     color := share_color pct;
     percentage := Some pct |}.

Definition departmentPerformance : M unit :=
  checkPageBreak 80%js ;;
  addSectionHeader "Department Performance" [] ;;
  let deptAffinity := or_nil (opt_bind the_signals dept_affinity) in
  when (0 <? length deptAffinity)%nat
    (barChartCard (map dept_item (firstn 8 deptAffinity)) true).

(** *** Recent successful bids *)

Definition bid_row (index : nat) (win : Bid) : list jsstring :=
  [rank index;
   substring0 18 (or_str (bid_number win) (lit "N/A"));
   substring0 25 (or_str (org win) (lit "N/A"));
   substring0 20 (or_str (dept win) (lit "N/A"));
   ModernGenerator.quantity_text win;
   formatCurrency (or_num (total_price win) 0%js);
   ModernGenerator.formatDate_opt E
     (ModernGenerator.or_opt (ended_at win) (created_at win))].

Definition recentBids : M unit :=
  checkPageBreak 100%js ;;
  addSectionHeader "Recent Successful Bids" [] ;;
  text (lit "Total Wins:") ;;
  text (nat_toString successCount) ;;
  text (lit "Total Value:") ;;
  text (formatCurrency totalValue) ;;
  text (lit "Average:") ;;
  text (formatCurrency avgValue) ;;
  advance 25%js ;;
  stampedTable
    [lit "#"; lit "Bid Number"; lit "Organization"; lit "Department";
     lit "Qty"; lit "Value"; lit "Date"]
    (mapi bid_row (firstn 10 wins)) ;;
  resumeBelowTable 12%js.

(** *** Strategic recommendations *)

Definition recommendationsSection (recommendations : list jsstring)
  : M unit :=
  checkPageBreak 100%js ;;
  addSectionHeader "Strategic Recommendations" [] ;;
  let cardWidth := (inner 12 / 2)%js in
  let cardHeight := 45%js in
  forEachi (firstn 6 recommendations)
    (fun index rec =>
       let cardCount := index in
       when ((cardCount mod 2 =? 0)%nat && (0 <? cardCount)%nat)
         (advance (cardHeight + 8)%js ;;
          checkPageBreak (cardHeight + 10)%js ;;
          ret tt) ;;
       text (rank index) ;;
       text (lit "Action " ++ rank index) ;;
       emit (TextLines
               (firstn 4 (splitTextToSize E rec (cardWidth - 25)%js)))) ;;
  advance (cardHeight + 12)%js.

(** *** Low-competition opportunities *)

Definition opp_row (index : nat) (opp : Bid) : list jsstring :=
  let o := substring0 30 (or_str (organisation opp) (lit "N/A")) in
  let bidNum := substring0 20 (or_str (bid_number opp) (lit "N/A")) in
  let endDate := match bid_end_ts opp with
                 | Some ((_ :: _) as d) => formatDate E d
                 | _ => lit "N/A"
                 end in
  let competitors := or_str (seller_count opp) (lit "0") in
  let urgency := match bid_end_ts opp with
                 | Some ((_ :: _) as d) =>
                     if isPast E d then lit "Closed" else lit "Open"
                 | _ => lit "Unknown"
                 end in
  [rank index; bidNum; o; ModernGenerator.quantity_text opp; competitors;
   endDate; urgency].

Definition lowCompetition : M unit :=
  checkPageBreak 100%js ;;
  addSectionHeader "Low Competition Opportunities" [] ;;
  let opportunities :=
    or_nil (opt_bind (ModernGenerator.lowCompetitionBids the_data)
              (fun r => r)) in
  when (0 <? length opportunities)%nat
    (text (lit "Total Opportunities:") ;;
     text (nat_toString (length opportunities)) ;;
     text (lit "Single Competitor:") ;;
     let singleComp :=
       length (List.filter
                 (fun o => match seller_count o with
                           | Some c => jsstring_eqb c (lit "1")
                           | None => false
                           end) opportunities) in
     text (nat_toString singleComp) ;;
     advance 23%js ;;
     stampedTable
       [lit "#"; lit "Bid Number"; lit "Organization"; lit "Qty";
        lit "Rivals"; lit "End Date"; lit "Status"]
       (mapi opp_row (firstn 15 opportunities)) ;;
     resumeBelowTable 12%js).

(** *** Category distribution *)

Definition categoryDistribution : M unit :=
  checkPageBreak 100%js ;;
  addSectionHeader "Category Distribution" [] ;;
  let categories := or_nil (ModernGenerator.categoryListing the_data) in
  when (0 <? length categories)%nat
    (let topCategories := firstn 10 categories in
     let totalCount :=
       fold_left (fun sum cat => (sum + count cat)%js) topCategories 0%js in
     barChartCard
       (map (fun cat => {| label := category cat;
                           value := count cat;
                           color := brightBlue;
                           percentage :=
                             Some (count cat / totalCount * 100)%js |})
            topCategories)
       true).

(** *** Top performing states *)

Definition topStates (results : list ModernGenerator.StateStat) : M unit :=
  checkPageBreak 100%js ;;
  addSectionHeader "Top Performing States" [] ;;
  let statesData :=
    map (fun st => {| label := ModernGenerator.state_name st;
                      value := ModernGenerator.state_total_tenders st;
                      color := successGreen;
                      percentage := Some 0%js |})
        (firstn 10 results) in
  when (0 <? length statesData)%nat (barChartCard statesData false).

(** *** Top departments *)

Definition topDepartments (allDepartments : list Department) : M unit :=
  checkPageBreak 100%js ;;
  addSectionHeader "Top Departments by Tender Volume" [] ;;
  let deptData :=
    map (fun d => {| label := department_name d;
                     value := total_tenders d;
                     color := deepBlue;
                     percentage := Some 0%js |})
        (firstn 10 allDepartments) in
  when (0 <? length deptData)%nat (barChartCard deptData false).

(** *** Disclaimer *)

Definition disclaimerText : jsstring :=
  lit "This report is generated based on available public data and AI analysis. While we strive for accuracy, we cannot guarantee the completeness or correctness of all information. Bid decisions should be made based on thorough due diligence and official tender documents. Past performance does not guarantee future results.".

Definition disclaimer : M unit :=
  checkPageBreak 60%js ;;
  text (lit "Important Disclaimer") ;;
  emit (TextLines (splitTextToSize E disclaimerText (inner 25%js))) ;;
  advance (50 + 10)%js ;;
  text ([169%N]
          ++ lit " 2025 Government Tender Analysis Platform. All rights reserved.") ;;
  text (lit "For support: support@tenderanalysis.com").

(** *** The whole document *)

(** What follows the page break after the performance overview. *)
Definition sections : M unit :=
  aiSummaryCard ;;
  organizationAffinity ;;
  departmentPerformance ;;
  when (selected "bidsSummary" && (0 <? length wins)%nat) recentBids ;;
  match opt_bind (opt_bind the_ai guidance) next_steps with
  | Some recommendations => recommendationsSection recommendations
  | None => ret tt
  end ;;
  when (selected "lowCompetition") lowCompetition ;;
  when (selected "categoryAnalysis") categoryDistribution ;;
  when (selected "statesAnalysis")
    (match opt_bind (ModernGenerator.topPerformingStates the_data)
             (fun r => r) with
     | Some results => topStates results
     | None => ret tt
     end) ;;
  when (selected "departmentsAnalysis")
    (match ModernGenerator.allDepartments the_data with
     | Some allDepartments => topDepartments allDepartments
     | None => ret tt
     end) ;;
  disclaimer.

Definition generatePDF : M unit :=
  coverPage ;;
  performanceOverview ;;
  addNewPage ;;
  sections.

Definition initial : state :=
  {| doc := new_jsPDF; yPosition := 20%js |}.

Definition document : jsPDF := doc (exec generatePDF initial).

End Generator.

End CorporateGenerator.

(** * Properties *)

Arguments lit : simpl never.
Arguments nat_toString : simpl never.

(** ** Numbers *)

Lemma PIq_pos : (0 < PIq)%Q.
Proof. reflexivity. Qed.

Lemma PIq_nonzero : Qeq_bool PIq 0 = false.
Proof. reflexivity. Qed.

Lemma num_eq_refl a : a ≈ a.
Proof. destruct a; simpl; auto. reflexivity. Qed.

Lemma num_eq_sym a b : a ≈ b -> b ≈ a.
Proof. destruct a, b; simpl; auto. intros H; symmetry; exact H. Qed.

Lemma num_eq_trans a b c : a ≈ b -> b ≈ c -> a ≈ c.
Proof.
  destruct a, b, c; simpl; auto; try contradiction.
  intros H1 H2. rewrite H1. exact H2.
Qed.

Lemma Qeq_bool_false_iff (x y : Q) : Qeq_bool x y = false <-> ~ (x == y)%Q.
Proof.
  split.
  - intros H He. apply Qeq_eq_bool in He. congruence.
  - intros H. destruct (Qeq_bool x y) eqn:E; [|reflexivity].
    apply Qeq_bool_eq in E. contradiction.
Qed.

Lemma div_fin (x y : Q) : ~ (y == 0)%Q -> (Fin x / Fin y)%js = Fin (x / y).
Proof.
  intros H. unfold div. apply Qeq_bool_false_iff in H. rewrite H. reflexivity.
Qed.

Lemma div_PI (x : Q) : (Fin x / Math_PI)%js = Fin (x / PIq).
Proof. unfold Math_PI, div. rewrite PIq_nonzero. reflexivity. Qed.

Lemma div_zero_zero (x y : Q) :
  (x == 0)%Q -> (y == 0)%Q -> (Fin x / Fin y)%js = NaN.
Proof.
  intros Hx Hy. unfold div.
  rewrite (Qeq_eq_bool _ _ Hy).
  assert (Hc : (x ?= 0)%Q = Eq) by (apply Qeq_alt; exact Hx).
  rewrite Hc. reflexivity.
Qed.

(** ** Pie and donut geometry *)

(** The fan of a slice ends exactly when its span is not +Infinity, for the
    5 degree steps of the pie as for the 2 degree steps of the donut. *)
Lemma steps_terminate (s : number) (k : Z) :
  (0 < k)%Z ->
  loop_count (ceil (s * 180 / Math_PI / Fin (inject_Z k))%js) = None
  <-> s = PInf.
Proof.
  intros Hk.
  assert (Hk0 : ~ (inject_Z k == 0)%Q).
  { intros H. unfold Qeq in H. simpl in H. lia. }
  assert (Hc : (inject_Z k ?= 0)%Q = Gt).
  { apply Qgt_alt. unfold Qlt. simpl. lia. }
  destruct s as [q | | |].
  - change (Fin q * 180)%js with (Fin (q * 180)).
    rewrite div_PI, (div_fin _ _ Hk0). simpl. split; discriminate.
  - change (PInf * 180)%js with PInf.
    change (PInf / Math_PI)%js with PInf.
    unfold div. rewrite Hc. simpl. split; reflexivity.
  - change (NInf * 180)%js with NInf.
    change (NInf / Math_PI)%js with NInf.
    unfold div. rewrite Hc. simpl. split; discriminate.
  - simpl. split; discriminate.
Qed.

Lemma pie_donut_slices cx cy r cx' cy' ro ri total cur data :
  option_map (map slice_geometry) (PieChart.slices cx cy r total cur data)
  = option_map (map slice_geometry)
      (DonutChart.slices cx' cy' ro ri total cur data).
Proof.
  revert cur. induction data as [|item rest IH]; intros cur; [reflexivity|].
  simpl.
  set (sa := (value item / total * 2 * Math_PI)%js).
  pose proof (steps_terminate sa 5 eq_refl) as H5.
  pose proof (steps_terminate sa 2 eq_refl) as H2.
  change (Fin (inject_Z 5)) with 5%js in H5.
  change (Fin (inject_Z 2)) with 2%js in H2.
  destruct (loop_count (ceil (sa * 180 / Math_PI / 5)%js)) as [n5|] eqn:E5;
    destruct (loop_count (ceil (sa * 180 / Math_PI / 2)%js)) as [n2|] eqn:E2.
  - specialize (IH (cur + sa)%js).
    destruct (PieChart.slices cx cy r total (cur + sa)%js rest);
      destruct (DonutChart.slices cx' cy' ro ri total (cur + sa)%js rest);
      simpl in *; try discriminate; [|reflexivity].
    injection IH as IH. rewrite IH. reflexivity.
  - exfalso. assert (sa = PInf) by (apply H2; reflexivity).
    assert (Some n5 = None) by (apply H5; assumption). discriminate.
  - exfalso. assert (sa = PInf) by (apply H5; reflexivity).
    assert (Some n2 = None) by (apply H2; assumption). discriminate.
  - reflexivity.
Qed.

(** C10. For every input series, [drawPieChart] and [drawModernDonutChart]
    compute the same slice geometry: entry by entry the same start angle,
    which begins at -pi/2 and accumulates the earlier spans, and the same
    span 2*pi*value/total; and one of them fails to return exactly when the
    other does. *)
Theorem pie_donut_same_geometry cx cy r cx' cy' ro ri (data : list chart_item) :
  option_map (map slice_geometry) (PieChart.pie_slices cx cy r data)
  = option_map (map slice_geometry)
      (DonutChart.donut_slices cx' cy' ro ri data).
Proof. apply pie_donut_slices. Qed.

(** The geometry of a series of finite values, on rationals: start angle
    and span of every slice. *)
Fixpoint geom_q (t c : Q) (vs : list Q) : list (Q * Q) :=
  match vs with
  | [] => []
  | v :: r =>
      let span := (v / t * 2 * PIq)%Q in
      (c, span) :: geom_q t (c + span)%Q r
  end.

Definition Qsum (l : list Q) : Q := fold_right Qplus 0%Q l.

(** [a + b + ...] over a list of numbers. *)
Definition sum_list (l : list number) : number := fold_right add 0%js l.

Lemma sum_list_fin (qs : list Q) : sum_list (map Fin qs) = Fin (Qsum qs).
Proof.
  induction qs as [|q r IH]; [reflexivity|].
  change (sum_list (map Fin (q :: r))) with (Fin q + sum_list (map Fin r))%js.
  rewrite IH. reflexivity.
Qed.

Lemma finite_values (P : Q -> Prop) (data : list chart_item) :
  Forall (fun item => exists v, value item = Fin v /\ P v) data ->
  exists vs, map value data = map Fin vs /\ Forall P vs.
Proof.
  induction 1 as [|item rest [v [Hv HP]] _ [vs [IH1 IH2]]].
  - exists []. split; constructor.
  - exists (v :: vs). split; [simpl; congruence | constructor; assumption].
Qed.

Lemma fold_values_fin (data : list chart_item) (vs : list Q) (a : Q) :
  map value data = map Fin vs ->
  exists s, fold_left (fun sum item => (sum + value item)%js) data (Fin a)
            = Fin s /\ (s == a + Qsum vs)%Q.
Proof.
  revert vs a. induction data as [|item rest IH]; intros vs a H.
  - destruct vs; [|discriminate]. exists a. split; [reflexivity|].
    simpl. ring.
  - destruct vs as [|v vs]; [discriminate|]. simpl in H.
    injection H as Hv Hrest. simpl. rewrite Hv.
    change (Fin a + Fin v)%js with (Fin (a + v)).
    destruct (IH vs (a + v)%Q Hrest) as [s [Hs Hq]].
    exists s. split; [exact Hs|]. rewrite Hq. simpl. ring.
Qed.

Lemma sum_values_fin (data : list chart_item) (vs : list Q) :
  map value data = map Fin vs ->
  exists s, sum_values data = Fin s /\ (s == Qsum vs)%Q.
Proof.
  intros H. destruct (fold_values_fin data vs 0 H) as [s [Hs Hq]].
  exists s. split; [exact Hs|]. rewrite Hq. ring.
Qed.

Lemma span_fin (v t : Q) :
  ~ (t == 0)%Q ->
  (Fin v / Fin t * 2 * Math_PI)%js = Fin (v / t * 2 * PIq).
Proof. intros Ht. rewrite (div_fin _ _ Ht). reflexivity. Qed.

Lemma finite_steps (q : Q) (k : Z) :
  (0 < k)%Z ->
  exists n, loop_count (ceil (Fin q * 180 / Math_PI / Fin (inject_Z k))%js)
            = Some n.
Proof.
  intros Hk.
  destruct (loop_count (ceil (Fin q * 180 / Math_PI / Fin (inject_Z k))%js))
    as [n|] eqn:E; [eauto|].
  apply (steps_terminate _ _ Hk) in E. discriminate.
Qed.

Lemma pie_slices_fin cx cy r (t c : Q) data vs :
  ~ (t == 0)%Q ->
  map value data = map Fin vs ->
  exists l, PieChart.slices cx cy r (Fin t) (Fin c) data = Some l
            /\ map slice_geometry l
               = map (fun p => (Fin (fst p), Fin (snd p))) (geom_q t c vs).
Proof.
  intros Ht. revert c vs.
  induction data as [|item rest IH]; intros c vs H.
  - destruct vs; [|discriminate]. exists []. split; reflexivity.
  - destruct vs as [|v vs]; [discriminate|]. simpl in H.
    injection H as Hv Hrest. simpl. rewrite Hv, (span_fin _ _ Ht).
    destruct (finite_steps (v / t * 2 * PIq) 5 eq_refl) as [n Hn].
    change (Fin (inject_Z 5)) with 5%js in Hn. rewrite Hn.
    change (Fin c + Fin (v / t * 2 * PIq))%js
      with (Fin (c + v / t * 2 * PIq)).
    destruct (IH (c + v / t * 2 * PIq)%Q vs Hrest) as [l [Hl Hg]].
    rewrite Hl. eexists. split; [reflexivity|].
    simpl. rewrite Hg. reflexivity.
Qed.

Lemma geom_q_spans (t c : Q) vs :
  map snd (geom_q t c vs) = map (fun v => (v / t * 2 * PIq)%Q) vs.
Proof.
  revert c. induction vs as [|v r IH]; intros c; [reflexivity|].
  simpl. rewrite IH. reflexivity.
Qed.

Lemma geom_q_start (t c : Q) vs k p :
  geom_q t c vs !! k = Some p ->
  (fst p == c + Qsum (map snd (take k (geom_q t c vs))))%Q.
Proof.
  revert c k. induction vs as [|v r IH]; intros c k H; [discriminate|].
  destruct k as [|k]; simpl in *.
  - injection H as <-. simpl. ring.
  - rewrite (IH _ _ H). ring.
Qed.

Lemma Qsum_spans (t : Q) vs :
  ~ (t == 0)%Q ->
  (Qsum (map (fun v => v / t * 2 * PIq) vs) == Qsum vs / t * 2 * PIq)%Q.
Proof.
  intros Ht. induction vs as [|v r IH]; simpl.
  - field. exact Ht.
  - rewrite IH. field. exact Ht.
Qed.

(** What the specification asks of the slices [l] drawn for [data] with
    total [t]: one slice per entry in the order of the input, each of span
    2*pi*value/total; slice [k] starts at -pi/2 plus the spans of the slices
    before it; the spans add up to 2*pi. *)
Definition slices_follow_input (data : list chart_item) (t : Q)
    (l : list slice) : Prop :=
  Forall2 (fun s item => slice_span s ≈ (2 * Math_PI * value item / Fin t)%js)
    l data
  /\ (forall k s, l !! k = Some s ->
        slice_start s
        ≈ (neg Math_PI / 2 + sum_list (map slice_span (take k l)))%js)
  /\ sum_list (map slice_span l) ≈ (2 * Math_PI)%js.

Lemma geometry_follows_input (data : list chart_item) (t : Q) vs
    (l : list slice) :
  ~ (t == 0)%Q ->
  map value data = map Fin vs ->
  (t == Qsum vs)%Q ->
  map slice_geometry l
  = map (fun p => (Fin (fst p), Fin (snd p))) (geom_q t (- PIq / 2) vs) ->
  slices_follow_input data t l.
Proof.
  intros Ht Hv Hsum Hg.
  assert (Hspans : map slice_span l
                   = map Fin (map (fun v => (v / t * 2 * PIq)%Q) vs)).
  { rewrite <- geom_q_spans with (c := (- PIq / 2)%Q).
    rewrite map_map.
    transitivity (map snd (map slice_geometry l)).
    - rewrite map_map. reflexivity.
    - rewrite Hg, map_map. reflexivity. }
  assert (Hstarts : map slice_start l
                    = map Fin (map fst (geom_q t (- PIq / 2) vs))).
  { rewrite map_map.
    transitivity (map fst (map slice_geometry l)).
    - rewrite map_map. reflexivity.
    - rewrite Hg, map_map. reflexivity. }
  split; [|split].
  - clear Hstarts Hg Hsum. revert data vs Hv Hspans.
    induction l as [|s l IH]; intros data vs Hv Hspans.
    + destruct vs; [|discriminate]. destruct data; [|discriminate].
      constructor.
    + destruct vs as [|v vs]; [discriminate|].
      destruct data as [|item data]; [discriminate|].
      simpl in Hv, Hspans. injection Hv as Hv Hv'.
      injection Hspans as Hs Hs'.
      constructor; [|eapply IH; eassumption].
      rewrite Hs, Hv.
      change (2 * Math_PI * Fin v)%js with (Fin (2 * PIq * v)).
      rewrite (div_fin _ _ Ht). simpl. field. exact Ht.
  - intros k s Hk.
    assert (Hk' : map slice_start l !! k = Some (slice_start s))
      by (change (map slice_start l) with (slice_start <$> l);
          rewrite list_lookup_fmap, Hk; reflexivity).
    rewrite Hstarts in Hk'.
    change (map Fin (map fst ?x)) with (Fin <$> (fst <$> x)) in Hk'.
    rewrite !list_lookup_fmap in Hk'.
    destruct (geom_q t (- PIq / 2) vs !! k) as [p|] eqn:Ep; [|discriminate].
    simpl in Hk'. injection Hk' as Hk'. rewrite <- Hk'.
    rewrite <- firstn_map, Hspans, firstn_map, sum_list_fin.
    change (neg Math_PI / 2)%js with (Fin (- PIq / 2)).
    simpl. rewrite (geom_q_start _ _ _ _ _ Ep).
    rewrite <- geom_q_spans with (c := (- PIq / 2)%Q).
    rewrite firstn_map. reflexivity.
  - rewrite Hspans, sum_list_fin.
    change (2 * Math_PI)%js with (Fin (2 * PIq)). simpl.
    rewrite (Qsum_spans _ _ Ht), <- Hsum. field. exact Ht.
Qed.


(** A series of two entries, 3 and 1. *)
Definition two_slices : list chart_item :=
  [ {| label := lit "Wins"; value := 3%js; color := (34, 197, 94)%nat;
       percentage := None |};
    {| label := lit "Losses"; value := 1%js; color := (239, 68, 68)%nat;
       percentage := None |} ].



(** ** The series whose total is zero *)

Definition zero_item : chart_item :=
  {| label := []; value := 0%js; color := (0, 0, 0)%nat; percentage := None |}.

(** The reading of the specification: with a zero total every span is of
    length zero and no slice draws anything. *)
Definition zero_total_draws_nothing (slices : option (list slice)) : Prop :=
  forall l, slices = Some l ->
    Forall (fun s => slice_span s ≈ 0%js /\ slice_ops s = []) l.

Lemma nonneg_sum_zero (vs : list Q) :
  Forall (fun v => (0 <= v)%Q) vs -> (Qsum vs == 0)%Q ->
  Forall (fun v => (v == 0)%Q) vs.
Proof.
  induction 1 as [|v r Hv Hr IH]; intros Hs; [constructor|].
  simpl in Hs.
  assert (Hr0 : (0 <= Qsum r)%Q).
  { clear -Hr. induction Hr as [|x l Hx _ IHl]; simpl; [apply Qle_refl|].
    lra. }
  constructor; [lra | apply IH; lra].
Qed.

Lemma nan_span (v t : Q) :
  (v == 0)%Q -> (t == 0)%Q -> (Fin v / Fin t * 2 * Math_PI)%js = NaN.
Proof. intros Hv Ht. rewrite (div_zero_zero _ _ Hv Ht). reflexivity. Qed.

Lemma pie_slices_zero cx cy r (t : Q) cur data vs :
  (t == 0)%Q ->
  map value data = map Fin vs ->
  Forall (fun v => (v == 0)%Q) vs ->
  exists l, PieChart.slices cx cy r (Fin t) cur data = Some l
            /\ length l = length data
            /\ Forall (fun s => slice_span s = NaN
                                /\ slice_ops s = [Circle cx cy r]) l.
Proof.
  intros Ht. revert cur vs.
  induction data as [|item rest IH]; intros cur vs Hv Hz.
  - exists []. repeat split. constructor.
  - destruct vs as [|v vs]; [discriminate|]. simpl in Hv.
    injection Hv as Hv Hrest. inversion Hz as [|? ? Hv0 Hz']; subst.
    simpl. rewrite Hv, (nan_span _ _ Hv0 Ht). simpl.
    destruct (IH (cur + NaN)%js vs Hrest Hz') as [l [Hl [Hlen Hall]]].
    rewrite Hl. eexists. split; [reflexivity|]. split; [simpl; congruence|].
    constructor; [split; reflexivity | exact Hall].
Qed.

Lemma donut_slices_zero cx cy ro ri (t : Q) cur data vs :
  (t == 0)%Q ->
  map value data = map Fin vs ->
  Forall (fun v => (v == 0)%Q) vs ->
  exists l, DonutChart.slices cx cy ro ri (Fin t) cur data = Some l
            /\ length l = length data
            /\ Forall (fun s => slice_span s = NaN /\ slice_ops s = []) l.
Proof.
  intros Ht. revert cur vs.
  induction data as [|item rest IH]; intros cur vs Hv Hz.
  - exists []. repeat split. constructor.
  - destruct vs as [|v vs]; [discriminate|]. simpl in Hv.
    injection Hv as Hv Hrest. inversion Hz as [|? ? Hv0 Hz']; subst.
    simpl. rewrite Hv, (nan_span _ _ Hv0 Ht). simpl.
    destruct (IH (cur + NaN)%js vs Hrest Hz') as [l [Hl [Hlen Hall]]].
    rewrite Hl. eexists. split; [reflexivity|]. split; [simpl; congruence|].
    constructor; [split; reflexivity | exact Hall].
Qed.

Lemma flat_map_nil {A B} (f : A -> list B) (l : list A) :
  Forall (fun x => f x = []) l -> flat_map f l = [].
Proof.
  induction 1 as [|x r Hx _ IH]; [reflexivity|].
  simpl. rewrite Hx, IH. reflexivity.
Qed.

(** C9, as the code has it. For a series of finite non-negative values that
    add up to zero both renderers return and the span computed for every
    slice is NaN (0/0), not zero. The fan of triangles then runs no turn: the
    donut renderer draws nothing but its inner circle, while [drawPieChart]
    still paints one full disc per entry. *)
Theorem zero_total_spans_are_NaN cx cy r cx' cy' ro ri
    (data : list chart_item) (t : Q) :
  Forall (fun item => exists v, value item = Fin v /\ (0 <= v)%Q) data ->
  sum_values data = Fin t ->
  (t == 0)%Q ->
  exists lp ld,
    PieChart.pie_slices cx cy r data = Some lp
    /\ DonutChart.donut_slices cx' cy' ro ri data = Some ld
    /\ length lp = length data
    /\ length ld = length data
    /\ Forall (fun s => slice_span s = NaN
                        /\ slice_ops s = [Circle cx cy r]) lp
    /\ Forall (fun s => slice_span s = NaN /\ slice_ops s = []) ld
    /\ DonutChart.drawModernDonutChart cx' cy' ro ri data
       = Some [Circle cx' cy' ri].
Proof.
  intros Hfin Hsum Ht.
  destruct (finite_values _ _ Hfin) as [vs [Hvs Hpos]].
  destruct (sum_values_fin _ _ Hvs) as [t' [Ht' Hq]].
  rewrite Hsum in Ht'. injection Ht' as <-.
  assert (Hz : Forall (fun v => (v == 0)%Q) vs).
  { apply nonneg_sum_zero; [exact Hpos|]. rewrite <- Hq. exact Ht. }
  destruct (pie_slices_zero cx cy r t (neg Math_PI / 2)%js data vs Ht Hvs Hz)
    as [lp [Hlp [Hlenp Hallp]]].
  destruct (donut_slices_zero cx' cy' ro ri t (neg Math_PI / 2)%js data vs
              Ht Hvs Hz) as [ld [Hld [Hlend Halld]]].
  assert (Hd : DonutChart.donut_slices cx' cy' ro ri data = Some ld).
  { unfold DonutChart.donut_slices. rewrite Hsum. exact Hld. }
  exists lp, ld. split.
  { unfold PieChart.pie_slices. rewrite Hsum. exact Hlp. }
  split; [exact Hd|].
  split; [exact Hlenp|]. split; [exact Hlend|].
  split; [exact Hallp|]. split; [exact Halld|].
  unfold DonutChart.drawModernDonutChart. rewrite Hd.
  rewrite flat_map_nil; [reflexivity|].
  eapply Forall_impl; [exact Halld|]. intros s [_ Hs]. exact Hs.
Qed.

Lemma zero_total_spans_are_NaN_witness :
  exists lp ld,
    PieChart.pie_slices 50%js 100%js 22%js [zero_item; zero_item] = Some lp
    /\ DonutChart.donut_slices 45%js 100%js 18%js 10%js [zero_item; zero_item]
       = Some ld
    /\ length lp = 2%nat
    /\ length ld = 2%nat
    /\ Forall (fun s => slice_span s = NaN
                        /\ slice_ops s = [Circle 50%js 100%js 22%js]) lp
    /\ Forall (fun s => slice_span s = NaN /\ slice_ops s = []) ld
    /\ DonutChart.drawModernDonutChart 45%js 100%js 18%js 10%js
         [zero_item; zero_item]
       = Some [Circle 45%js 100%js 10%js].
Proof.
  apply (zero_total_spans_are_NaN 50%js 100%js 22%js 45%js 100%js 18%js 10%js
           [zero_item; zero_item] 0%Q).
  - assert (Hz : exists v, value zero_item = Fin v /\ (0 <= v)%Q)
      by (exists 0%Q; split; [reflexivity | apply Qle_refl]).
    apply List.Forall_cons; [exact Hz|].
    apply List.Forall_cons; [exact Hz|]. apply List.Forall_nil.
  - reflexivity.
  - reflexivity.
Defined.

(** C9 as stated fails on the series of two zeros, the one [generatePDF]
    passes when there is no bid at all: the spans are NaN and the pie
    renderer draws. *)
Lemma zero_total_counterexample :
  ~ zero_total_draws_nothing
      (PieChart.pie_slices 50%js 100%js 22%js [zero_item; zero_item])
  /\ ~ zero_total_draws_nothing
      (DonutChart.donut_slices 45%js 100%js 18%js 10%js
         [zero_item; zero_item]).
Proof.
  split; intros H.
  - specialize (H _ eq_refl). inversion H as [|? ? [Hspan _] _]; subst.
    exact Hspan.
  - specialize (H _ eq_refl). inversion H as [|? ? [Hspan _] _]; subst.
    exact Hspan.
Qed.

(** ** Bar lengths *)

(** The widths of the rectangles among some operations, in order. *)
Definition rect_widths (ops : list op) : list number :=
  flat_map (fun o => match o with
                     | RoundedRect _ _ w _ => [w]
                     | _ => []
                     end) ops.

(** An environment for the examples: an A4 page, text that is never
    wrapped, two units of width per code unit, twenty table rows a page. *)
Definition sample_env : env :=
  {| pageWidth := 210%js;
     pageHeight := 297%js;
     formatDate := fun s => s;
     splitTextToSize := fun s _ => [s];
     getTextWidth := fun s => (of_nat (length s) * 2)%js;
     numberToString := fun _ => lit "?";
     tableLayout := fun startY _ body =>
                      ((length body / 20)%nat,
                       (startY + 10 + of_nat (length body mod 20) * 8)%js);
     isPast := fun _ => true |}.

Definition item_of (v : number) : chart_item :=
  {| label := lit "item"; value := v; color := (0, 0, 0)%nat;
     percentage := None |}.

(** The reading of the specification for one bar: any positive value up to
    the maximum gives a length within the track, the whole track when the
    value is the maximum. *)
Definition bar_fits_track (w v m : Q) : Prop :=
  (0 < v)%Q -> (v <= m)%Q ->
  forall len : Q,
    rect_widths (BarChart.bar_row sample_env 0%js 0%js (Fin w) (Fin m) 0
                   (item_of (Fin v))) = [Fin len] ->
    (0 < len)%Q /\ (len <= w)%Q /\ ((v == m)%Q -> (len == w)%Q).

Lemma max_fin_2 (b : Q) :
  JS.max (Fin b) 2%js = Fin (if Qle_bool 2 b then b else 2).
Proof.
  unfold JS.max, ltb. simpl isNaN. simpl orb.
  destruct (Qle_bool 2 b) eqn:Hb; reflexivity.
Qed.

Lemma barWidth_fin (w v m : Q) :
  (0 < v)%Q -> (v <= m)%Q ->
  (Fin v / Fin m * Fin w)%js = Fin (v / m * w).
Proof.
  intros Hv Hm. rewrite div_fin; [reflexivity|]. lra.
Qed.

Lemma fold_max_fin (vs : list Q) (a : Q) :
  exists m, fold_left JS.max (map Fin vs) (Fin a) = Fin m
            /\ (a <= m)%Q /\ Forall (fun v => (v <= m)%Q) vs
            /\ ((m == a)%Q \/ Exists (fun v => (v == m)%Q) vs).
Proof.
  revert a. induction vs as [|v r IH]; intros a.
  - exists a. repeat split; [apply Qle_refl | constructor | left; reflexivity].
  - simpl.
    assert (Hmax : exists b, JS.max (Fin a) (Fin v) = Fin b
                             /\ (a <= b)%Q /\ (v <= b)%Q
                             /\ ((b == a)%Q \/ (b == v)%Q)).
    { unfold JS.max, ltb. simpl isNaN. simpl orb.
      destruct (Qle_bool v a) eqn:Hva; simpl.
      - apply Qle_bool_iff in Hva. exists a.
        repeat split; [apply Qle_refl | exact Hva | left; reflexivity].
      - assert (~ (v <= a)%Q) by (rewrite <- Qle_bool_iff; congruence).
        exists v. repeat split; [lra | apply Qle_refl | right; reflexivity]. }
    destruct Hmax as [b [Hb [Hab [Hvb Hor]]]]. rewrite Hb.
    destruct (IH b) as [m [Hm [Hbm [Hall Hex]]]].
    exists m. split; [exact Hm|]. split; [lra|]. split.
    + constructor; [lra | exact Hall].
    + destruct Hex as [Hmb | Hex].
      * destruct Hor as [Hba | Hbv].
        -- left. lra.
        -- right. apply Exists_cons. left. lra.
      * right. apply Exists_cons. right. exact Hex.
Qed.

Lemma max_list_fin (v : Q) (vs : list Q) :
  exists m, max_list (map Fin (v :: vs)) = Fin m
            /\ Forall (fun x => (x <= m)%Q) (v :: vs)
            /\ Exists (fun x => (x == m)%Q) (v :: vs).
Proof.
  unfold max_list. simpl.
  change (JS.max NInf (Fin v)) with (Fin v).
  destruct (fold_max_fin vs v) as [m [Hm [Hvm [Hall Hex]]]].
  exists m. split; [exact Hm|]. split.
  - constructor; assumption.
  - apply Exists_cons. destruct Hex as [H | H]; [left; lra | right; exact H].
Qed.




(** ** Currency *)

Lemma geb_fin (a b : Q) : (Fin a >=? Fin b)%js = Qle_bool b a.
Proof. reflexivity. Qed.

Lemma Qle_bool_false (a b : Q) : Qle_bool a b = false <-> (b < a)%Q.
Proof.
  split.
  - intros H. apply Qnot_le_lt. rewrite <- Qle_bool_iff. congruence.
  - intros H. destruct (Qle_bool a b) eqn:E; [|reflexivity].
    apply Qle_bool_iff in E. lra.
Qed.

Lemma Qfloor_unique (x : Q) (z : Z) :
  (inject_Z z <= x)%Q -> (x < inject_Z (z + 1))%Q -> Qfloor x = z.
Proof.
  intros H1 H2.
  pose proof (Qfloor_le x) as F1. pose proof (Qlt_floor x) as F2.
  assert (A : (inject_Z z < inject_Z (Qfloor x + 1))%Q) by lra.
  assert (B : (inject_Z (Qfloor x) < inject_Z (z + 1))%Q) by lra.
  rewrite <- Zlt_Qlt in A, B. lia.
Qed.

Lemma Qfloor_thousand (z : Z) :
  Qfloor (Qabs (inject_Z z) * 1000 + (1 # 2)) = (Z.abs z * 1000)%Z.
Proof.
  assert (H : (Qabs (inject_Z z) * 1000 + (1 # 2)
               == inject_Z (Z.abs z * 1000) + (1 # 2))%Q).
  { rewrite inject_Z_mult. unfold Qabs, inject_Z. simpl. reflexivity. }
  rewrite H.
  apply Qfloor_unique.
  - lra.
  - rewrite inject_Z_plus. change (inject_Z 1) with 1%Q. lra.
Qed.

Lemma toLocaleString_integer (z : Z) :
  (0 <= z)%Z ->
  toLocaleString_enIN (of_Z z) = group_enIN (Z_toString z).
Proof.
  intros Hz. unfold toLocaleString_enIN, of_Z.
  assert (Hle : Qle_bool 0 (inject_Z z) = true).
  { apply Qle_bool_iff. change 0%Q with (inject_Z 0). rewrite <- Zle_Qle.
    exact Hz. }
  rewrite Hle, Qfloor_thousand, Z.abs_eq by exact Hz.
  replace (Z.to_N (z * 1000) mod 1000)%N with 0%N.
  2:{ rewrite Z2N.inj_mul by lia. symmetry. apply N.Div0.mod_mul. }
  replace (Z.to_N (z * 1000) / 1000)%N with (Z.to_N z).
  2:{ rewrite Z2N.inj_mul by lia. symmetry. apply N.div_mul. discriminate. }
  change (strip_zeros (pad_zeros 3 (N_toString 0))) with (@nil N).
  simpl. rewrite app_nil_r.
  destruct z; try reflexivity. lia.
Qed.




(** ** The sanitizer *)

Lemma Forall_dropWhile {A} (P : A -> Prop) (f : A -> bool) (l : list A) :
  Forall P l -> Forall P (dropWhile f l).
Proof.
  induction 1 as [|x r Hx Hr IH]; simpl; [constructor|].
  destruct (f x); [exact IH | constructor; assumption].
Qed.

Lemma dropWhile_head {A} (f : A -> bool) (l : list A) (x : A) (r : list A) :
  dropWhile f l = x :: r -> f x = false.
Proof.
  induction l as [|y l IH]; simpl; [discriminate|].
  destruct (f y) eqn:E; [exact IH|].
  intros H. injection H as <- _. exact E.
Qed.

(** What [clean] does guarantee for every input: only printable ASCII is
    left, and no white space at either end. *)
Lemma clean_printable_trimmed (value : option jsstring) :
  Forall (fun c => is_printable c = true) (clean value)
  /\ (forall c r, clean value = c :: r -> is_space c = false)
  /\ (forall c r, rev (clean value) = c :: r -> is_space c = false).
Proof.
  unfold clean. set (s := strip_non_printable _).
  assert (Hs : Forall (fun c => is_printable c = true) s).
  { unfold s, strip_non_printable. apply Forall_forall.
    intros c Hc. apply list_elem_of_In, List.filter_In in Hc. apply Hc. }
  clearbody s. unfold trim. split; [|split].
  - apply Forall_rev, Forall_dropWhile, Forall_rev, Forall_dropWhile, Hs.
  - intros c r H.
    destruct (dropWhile is_space s) as [|d ds] eqn:Ed; [discriminate|].
    assert (Hd : is_space d = false) by (eapply dropWhile_head; exact Ed).
    assert (Hin : In c (d :: ds)).
    { apply in_rev.
      assert (Hin' : In c (dropWhile is_space (rev (d :: ds)))).
      { apply in_rev. rewrite H. left. reflexivity. }
      clear -Hin'. induction (rev (d :: ds)) as [|y l IH]; simpl in *;
        [contradiction|].
      destruct (is_space y); [right; auto | exact Hin']. }
    assert (Hrev : rev (dropWhile is_space (rev (d :: ds))) = c :: r)
      by exact H.
    clear H.
    (* the first element of the result is the first element [d] *)
    assert (Hlast : exists l', dropWhile is_space (rev (d :: ds)) = l' ++ [d]).
    { simpl rev. generalize (rev ds). intros l.
      induction l as [|y l IH]; simpl.
      - rewrite Hd. exists []. reflexivity.
      - destruct (is_space y); [exact IH | exists (y :: l); reflexivity]. }
    destruct Hlast as [l' Hl']. rewrite Hl', rev_app_distr in Hrev.
    simpl in Hrev. injection Hrev as <- _. exact Hd.
  - intros c r H. rewrite rev_involutive in H.
    eapply dropWhile_head. exact H.
Qed.

(** C6 on the code. At the example of the specification [clean] leaves two
    adjacent spaces: the runs of white space are collapsed before the en
    dash between two spaces is removed. *)
Theorem clean_spec_example :
  clean (Some spec_example)
  = lit "Rs 1,000  " ++ [34%N] ++ lit "demo" ++ [34%N]
  /\ has_double_space (clean (Some spec_example)) = true.
Proof. split; vm_compute; reflexivity. Qed.

(** ** Reasoning on the layout monad *)

Lemma bind_run {A B} (m : M A) (f : A -> M B) (s : state) :
  bind m f s = f (fst (m s)) (snd (m s)).
Proof. unfold bind. destruct (m s). reflexivity. Qed.

Lemma exec_bind {A B} (m : M A) (f : A -> M B) (s : state) :
  exec (bind m f) s = exec (f (fst (m s))) (exec m s).
Proof. unfold exec. rewrite bind_run. reflexivity. Qed.

(** [m] keeps the property [I] of the state. *)
Definition preserves {A} (I : state -> Prop) (m : M A) : Prop :=
  forall s, I s -> I (exec m s).

(** Shapes and text, which no page-level property of this development
    forbids. *)
Definition is_draw (o : op) : bool :=
  match o with
  | Text _ | TextLines _ | Circle _ _ _ | Triangle _ _ _
  | RoundedRect _ _ _ _ => true
  | _ => false
  end.

(** A property of the state that the primitives of the document keep, as
    long as the operations they draw satisfy [ok]. *)
Record Invariant (I : state -> Prop) (ok : op -> Prop) : Prop := {
  inv_emit : forall o, ok o -> preserves I (emit o);
  inv_addPage : preserves I addPage;
  inv_setY : forall y, preserves I (setY y);
  inv_setFinalY : forall y, preserves I (setFinalY y);
  inv_draw : forall o, is_draw o = true -> ok o;
  inv_table : forall head body k, ok (Table head body k)
}.

(** The page stamps and some section titles are among the operations
    allowed. *)
Definition stamps_ok (ok : op -> Prop) : Prop :=
  (forall texts, ok (Header texts)) /\ (forall texts, ok (Footer texts)).

Definition titles_ok (ok : op -> Prop) (titles : list string) : Prop :=
  forall title, In title titles -> ok (SectionBand (lit title)).

Section Preservation.
Context {I : state -> Prop}.

Lemma preserves_ret {A} (a : A) : preserves I (ret a).
Proof. intros s H. exact H. Qed.

Lemma preserves_bind {A B} (m : M A) (f : A -> M B) :
  preserves I m -> (forall a, preserves I (f a)) -> preserves I (bind m f).
Proof.
  intros Hm Hf s H. rewrite exec_bind. apply Hf, Hm, H.
Qed.

Lemma preserves_when (c : bool) (m : M unit) :
  preserves I m -> preserves I (when c m).
Proof. intros Hm. destruct c; [exact Hm | apply preserves_ret]. Qed.

Lemma preserves_forEach {A} (l : list A) (f : A -> M unit) :
  (forall x, preserves I (f x)) -> preserves I (forEach l f).
Proof.
  intros Hf. induction l as [|x r IH]; simpl.
  - apply preserves_ret.
  - apply preserves_bind; [apply Hf | intros _; exact IH].
Qed.

Lemma preserves_forEachi {A} (l : list A) (f : nat -> A -> M unit) :
  (forall i x, preserves I (f i x)) -> preserves I (forEachi l f).
Proof. intros Hf. apply preserves_forEach. intros [i x]. apply Hf. Qed.

Lemma preserves_getY : preserves I getY.
Proof. intros s H. exact H. Qed.

Lemma preserves_getFinalY : preserves I getFinalY.
Proof. intros s H. exact H. Qed.

Lemma preserves_pageNumber : preserves I pageNumber.
Proof. intros s H. exact H. Qed.

Context {ok : op -> Prop} (HI : Invariant I ok).

Lemma preserves_emit_all (l : list op) :
  Forall (fun o => is_draw o = true) l -> preserves I (emit_all l).
Proof.
  intros Hl. unfold emit_all.
  induction Hl as [|o r Ho _ IH]; simpl.
  - apply preserves_ret.
  - apply preserves_bind; [|intros _; exact IH].
    apply (inv_emit _ _ HI), (inv_draw _ _ HI), Ho.
Qed.

End Preservation.

(** *** What the chart renderers draw *)

Lemma Forall_concat_mapi {A B} (P : B -> Prop) (f : nat -> A -> list B)
    (l : list A) :
  (forall i x, Forall P (f i x)) -> Forall P (concat (mapi f l)).
Proof.
  intros Hf. unfold mapi.
  induction (combine (seq 0 (length l)) l) as [|p r IH]; simpl.
  - constructor.
  - apply Forall_app. split; [apply Hf | exact IH].
Qed.

Lemma drawBarChart_draws E x y width data maxValue :
  Forall (fun o => is_draw o = true)
    (BarChart.drawBarChart E x y width data maxValue).
Proof.
  apply Forall_concat_mapi. intros i item.
  repeat constructor.
Qed.

Lemma drawModernBarChart_draws E x y width data showValues :
  Forall (fun o => is_draw o = true)
    (ModernGenerator.drawModernBarChart E x y width data showValues).
Proof.
  apply Forall_concat_mapi. intros i item.
  unfold ModernGenerator.bar_row. apply Forall_app. split.
  - repeat constructor.
  - destruct showValues; repeat constructor.
Qed.

Lemma Forall_flat_map {A B} (P : B -> Prop) (f : A -> list B) (l : list A) :
  Forall (fun x => Forall P (f x)) l -> Forall P (flat_map f l).
Proof.
  induction 1 as [|x r Hx _ IH]; simpl; [constructor|].
  apply Forall_app. split; assumption.
Qed.

Lemma Forall_map_seq {B} (P : B -> Prop) (f : nat -> B) (a n : nat) :
  (forall i, P (f i)) -> Forall P (map f (seq a n)).
Proof.
  intros Hf. induction (seq a n); simpl; constructor; auto.
Qed.

Lemma pie_slices_draw cx cy r total cur data l :
  PieChart.slices cx cy r total cur data = Some l ->
  Forall (fun s => Forall (fun o => is_draw o = true) (slice_ops s)) l.
Proof.
  revert cur l. induction data as [|item rest IH]; intros cur l H; simpl in H.
  - injection H as <-. constructor.
  - destruct (loop_count _) as [n|]; [|discriminate].
    destruct (PieChart.slices cx cy r total _ rest) as [more|] eqn:Em;
      [|discriminate].
    injection H as <-. constructor; [|eapply IH; exact Em].
    simpl. constructor; [reflexivity|].
    apply Forall_map_seq. intros i. reflexivity.
Qed.

Lemma donut_slices_draw cx cy ro ri total cur data l :
  DonutChart.slices cx cy ro ri total cur data = Some l ->
  Forall (fun s => Forall (fun o => is_draw o = true) (slice_ops s)) l.
Proof.
  revert cur l. induction data as [|item rest IH]; intros cur l H; simpl in H.
  - injection H as <-. constructor.
  - destruct (loop_count _) as [n|]; [|discriminate].
    destruct (DonutChart.slices cx cy ro ri total _ rest) as [more|] eqn:Em;
      [|discriminate].
    injection H as <-. constructor; [|eapply IH; exact Em].
    simpl. unfold DonutChart.fan. apply Forall_flat_map.
    induction (seq 0 n) as [|i r' IHr]; constructor;
      [repeat constructor | exact IHr].
Qed.

Lemma drawPieChart_draws cx cy r data :
  Forall (fun o => is_draw o = true)
    (default [] (PieChart.drawPieChart cx cy r data)).
Proof.
  unfold PieChart.drawPieChart, PieChart.pie_slices.
  destruct (PieChart.slices _ _ _ _ _ _) as [l|] eqn:El; simpl;
    [|constructor].
  apply Forall_app. split; [|repeat constructor].
  apply Forall_flat_map. eapply pie_slices_draw. exact El.
Qed.

Lemma drawModernDonutChart_draws cx cy ro ri data :
  Forall (fun o => is_draw o = true)
    (default [] (DonutChart.drawModernDonutChart cx cy ro ri data)).
Proof.
  unfold DonutChart.drawModernDonutChart, DonutChart.donut_slices.
  destruct (DonutChart.slices _ _ _ _ _ _ _) as [l|] eqn:El; simpl;
    [|constructor].
  apply Forall_app. split; [|repeat constructor].
  apply Forall_flat_map. eapply donut_slices_draw. exact El.
Qed.

(** *** The traversal of a block of layout code *)

Ltac head_of t :=
  lazymatch t with
  | ?f _ => head_of f
  | _ => t
  end.

Ltac title_ok :=
  lazymatch goal with
  | H : titles_ok ?ok _ |- ?ok (SectionBand (lit ?t)) =>
      apply H; simpl; tauto
  end.

Ltac layout_step HI HS :=
  lazymatch goal with
  | |- preserves _ (bind _ _) => apply preserves_bind; [|intros ?]
  | |- preserves _ (ret _) => apply preserves_ret
  | |- preserves _ (when _ _) => apply preserves_when
  | |- preserves _ (forEach _ _) => apply preserves_forEach; intros ?
  | |- preserves _ (forEachi _ _) => apply preserves_forEachi; intros ? ?
  | |- preserves _ getY => apply preserves_getY
  | |- preserves _ getFinalY => apply preserves_getFinalY
  | |- preserves _ pageNumber => apply preserves_pageNumber
  | |- preserves _ (setY _) => apply (inv_setY _ _ HI)
  | |- preserves _ (setFinalY _) => apply (inv_setFinalY _ _ HI)
  | |- preserves _ addPage => apply (inv_addPage _ _ HI)
  | |- preserves _ (emit_all _) =>
      apply (preserves_emit_all HI);
      first [ apply drawBarChart_draws | apply drawModernBarChart_draws
            | apply drawPieChart_draws | apply drawModernDonutChart_draws ]
  | |- preserves _ (emit (SectionBand _)) =>
      apply (inv_emit _ _ HI); first [title_ok | exact Logic.I]
  | |- preserves _ (emit (Header _)) =>
      apply (inv_emit _ _ HI); first [exact Logic.I | apply (proj1 HS)]
  | |- preserves _ (emit (Footer _)) =>
      apply (inv_emit _ _ HI); first [exact Logic.I | apply (proj2 HS)]
  | |- preserves _ (emit (Table _ _ _)) =>
      apply (inv_emit _ _ HI); first [exact Logic.I | apply (inv_table _ _ HI)]
  | |- preserves _ (emit _) =>
      apply (inv_emit _ _ HI);
      first [exact Logic.I | apply (inv_draw _ _ HI); reflexivity]
  | |- preserves _ (if ?c then _ else _) => destruct c
  | |- preserves _ (match ?x with _ => _ end) => destruct x
  | |- preserves _ ?m => let h := head_of m in unfold h
  end.

Ltac layout HI HS := cbv zeta; repeat (layout_step HI HS; cbv zeta).

Section ClassicSections.
Context (E : env) (reportData : PdfGenerator.ReportData).
Context {I : state -> Prop} {ok : op -> Prop}.
Context (HI : Invariant I ok) (HS : stamps_ok ok).

Lemma classic_addNewPage :
  preserves I (PdfGenerator.addNewPage E reportData).
Proof. layout HI HS. Qed.

Lemma classic_checkPageBreak h :
  preserves I (PdfGenerator.checkPageBreak E reportData h).
Proof. layout HI HS. Qed.

Lemma classic_coverPage : preserves I (PdfGenerator.coverPage E reportData).
Proof. layout HI HS. Qed.

Lemma classic_addPageFooter :
  preserves I (PdfGenerator.addPageFooter E reportData).
Proof. layout HI HS. Qed.

Lemma classic_bidsSummary :
  titles_ok ok ["Executive Summary"; "AI-Powered Strategic Insights"]%string ->
  preserves I (PdfGenerator.bidsSummary E reportData).
Proof. intros HT. layout HI HS. Qed.

Lemma classic_marketOverview :
  titles_ok ok ["Overall Market Overview"]%string ->
  preserves I (PdfGenerator.marketOverview E reportData).
Proof. intros HT. layout HI HS. Qed.

Lemma classic_topPerformer :
  titles_ok ok ["Top Performer Department"]%string ->
  preserves I (PdfGenerator.topPerformer E reportData).
Proof. intros HT. layout HI HS. Qed.

Lemma classic_missedTenders :
  titles_ok ok ["Missed-but-Winnable Tenders"]%string ->
  preserves I (PdfGenerator.missedTenders E reportData).
Proof. intros HT. layout HI HS. Qed.

Lemma classic_aiInsights aiData :
  titles_ok ok ["Comprehensive AI Intelligence & Recommendations";
                "High-Probability Win Opportunities";
                "Strategic Action Plan & Next Steps"]%string ->
  preserves I (PdfGenerator.aiInsights E reportData aiData).
Proof. intros HT. layout HI HS. Qed.

Lemma classic_buyerInsights :
  titles_ok ok ["Buyer / Department Insights"]%string ->
  preserves I (PdfGenerator.buyerInsights E reportData).
Proof. intros HT. layout HI HS. Qed.

Lemma classic_rivalryScore :
  titles_ok ok ["Rivalry Scorecard"]%string ->
  preserves I (PdfGenerator.rivalryScore E reportData).
Proof. intros HT. layout HI HS. Qed.

Lemma classic_lowCompetition :
  titles_ok ok ["Single-Bidder / Low-Competition Opportunities"]%string ->
  preserves I (PdfGenerator.lowCompetition E reportData).
Proof. intros HT. layout HI HS. Qed.

Lemma classic_topStatesSection :
  titles_ok ok ["Top Performing States / Geographies"]%string ->
  preserves I (PdfGenerator.topStatesSection E reportData).
Proof. intros HT. layout HI HS. Qed.

Lemma classic_recentBids :
  titles_ok ok ["Recent Successful Bids - Detailed List"]%string ->
  preserves I (PdfGenerator.recentBids E reportData).
Proof. intros HT. layout HI HS. Qed.

End ClassicSections.

Section ModernSections.
Context (E : env) (reportData : ModernGenerator.ReportData).
Context {I : state -> Prop} {ok : op -> Prop}.
Context (HI : Invariant I ok) (HS : stamps_ok ok).

Lemma modern_addNewPage :
  preserves I (ModernGenerator.addNewPage E reportData).
Proof. layout HI HS. Qed.

Lemma modern_checkPageBreak h :
  preserves I (ModernGenerator.checkPageBreak E reportData h).
Proof. layout HI HS. Qed.

Lemma modern_coverPage : preserves I (ModernGenerator.coverPage E reportData).
Proof. layout HI HS. Qed.

Lemma modern_kpiCards : preserves I (ModernGenerator.kpiCards reportData).
Proof. layout HI HS. Qed.

Lemma modern_performanceOverview :
  titles_ok ok ["Performance Overview"]%string ->
  preserves I (ModernGenerator.performanceOverview E reportData).
Proof. intros HT. layout HI HS. Qed.

Lemma modern_departmentSummary :
  titles_ok ok ["Summary of Bids Participated - Department-wise"]%string ->
  preserves I (ModernGenerator.departmentSummary E reportData).
Proof. intros HT. layout HI HS. Qed.

Lemma modern_marketOverview :
  titles_ok ok ["Overall Market Overview"]%string ->
  preserves I (ModernGenerator.marketOverview E reportData).
Proof. intros HT. layout HI HS. Qed.

Lemma modern_topPerformer :
  titles_ok ok ["Top Performer Departments"]%string ->
  preserves I (ModernGenerator.topPerformer E reportData).
Proof. intros HT. layout HI HS. Qed.

Lemma modern_missedTenders :
  titles_ok ok ["Missed-but-Winnable Tenders"]%string ->
  preserves I (ModernGenerator.missedTenders E reportData).
Proof. intros HT. layout HI HS. Qed.

Lemma modern_buyerInsights :
  titles_ok ok ["Buyer / Department Insights"]%string ->
  preserves I (ModernGenerator.buyerInsights E reportData).
Proof. intros HT. layout HI HS. Qed.

Lemma modern_rivalryScorecard :
  titles_ok ok ["Rivalry Scorecard - Top Sellers"]%string ->
  preserves I (ModernGenerator.rivalryScorecard E reportData).
Proof. intros HT. layout HI HS. Qed.

Lemma modern_lowCompetition :
  titles_ok ok ["Single-Bidder / Low-Competition Opportunities"]%string ->
  preserves I (ModernGenerator.lowCompetition E reportData).
Proof. intros HT. layout HI HS. Qed.

Lemma modern_topStates :
  titles_ok ok ["Top Performing States / Geographies"]%string ->
  preserves I (ModernGenerator.topStates E reportData).
Proof. intros HT. layout HI HS. Qed.

Lemma modern_categoryDistribution :
  titles_ok ok ["Category Distribution Analysis"]%string ->
  preserves I (ModernGenerator.categoryDistribution E reportData).
Proof. intros HT. layout HI HS. Qed.

Lemma modern_recentBids :
  titles_ok ok ["Recent Successful Bids - Detailed View"]%string ->
  preserves I (ModernGenerator.recentBids E reportData).
Proof. intros HT. layout HI HS. Qed.

Lemma modern_recommendationsSection recommendations :
  titles_ok ok ["Strategic Recommendations"]%string ->
  preserves I
    (ModernGenerator.recommendationsSection E reportData recommendations).
Proof. intros HT. layout HI HS. Qed.

Lemma modern_disclaimer : preserves I (ModernGenerator.disclaimer E reportData).
Proof. layout HI HS. Qed.

End ModernSections.

(** ** Invariants of the document *)

(** Every operation on every page satisfies [P]. *)
Definition all_ops (P : op -> Prop) (s : state) : Prop :=
  Forall (Forall P) (pages (doc s)).

(** The current page exists. *)
Definition valid_page (s : state) : Prop :=
  (1 <= page (doc s) <= length (pages (doc s)))%nat.

(** The first page is [p0] and the current page is a later one. *)
Definition past_cover (p0 : list op) (s : state) : Prop :=
  pages (doc s) !! 0%nat = Some p0
  /\ (2 <= page (doc s) <= length (pages (doc s)))%nat.

(** Some page holds the operations [l] in a row, among those recorded. *)
Definition has_run (l : list op) (d : jsPDF) : Prop :=
  exists (i : nat) (pre post : list op),
    pages d !! i = Some (pre ++ l ++ post).

Definition is_stamp (o : op) : bool :=
  match o with
  | Header _ | Footer _ => true
  | _ => false
  end.

Lemma all_ops_invariant (P : op -> Prop) :
  (forall o, is_draw o = true -> P o) ->
  (forall head body k, P (Table head body k)) ->
  Invariant (all_ops P) P.
Proof.
  intros Hd Ht. split; try assumption.
  - intros o Ho s H. unfold all_ops, exec in *. simpl.
    destruct (page (doc s)) as [|i]; [exact H|].
    apply Forall_alter; [exact H|].
    intros p _ Hp. apply Forall_app. split; [exact Hp|].
    constructor; [exact Ho | constructor].
  - intros s H. unfold all_ops, exec in *. simpl.
    apply Forall_app. split; [exact H|]. repeat constructor.
  - intros y s H. exact H.
  - intros y s H. exact H.
Qed.

Lemma valid_page_invariant : Invariant valid_page (fun _ => True).
Proof.
  split; try (intros; exact Logic.I).
  - intros o _ s H. unfold valid_page, exec in *. simpl.
    destruct (page (doc s)) as [|i]; [exact H|].
    rewrite length_alter. exact H.
  - intros s H. unfold valid_page, exec in *. simpl.
    rewrite length_app. simpl. lia.
  - intros y s H. exact H.
  - intros y s H. exact H.
Qed.

Lemma past_cover_invariant (p0 : list op) :
  Invariant (past_cover p0) (fun _ => True).
Proof.
  split; try (intros; exact Logic.I).
  - intros o _ s [H0 Hp]. unfold past_cover, exec in *. simpl.
    destruct (page (doc s)) as [|i]; [lia|].
    rewrite length_alter. split; [|exact Hp].
    rewrite list_lookup_alter_ne by lia. exact H0.
  - intros s [H0 Hp]. unfold past_cover, exec in *. simpl.
    rewrite length_app. simpl. split; [|lia].
    apply lookup_app_l_Some. exact H0.
  - intros y s H. exact H.
  - intros y s H. exact H.
Qed.

Lemma has_run_invariant (l : list op) :
  Invariant (fun s => has_run l (doc s)) (fun _ => True).
Proof.
  split; try (intros; exact Logic.I).
  - intros o _ s [i [pre [post H]]]. unfold has_run, exec in *. simpl.
    destruct (page (doc s)) as [|j]; [eauto|].
    destruct (decide (j = i)) as [->|Hne].
    + exists i, pre, (post ++ [o]).
      rewrite list_lookup_alter_eq, H. simpl.
      rewrite <- !app_assoc. reflexivity.
    + exists i, pre, post. rewrite list_lookup_alter_ne by exact Hne.
      exact H.
  - intros s [i [pre [post H]]]. unfold has_run, exec in *. simpl.
    exists i, pre, post. apply lookup_app_l_Some. exact H.
  - intros y s H. exact H.
  - intros y s H. exact H.
Qed.

Lemma stamps_ok_True : stamps_ok (fun _ => True).
Proof. split; intros; exact Logic.I. Qed.

Lemma titles_ok_True titles : titles_ok (fun _ => True) titles.
Proof. intros t _. exact Logic.I. Qed.

(** Drawing on a valid page appends to that page. *)
Lemma emit_appends (o : op) (s : state) :
  valid_page s ->
  exists i p,
    page (doc s) = S i
    /\ pages (doc s) !! i = Some p
    /\ pages (doc (exec (emit o) s)) !! i = Some (p ++ [o])
    /\ page (doc (exec (emit o) s)) = S i.
Proof.
  intros [H1 H2]. unfold exec. simpl.
  destruct (page (doc s)) as [|i] eqn:Ep; [lia|].
  destruct (lookup_lt_is_Some_2 (pages (doc s)) i ltac:(lia)) as [p Hp].
  exists i, p. repeat split; try assumption.
  rewrite list_lookup_alter_eq, Hp. reflexivity.
Qed.

(** [doc.setPage(n)] changes no page. *)
Lemma setPage_pages (n : nat) (s : state) :
  pages (doc (exec (setPage n) s)) = pages (doc s)
  /\ page (doc (exec (setPage n) s)) = n.
Proof. split; reflexivity. Qed.

(** ** The page-break guard *)

Lemma alter_last {A} (f : A -> A) (l : list A) (x : A) :
  alter f (length l) (l ++ [x]) = l ++ [f x].
Proof.
  replace (length l) with (length l + 0)%nat by lia.
  rewrite alter_app_r. reflexivity.
Qed.

(** The state in which [addNewPage] leaves the document: one more page,
    which is the current one and holds the header and the footer, and the
    cursor at the top offset. *)
Definition after_new_page (s : state) (top : number) (header footer : op)
  : state :=
  {| doc := {| pages := pages (doc s) ++ [[header; footer]];
               page := S (length (pages (doc s)));
               lastAutoTable := lastAutoTable (doc s) |};
     yPosition := top |}.

Lemma modern_addNewPage_state E rd (s : state) :
  exec (ModernGenerator.addNewPage E rd) s
  = after_new_page s 18%js
      (Header [lit "Government Tender Analysis";
               formatDate E (report_generated_at (ModernGenerator.meta rd))])
      (Footer [sellerName (ModernGenerator.params rd);
               lit "Page " ++ nat_toString (S (length (pages (doc s))));
               lit "Confidential"]).
Proof.
  unfold exec, ModernGenerator.addNewPage, ModernGenerator.addPageHeader,
    ModernGenerator.addPageFooter, bind, addPage, setY, emit, pageNumber,
    add_op, after_new_page.
  simpl. rewrite alter_last. simpl. rewrite alter_last. reflexivity.
Qed.

Lemma classic_addNewPage_state E rd (s : state) :
  exec (PdfGenerator.addNewPage E rd) s
  = after_new_page s 20%js
      (Header [lit "Government Tender Performance Analysis"])
      (Footer [lit "Generated: "
                 ++ formatDate E (report_generated_at (PdfGenerator.meta rd));
               lit "Page " ++ nat_toString (S (length (pages (doc s))));
               sellerName (PdfGenerator.params rd)]).
Proof.
  unfold exec, PdfGenerator.addNewPage, PdfGenerator.addPageHeader,
    PdfGenerator.addPageFooter, bind, addPage, setY, emit, pageNumber,
    add_op, after_new_page.
  simpl. rewrite alter_last. simpl. rewrite alter_last. reflexivity.
Qed.

(** C2. [checkPageBreak(h)] starts a new page and returns true exactly when
    the cursor plus [h] exceeds the safe bottom, which is the page height
    minus the footer band of 12 and a pad of 5 in the modern generator, and
    the page height minus 25 in [src/utils/pdfGenerator.ts]; otherwise it
    returns false and leaves the state as it is. When it breaks, the
    document has one more page, which is current and carries the header and
    the footer with its page number, and the cursor is at the top offset
    (18, respectively 20). *)
Theorem checkPageBreak_breaks_exactly (E : env)
    (rd : ModernGenerator.ReportData) (rd' : PdfGenerator.ReportData)
    (h : number) (s : state) :
  ModernGenerator.SAFE_BOTTOM E = (pageHeight E - 12 - 5)%js
  /\ ModernGenerator.SAFE_TOP ≈ 18%js
  /\ ModernGenerator.checkPageBreak E rd h s
     = (if (yPosition s + h >? ModernGenerator.SAFE_BOTTOM E)%js
        then (true, exec (ModernGenerator.addNewPage E rd) s)
        else (false, s))
  /\ exec (ModernGenerator.addNewPage E rd) s
     = after_new_page s ModernGenerator.SAFE_TOP
         (Header [lit "Government Tender Analysis";
                  formatDate E
                    (report_generated_at (ModernGenerator.meta rd))])
         (Footer [sellerName (ModernGenerator.params rd);
                  lit "Page " ++ nat_toString (S (length (pages (doc s))));
                  lit "Confidential"])
  /\ PdfGenerator.checkPageBreak E rd' h s
     = (if (yPosition s + h >? pageHeight E - 25)%js
        then (true, exec (PdfGenerator.addNewPage E rd') s)
        else (false, s))
  /\ exec (PdfGenerator.addNewPage E rd') s
     = after_new_page s 20%js
         (Header [lit "Government Tender Performance Analysis"])
         (Footer [lit "Generated: "
                    ++ formatDate E
                         (report_generated_at (PdfGenerator.meta rd'));
                  lit "Page " ++ nat_toString (S (length (pages (doc s))));
                  sellerName (PdfGenerator.params rd')]).
Proof.
  split; [reflexivity|]. split; [reflexivity|]. split; [|split; [|split]].
  - unfold ModernGenerator.checkPageBreak. rewrite bind_run. simpl.
    destruct (_ >? _)%js; [|reflexivity].
    rewrite bind_run. reflexivity.
  - apply modern_addNewPage_state.
  - unfold PdfGenerator.checkPageBreak. rewrite bind_run. simpl.
    destruct (_ >? _)%js; [|reflexivity].
    rewrite bind_run. reflexivity.
  - apply classic_addNewPage_state.
Qed.

(** ** The composition of the sections *)

(** The sections of [src/utils/pdfGenerator.ts] that the selection guards,
    with the titles of the bands each of them draws, and the titles of the
    sections that no identifier guards. *)
Definition classic_guarded : list (string * list string) :=
  [ ("bidsSummary", ["Executive Summary"; "AI-Powered Strategic Insights"]);
    ("marketOverview", ["Overall Market Overview"]);
    ("topPerformer", ["Top Performer Department"]);
    ("missedTenders", ["Missed-but-Winnable Tenders"]);
    ("buyerInsights", ["Buyer / Department Insights"]);
    ("rivalryScore", ["Rivalry Scorecard"]);
    ("lowCompetition", ["Single-Bidder / Low-Competition Opportunities"]);
    ("topStates", ["Top Performing States / Geographies"]) ]%string.

Definition classic_unguarded : list string :=
  [ "Comprehensive AI Intelligence & Recommendations";
    "High-Probability Win Opportunities";
    "Strategic Action Plan & Next Steps";
    "Recent Successful Bids - Detailed List" ]%string.

(** The same for the modern generator, where two sections are guarded. *)
Definition modern_guarded : list (string * list string) :=
  [ ("categoryAnalysis", ["Category Distribution Analysis"]);
    ("bidsSummary", ["Recent Successful Bids - Detailed View"]) ]%string.

Definition modern_unguarded : list string :=
  [ "Performance Overview";
    "Summary of Bids Participated - Department-wise";
    "Overall Market Overview";
    "Top Performer Departments";
    "Missed-but-Winnable Tenders";
    "Buyer / Department Insights";
    "Rivalry Scorecard - Top Sellers";
    "Single-Bidder / Low-Competition Opportunities";
    "Top Performing States / Geographies";
    "Strategic Recommendations" ]%string.

(** From [P] before to [Q] after. *)
Definition hoare {A} (P : state -> Prop) (m : M A) (Q : state -> Prop)
  : Prop :=
  forall s, P s -> Q (exec m s).

Lemma hoare_bind {A B} (P R Q : state -> Prop) (m : M A) (f : A -> M B) :
  hoare P m R -> (forall a, hoare R (f a) Q) -> hoare P (bind m f) Q.
Proof. intros Hm Hf s Hs. rewrite exec_bind. apply Hf, Hm, Hs. Qed.

Lemma hoare_preserves {A} (I : state -> Prop) (m : M A) :
  preserves I m -> hoare I m I.
Proof. intros H. exact H. Qed.

Lemma includes_In (l : list jsstring) (x : jsstring) :
  includes l x = true <-> In x l.
Proof.
  unfold includes. rewrite existsb_exists. split.
  - intros [y [Hy He]]. apply bool_decide_eq_true in He. subst. exact Hy.
  - intros H. exists x. split; [exact H|]. apply bool_decide_eq_true.
    reflexivity.
Qed.

Lemma not_included (l : list jsstring) (x : jsstring) :
  ~ In x l -> includes l x = false.
Proof.
  intros H. destruct (includes l x) eqn:E; [|reflexivity].
  apply includes_In in E. contradiction.
Qed.

Lemma titles_ok_sub (ok : op -> Prop) (l l' : list string) :
  titles_ok ok l -> (forall t, In t l' -> In t l) -> titles_ok ok l'.
Proof. intros H Hsub t Ht. apply H, Hsub, Ht. Qed.

Ltac in_table := simpl; repeat first [left; reflexivity | right].

(** Splitting a sequence of statements, without unfolding any of them. *)
Ltac split_sequence :=
  repeat lazymatch goal with
         | |- preserves _ (bind _ _) => apply preserves_bind; [|intros _]
         end.

Section ClassicComposition.
Context (E : env) (rd : PdfGenerator.ReportData) (filters : FilterOptions).
Context {P Q J : state -> Prop} {ok : op -> Prop}.
Context (HJ : Invariant J ok) (HS : stamps_ok ok).
Context (Henter : forall s, Q s -> J (exec (PdfGenerator.addNewPage E rd) s)).
Context (Hleave : forall s, J s -> Q s).
Context (HG : forall id titles,
            In (id, titles) classic_guarded ->
            PdfGenerator.selected filters id = true ->
            titles_ok ok titles).
Context (HU : titles_ok ok classic_unguarded).

Lemma classic_enter (sec : M unit) :
  preserves J sec ->
  preserves Q (bind (PdfGenerator.addNewPage E rd) (fun _ => sec)).
Proof.
  intros Hsec s Hs. rewrite exec_bind. apply Hleave, Hsec, Henter, Hs.
Qed.

Lemma classic_guarded_section (id : string) (titles : list string)
    (sec : M unit) :
  In (id, titles) classic_guarded ->
  (titles_ok ok titles -> preserves J sec) ->
  preserves Q (when (PdfGenerator.selected filters id)
                 (bind (PdfGenerator.addNewPage E rd) (fun _ => sec))).
Proof.
  intros Hin Hsec. destruct (PdfGenerator.selected filters id) eqn:Hsel.
  - apply classic_enter, Hsec, (HG _ _ Hin Hsel).
  - apply preserves_ret.
Qed.

(** The sections keep [Q] once the first of them has brought it about. *)
Lemma classic_sections_keep :
  hoare P (when (PdfGenerator.selected filters "bidsSummary")
             (bind (PdfGenerator.addNewPage E rd)
                (fun _ => PdfGenerator.bidsSummary E rd))) Q ->
  hoare P (PdfGenerator.sections E rd filters) Q.
Proof.
  intros Hfirst. unfold PdfGenerator.sections.
  eapply hoare_bind; [exact Hfirst|]. intros _.
  apply hoare_preserves.
  split_sequence.
  - eapply classic_guarded_section; [in_table|].
    intros HT. apply (classic_marketOverview _ _ HJ HS HT).
  - eapply classic_guarded_section; [in_table|].
    intros HT. apply (classic_topPerformer _ _ HJ HS HT).
  - eapply classic_guarded_section; [in_table|].
    intros HT. apply (classic_missedTenders _ _ HJ HS HT).
  - destruct (opt_bind _ _) as [aiData|]; [|apply preserves_ret].
    apply classic_enter, (classic_aiInsights _ _ HJ HS).
    eapply titles_ok_sub; [exact HU | simpl; tauto].
  - eapply classic_guarded_section; [in_table|].
    intros HT. apply (classic_buyerInsights _ _ HJ HS HT).
  - eapply classic_guarded_section; [in_table|].
    intros HT. apply (classic_rivalryScore _ _ HJ HS HT).
  - eapply classic_guarded_section; [in_table|].
    intros HT. apply (classic_lowCompetition _ _ HJ HS HT).
  - eapply classic_guarded_section; [in_table|].
    intros HT. apply (classic_topStatesSection _ _ HJ HS HT).
  - apply preserves_when, classic_enter, (classic_recentBids _ _ HJ HS).
    eapply titles_ok_sub; [exact HU | simpl; tauto].
Qed.

End ClassicComposition.

Section ModernComposition.
Context (E : env) (rd : ModernGenerator.ReportData) (filters : FilterOptions).
Context {P Q : state -> Prop} {ok : op -> Prop}.
Context (HQ : Invariant Q ok) (HS : stamps_ok ok).
Context (HG : forall id titles,
            In (id, titles) modern_guarded ->
            ModernGenerator.selected filters id = true ->
            titles_ok ok titles).
Context (HU : titles_ok ok modern_unguarded).

Ltac unguarded := eapply titles_ok_sub; [exact HU | simpl; tauto].

(** The sections keep [Q] once the performance overview has brought it
    about. *)
Lemma modern_sections_keep :
  hoare P (ModernGenerator.performanceOverview E rd) Q ->
  hoare P (ModernGenerator.sections E rd filters) Q.
Proof.
  intros Hfirst. unfold ModernGenerator.sections.
  eapply hoare_bind; [exact Hfirst|]. intros _.
  apply hoare_preserves.
  split_sequence.
  - apply (modern_addNewPage _ _ HQ HS).
  - apply (modern_departmentSummary _ _ HQ HS). unguarded.
  - apply (modern_marketOverview _ _ HQ HS). unguarded.
  - apply (modern_topPerformer _ _ HQ HS). unguarded.
  - apply (modern_addNewPage _ _ HQ HS).
  - apply (modern_missedTenders _ _ HQ HS). unguarded.
  - apply (modern_buyerInsights _ _ HQ HS). unguarded.
  - apply (modern_rivalryScorecard _ _ HQ HS). unguarded.
  - apply (modern_addNewPage _ _ HQ HS).
  - apply (modern_lowCompetition _ _ HQ HS). unguarded.
  - apply (modern_topStates _ _ HQ HS). unguarded.
  - destruct (ModernGenerator.selected filters "categoryAnalysis") eqn:Hsel;
      [|apply preserves_ret].
    apply preserves_bind; [apply (modern_addNewPage _ _ HQ HS)|]. intros _.
    apply (modern_categoryDistribution _ _ HQ HS).
    apply (HG "categoryAnalysis"%string); [in_table | exact Hsel].
  - destruct (ModernGenerator.selected filters "bidsSummary") eqn:Hsel;
      [|apply preserves_ret].
    apply preserves_when.
    apply (modern_recentBids _ _ HQ HS).
    apply (HG "bidsSummary"%string); [in_table | exact Hsel].
  - destruct (opt_bind _ _) as [recs|]; [|apply preserves_ret].
    apply (modern_recommendationsSection _ _ HQ HS). unguarded.
  - apply (modern_disclaimer _ _ HQ HS).
Qed.

End ModernComposition.

(** ** Sample inputs *)

Definition bid_of (price : number) : Bid :=
  {| bid_number := Some (lit "GEM/2025/B/1");
     org := Some (lit "Indian Army");
     dept := Some (lit "Department of Military Affairs");
     organisation := Some (lit "Indian Army");
     quantity := Some 10%Z;
     total_price := Some price;
     ended_at := Some (lit "2025-01-15");
     created_at := None;
     price_hint := None;
     confidence := None;
     bidders_count := None;
     seller_count := Some (lit "1");
     bid_end_ts := None |}.

Definition sample_meta : Meta :=
  {| report_generated_at := lit "2025-02-01";
     params_used := {| sellerName := lit "Acme Traders";
                       department := lit "Ministry of Defence";
                       offeredItem := lit "Safety shoes";
                       days := 30%js |} |}.

(** Three wins of 100,000 each and one market win. *)
Definition sample_wins : MissedButWinnable :=
  {| recentWins := Some [bid_of 100000%js; bid_of 100000%js; bid_of 100000%js];
     marketWins := Some [bid_of 50000%js];
     ai := None |}.

(** Two wins, of 1 and of 2. *)
Definition odd_wins : MissedButWinnable :=
  {| recentWins := Some [bid_of 1%js; bid_of 2%js];
     marketWins := Some [];
     ai := None |}.

Definition classic_report (m : MissedButWinnable) : PdfGenerator.ReportData :=
  {| PdfGenerator.meta := sample_meta;
     PdfGenerator.data :=
       {| PdfGenerator.priceBand := None;
          PdfGenerator.topPerformingStates := None;
          PdfGenerator.topSellersByDept := None;
          PdfGenerator.lowCompetitionBids := None;
          PdfGenerator.missedButWinnable := Some m |} |}.

Definition modern_report (m : MissedButWinnable)
  : ModernGenerator.ReportData :=
  {| ModernGenerator.meta := sample_meta;
     ModernGenerator.data :=
       {| ModernGenerator.allDepartments := None;
          ModernGenerator.categoryListing := None;
          ModernGenerator.topPerformingStates := None;
          ModernGenerator.topSellersByDept := None;
          ModernGenerator.lowCompetitionBids := None;
          ModernGenerator.missedButWinnable := Some m |} |}.

Definition only_bidsSummary : FilterOptions :=
  {| includeSections := [lit "bidsSummary"] |}.

(** ** The first page *)

(** What [coverPage] draws on the first page. *)
Definition classic_cover (E : env) (rd : PdfGenerator.ReportData) : list op :=
  hd [] (pages (doc (exec (PdfGenerator.coverPage E rd) PdfGenerator.initial))).

Definition modern_cover (E : env) (rd : ModernGenerator.ReportData)
  : list op :=
  hd [] (pages (doc (exec (ModernGenerator.coverPage E rd)
                       ModernGenerator.initial))).

(** The reading of the specification: no header and no footer on the first
    page. *)
Definition first_page_unstamped (d : jsPDF) : Prop :=
  Forall (fun o => is_stamp o = false) (hd [] (pages d)).

Lemma no_stamp_invariant :
  Invariant (all_ops (fun o => is_stamp o = false))
    (fun o => is_stamp o = false).
Proof.
  apply all_ops_invariant.
  - intros o Ho. destruct o; try discriminate; reflexivity.
  - reflexivity.
Qed.

Lemma first_page_hd (s : state) :
  valid_page s -> pages (doc s) !! 0%nat = Some (hd [] (pages (doc s))).
Proof.
  intros [H1 H2]. destruct (pages (doc s)); [simpl in H2; lia | reflexivity].
Qed.

Lemma all_ops_hd (P : op -> Prop) (s : state) :
  all_ops P s -> Forall P (hd [] (pages (doc s))).
Proof.
  unfold all_ops. intros H. destruct H; [constructor | assumption].
Qed.

Lemma initial_valid (y : number) :
  valid_page {| doc := new_jsPDF; yPosition := y |}.
Proof. unfold valid_page. simpl. lia. Qed.

Lemma initial_all_ops (P : op -> Prop) (y : number) :
  all_ops P {| doc := new_jsPDF; yPosition := y |}.
Proof. repeat constructor. Qed.

Lemma enter_past_cover (p0 : list op) (s : state) top header footer :
  pages (doc s) !! 0%nat = Some p0 ->
  past_cover p0 (after_new_page s top header footer).
Proof.
  intros H. unfold past_cover, after_new_page. simpl.
  pose proof (lookup_lt_Some _ _ _ H) as Hlen.
  rewrite length_app. simpl. split; [|lia].
  apply lookup_app_l_Some. exact H.
Qed.

Lemma classic_first_page E rd filters :
  Forall (fun o => is_stamp o = false) (classic_cover E rd)
  /\ pages (PdfGenerator.document E rd filters) !! 0%nat
     = Some (classic_cover E rd
               ++ [Footer [lit "Generated: "
                             ++ formatDate E
                                  (report_generated_at (PdfGenerator.meta rd));
                           lit "Page 1";
                           sellerName (PdfGenerator.params rd)]]).
Proof.
  set (s0 := exec (PdfGenerator.coverPage E rd) PdfGenerator.initial).
  assert (Hv : valid_page s0).
  { apply (classic_coverPage E rd valid_page_invariant), initial_valid. }
  assert (Hn : all_ops (fun o => is_stamp o = false) s0).
  { apply (classic_coverPage E rd no_stamp_invariant), initial_all_ops. }
  split; [apply all_ops_hd, Hn|].
  pose proof (first_page_hd s0 Hv) as H0.
  change (hd [] (pages (doc s0))) with (classic_cover E rd) in H0.
  unfold PdfGenerator.document, PdfGenerator.generatePDF.
  rewrite exec_bind. fold s0. rewrite exec_bind.
  assert (Hk : hoare
      (fun s => pages (doc s) !! 0%nat = Some (classic_cover E rd))
      (PdfGenerator.sections E rd filters)
      (fun s => pages (doc s) !! 0%nat = Some (classic_cover E rd))).
  { apply (classic_sections_keep E rd filters
             (past_cover_invariant (classic_cover E rd)) stamps_ok_True).
    - intros s Hs. rewrite classic_addNewPage_state.
      apply enter_past_cover, Hs.
    - intros s [Hs _]. exact Hs.
    - intros id titles _ _. apply titles_ok_True.
    - apply titles_ok_True.
    - apply hoare_preserves.
      eapply classic_guarded_section;
        [ intros s Hs; rewrite classic_addNewPage_state;
          apply enter_past_cover, Hs
        | intros s [Hs _]; exact Hs
        | intros id titles _ _; apply titles_ok_True
        | in_table
        | intros HT;
          apply (classic_bidsSummary _ _
                   (past_cover_invariant (classic_cover E rd))
                   stamps_ok_True HT) ]. }
  pose proof (Hk s0 H0) as H1.
  set (s1 := exec (PdfGenerator.sections E rd filters) s0) in *.
  cbv beta in *. rewrite exec_bind.
  unfold exec, PdfGenerator.addPageFooter, setPage, bind, pageNumber, emit,
    add_op. simpl.
  destruct (pages (doc s1)) as [|p ps]; [discriminate|].
  simpl in H1. injection H1 as ->. reflexivity.
Qed.

Lemma modern_first_page E rd filters :
  Forall (fun o => is_stamp o = false) (modern_cover E rd)
  /\ pages (ModernGenerator.document E rd filters) !! 0%nat
     = Some (modern_cover E rd).
Proof.
  set (s0 := exec (ModernGenerator.coverPage E rd) ModernGenerator.initial).
  assert (Hv : valid_page s0).
  { apply (modern_coverPage E rd valid_page_invariant), initial_valid. }
  assert (Hn : all_ops (fun o => is_stamp o = false) s0).
  { apply (modern_coverPage E rd no_stamp_invariant), initial_all_ops. }
  split; [apply all_ops_hd, Hn|].
  pose proof (first_page_hd s0 Hv) as H0.
  change (hd [] (pages (doc s0))) with (modern_cover E rd) in H0.
  unfold ModernGenerator.document, ModernGenerator.generatePDF.
  rewrite exec_bind. fold s0. rewrite exec_bind. cbv beta.
  assert (H1 : past_cover (modern_cover E rd)
                 (exec (ModernGenerator.addNewPage E rd) s0)).
  { rewrite modern_addNewPage_state. apply enter_past_cover, H0. }
  assert (Hk : hoare (past_cover (modern_cover E rd))
                 (ModernGenerator.sections E rd filters)
                 (past_cover (modern_cover E rd))).
  { apply (modern_sections_keep E rd filters
             (past_cover_invariant (modern_cover E rd)) stamps_ok_True).
    - intros id titles _ _. apply titles_ok_True.
    - apply titles_ok_True.
    - apply hoare_preserves.
      apply (modern_performanceOverview _ _
               (past_cover_invariant (modern_cover E rd)) stamps_ok_True).
      apply titles_ok_True. }
  apply (Hk _ H1).
Qed.

(** C8, as the code has it. In both generators the cover drawing holds no
    header and no footer, and no header is ever stamped on the first page.
    In the modern generator the first page of the finished document is
    exactly that drawing. In [src/utils/pdfGenerator.ts] the last statements
    go back to page 1 and add the footer: the first page of the finished
    document is the cover drawing followed by one footer, with the generation
    date, Page 1 and the seller name. *)
Theorem first_page_stamps (E : env) (rd : ModernGenerator.ReportData)
    (rd' : PdfGenerator.ReportData) (filters : FilterOptions) :
  Forall (fun o => is_stamp o = false) (modern_cover E rd)
  /\ pages (ModernGenerator.document E rd filters) !! 0%nat
     = Some (modern_cover E rd)
  /\ Forall (fun o => is_stamp o = false) (classic_cover E rd')
  /\ pages (PdfGenerator.document E rd' filters) !! 0%nat
     = Some (classic_cover E rd'
               ++ [Footer [lit "Generated: "
                             ++ formatDate E
                                  (report_generated_at (PdfGenerator.meta rd'));
                           lit "Page 1";
                           sellerName (PdfGenerator.params rd')]]).
Proof.
  destruct (modern_first_page E rd filters) as [H1 H2].
  destruct (classic_first_page E rd' filters) as [H3 H4].
  repeat split; assumption.
Qed.

(** C8 as stated fails on [src/utils/pdfGenerator.ts]: the first page of
    the sample report carries a footer. *)
Lemma first_page_footer_counterexample :
  ~ first_page_unstamped
      (PdfGenerator.document sample_env (classic_report sample_wins)
         only_bidsSummary).
Proof.
  intros H.
  assert (He : existsb is_stamp
                 (hd [] (pages (PdfGenerator.document sample_env
                                  (classic_report sample_wins)
                                  only_bidsSummary))) = true)
    by (vm_compute; reflexivity).
  apply existsb_exists in He. destruct He as [o [Hin Ho]].
  unfold first_page_unstamped in H.
  rewrite Forall_forall in H. apply list_elem_of_In in Hin.
  rewrite (H o Hin) in Ho. discriminate.
Qed.

(** ** Sections and the selection *)

(** No band with this title anywhere in the document. *)
Definition no_section_band (title : string) (d : jsPDF) : Prop :=
  forall p, In p (pages d) -> ~ In (SectionBand (lit title)) p.

(** The reading of the specification for the rivalry scorecard of the
    modern generator: without its identifier in the selection, no band of
    that section. *)
Definition rivalry_suppressed (E : env) (rd : ModernGenerator.ReportData)
    (filters : FilterOptions) : Prop :=
  ~ In (lit "rivalryScore") (includeSections filters) ->
  no_section_band "Rivalry Scorecard - Top Sellers"
    (ModernGenerator.document E rd filters).

Ltac split_in H :=
  simpl in H;
  repeat match type of H with
         | _ \/ _ => destruct H as [H | H]
         end;
  try contradiction.

Ltac lit_differ :=
  let H := fresh in
  intros H; vm_compute in H; discriminate H.

Lemma classic_titles_disjoint id titles id' titles' t t' :
  In (id, titles) classic_guarded -> In t titles ->
  In (id', titles') classic_guarded -> In t' titles' ->
  id <> id' -> lit t' <> lit t.
Proof.
  intros Hin Ht Hin' Ht' Hne.
  split_in Hin; injection Hin as <- <-; split_in Ht; subst t;
    split_in Hin'; injection Hin' as <- <-; split_in Ht'; subst t';
    try (exfalso; apply Hne; reflexivity); lit_differ.
Qed.

Lemma classic_unguarded_disjoint id titles t t' :
  In (id, titles) classic_guarded -> In t titles ->
  In t' classic_unguarded -> lit t' <> lit t.
Proof.
  intros Hin Ht Ht'.
  split_in Hin; injection Hin as <- <-; split_in Ht; subst t;
    split_in Ht'; subst t'; lit_differ.
Qed.

Lemma modern_titles_disjoint id titles id' titles' t t' :
  In (id, titles) modern_guarded -> In t titles ->
  In (id', titles') modern_guarded -> In t' titles' ->
  id <> id' -> lit t' <> lit t.
Proof.
  intros Hin Ht Hin' Ht' Hne.
  split_in Hin; injection Hin as <- <-; split_in Ht; subst t;
    split_in Hin'; injection Hin' as <- <-; split_in Ht'; subst t';
    try (exfalso; apply Hne; reflexivity); lit_differ.
Qed.

Lemma modern_unguarded_disjoint id titles t t' :
  In (id, titles) modern_guarded -> In t titles ->
  In t' modern_unguarded -> lit t' <> lit t.
Proof.
  intros Hin Ht Ht'.
  split_in Hin; injection Hin as <- <-; split_in Ht; subst t;
    split_in Ht'; subst t'; lit_differ.
Qed.

Lemma other_band_invariant (title : string) :
  Invariant (all_ops (fun o => o <> SectionBand (lit title)))
    (fun o => o <> SectionBand (lit title)).
Proof.
  apply all_ops_invariant.
  - intros o Ho. destruct o; try discriminate Ho; discriminate.
  - discriminate.
Qed.

Lemma other_band_stamps (title : string) :
  stamps_ok (fun o => o <> SectionBand (lit title)).
Proof. split; discriminate. Qed.

Lemma all_ops_no_band (title : string) (s : state) :
  all_ops (fun o => o <> SectionBand (lit title)) s ->
  no_section_band title (doc s).
Proof.
  unfold all_ops, no_section_band. intros H p Hp Hin.
  rewrite Forall_forall in H. apply list_elem_of_In in Hp.
  specialize (H p Hp). rewrite Forall_forall in H.
  apply list_elem_of_In in Hin. exact (H _ Hin eq_refl).
Qed.

Lemma setPage_all_ops (P : op -> Prop) (n : nat) :
  preserves (all_ops P) (setPage n).
Proof. intros s H. exact H. Qed.

Lemma classic_guarded_suppressed E rd filters id titles title :
  In (id, titles) classic_guarded -> In title titles ->
  ~ In (lit id) (includeSections filters) ->
  no_section_band title (PdfGenerator.document E rd filters).
Proof.
  intros Hin Ht Hsel. apply not_included in Hsel.
  fold (PdfGenerator.selected filters id) in Hsel.
  set (ok := fun o => o <> SectionBand (lit title)).
  pose proof (other_band_invariant title) as HI.
  pose proof (other_band_stamps title) as HS.
  assert (HG : forall id' titles',
             In (id', titles') classic_guarded ->
             PdfGenerator.selected filters id' = true ->
             titles_ok ok titles').
  { intros id' titles' Hin' Hsel' t' Ht' Heq. injection Heq as Heq.
    revert Heq.
    apply (classic_titles_disjoint id titles id' titles' title t'
             Hin Ht Hin' Ht').
    intros ->. congruence. }
  assert (HU : titles_ok ok classic_unguarded).
  { intros t' Ht' Heq. injection Heq as Heq.
    revert Heq.
    apply (classic_unguarded_disjoint id titles title t' Hin Ht Ht'). }
  apply all_ops_no_band.
  cut (preserves (all_ops ok) (PdfGenerator.generatePDF E rd filters));
    [intros H; apply H, initial_all_ops|].
  unfold PdfGenerator.generatePDF.
  apply preserves_bind; [apply (classic_coverPage E rd HI)|]. intros _.
  apply preserves_bind.
  { apply (classic_sections_keep E rd filters HI HS).
    - apply (classic_addNewPage E rd HI HS).
    - intros s Hs. exact Hs.
    - exact HG.
    - exact HU.
    - apply hoare_preserves.
      eapply classic_guarded_section;
        [ apply (classic_addNewPage E rd HI HS)
        | intros s Hs; exact Hs
        | exact HG
        | in_table
        | intros HT; apply (classic_bidsSummary _ _ HI HS HT) ]. }
  intros _. apply preserves_bind; [apply setPage_all_ops|]. intros _.
  apply (classic_addPageFooter E rd HI HS).
Qed.

Lemma modern_guarded_suppressed E rd filters id titles title :
  In (id, titles) modern_guarded -> In title titles ->
  ~ In (lit id) (includeSections filters) ->
  no_section_band title (ModernGenerator.document E rd filters).
Proof.
  intros Hin Ht Hsel. apply not_included in Hsel.
  fold (ModernGenerator.selected filters id) in Hsel.
  set (ok := fun o => o <> SectionBand (lit title)).
  pose proof (other_band_invariant title) as HI.
  pose proof (other_band_stamps title) as HS.
  assert (HG : forall id' titles',
             In (id', titles') modern_guarded ->
             ModernGenerator.selected filters id' = true ->
             titles_ok ok titles').
  { intros id' titles' Hin' Hsel' t' Ht' Heq. injection Heq as Heq.
    revert Heq.
    apply (modern_titles_disjoint id titles id' titles' title t'
             Hin Ht Hin' Ht').
    intros ->. congruence. }
  assert (HU : titles_ok ok modern_unguarded).
  { intros t' Ht' Heq. injection Heq as Heq.
    revert Heq.
    apply (modern_unguarded_disjoint id titles title t' Hin Ht Ht'). }
  apply all_ops_no_band.
  cut (preserves (all_ops ok) (ModernGenerator.generatePDF E rd filters));
    [intros H; apply H, initial_all_ops|].
  unfold ModernGenerator.generatePDF.
  apply preserves_bind; [apply (modern_coverPage E rd HI)|]. intros _.
  apply preserves_bind; [apply (modern_addNewPage E rd HI HS)|]. intros _.
  apply (modern_sections_keep E rd filters HI HS HG HU).
  apply hoare_preserves, (modern_performanceOverview _ _ HI HS).
  eapply titles_ok_sub; [exact HU | simpl; tauto].
Qed.

(** *** What is drawn stays drawn *)

Lemma emit_run (o : op) :
  hoare valid_page (emit o) (fun s => has_run [o] (doc s)).
Proof.
  intros s Hs. destruct (emit_appends o s Hs) as [i [p [_ [_ [H _]]]]].
  exists i, p, []. rewrite app_nil_r. exact H.
Qed.

(** One statement of a sequence that keeps the invariant [HI]. *)
Ltac keep HI :=
  eapply hoare_bind;
  [ apply hoare_preserves; layout HI stamps_ok_True | intros ? ].

(** The rest of a sequence keeps the invariant [HI]. *)
Ltac keep_all HI := apply hoare_preserves; layout HI stamps_ok_True.

Definition rivalry_band : op :=
  SectionBand (lit "Rivalry Scorecard - Top Sellers").

Lemma modern_rivalry_drawn E rd :
  hoare valid_page (ModernGenerator.rivalryScorecard E rd)
    (fun s => has_run [rivalry_band] (doc s)).
Proof.
  unfold ModernGenerator.rivalryScorecard.
  keep valid_page_invariant.
  unfold ModernGenerator.addSectionHeader.
  eapply hoare_bind.
  { keep valid_page_invariant.
    eapply hoare_bind; [apply emit_run|]. intros _.
    keep_all (has_run_invariant [rivalry_band]). }
  intros _. keep_all (has_run_invariant [rivalry_band]).
Qed.

Lemma modern_rivalry_always E rd filters :
  has_run [rivalry_band] (ModernGenerator.document E rd filters).
Proof.
  cut (hoare valid_page (ModernGenerator.generatePDF E rd filters)
         (fun s => has_run [rivalry_band] (doc s))).
  { intros H. apply H, initial_valid. }
  unfold ModernGenerator.generatePDF.
  keep valid_page_invariant. keep valid_page_invariant.
  unfold ModernGenerator.sections.
  do 8 keep valid_page_invariant.
  eapply hoare_bind; [apply modern_rivalry_drawn|]. intros _.
  keep_all (has_run_invariant [rivalry_band]).
Qed.

Lemma has_run_in (o : op) (d : jsPDF) :
  has_run [o] d -> exists p, In p (pages d) /\ In o p.
Proof.
  intros [i [pre [post H]]]. exists (pre ++ [o] ++ post). split.
  - apply list_elem_of_In. eapply list_elem_of_lookup_2. exact H.
  - apply in_or_app. right. left. reflexivity.
Qed.




(** ** The headline figures *)

(** The current page ends with the operations [l]. *)
Definition page_ends_with (l : list op) (s : state) : Prop :=
  exists (i : nat) (pre : list op),
    page (doc s) = S i /\ pages (doc s) !! i = Some (pre ++ l).

Lemma page_ends_with_nil (s : state) : valid_page s -> page_ends_with [] s.
Proof.
  intros [H1 H2]. destruct (page (doc s)) as [|i] eqn:Ep; [lia|].
  destruct (lookup_lt_is_Some_2 (pages (doc s)) i ltac:(lia)) as [p Hp].
  exists i, p. rewrite app_nil_r. split; [exact Ep | exact Hp].
Qed.

Lemma emit_extends (l : list op) (o : op) :
  hoare (page_ends_with l) (emit o) (page_ends_with (l ++ [o])).
Proof.
  intros s [i [pre [Hi Hp]]]. exists i, pre. unfold exec. simpl.
  rewrite Hi. split; [reflexivity|].
  rewrite list_lookup_alter_eq, Hp. simpl. rewrite <- app_assoc. reflexivity.
Qed.

Lemma advance_keeps (l : list op) (dy : number) :
  hoare (page_ends_with l) (advance dy) (page_ends_with l).
Proof. intros s H. exact H. Qed.

Lemma page_ends_with_run (l post : list op) (s : state) :
  page_ends_with (l ++ post) s -> has_run l (doc s).
Proof. intros [i [pre [_ H]]]. exists i, pre, post. exact H. Qed.

(** A sequence of calls of [doc.text] and changes of [yPosition]. *)
Ltac texts :=
  repeat first
    [ eapply hoare_bind; [apply emit_extends | intros _]
    | eapply hoare_bind; [apply advance_keeps | intros _]
    | apply advance_keeps
    | apply emit_extends ].

(** The cards of the modern generator: the value above its label. *)
Definition modern_cards (rd : ModernGenerator.ReportData) : list op :=
  map Text
    [ toFixed (ModernGenerator.winRate rd) 1 ++ lit "%"; lit "Win Rate";
      nat_toString (ModernGenerator.totalBids rd); lit "Total Bids";
      nat_toString (ModernGenerator.successCount rd);
      lit "Successful Wins" ].

(** The boxes of the classic generator: the label above its value. *)
Definition classic_cards (rd : PdfGenerator.ReportData) : list op :=
  map Text
    [ lit "Win Rate"; PdfGenerator.winRate rd ++ lit "%";
      lit "Total Bids"; nat_toString (PdfGenerator.totalBids rd);
      lit "Success Count"; nat_toString (PdfGenerator.successCount rd) ].

(** The table of the detailed performance metrics, on its first page. *)
Definition classic_metrics (rd : PdfGenerator.ReportData) : op :=
  Table [lit "Metric"; lit "Value"; lit "Category"]
    (PdfGenerator.performanceMetrics rd) 1.

Lemma modern_kpiCards_run rd :
  hoare valid_page (ModernGenerator.kpiCards rd)
    (fun s => has_run (modern_cards rd) (doc s)).
Proof.
  intros s Hs. apply page_ends_with_nil in Hs.
  apply (page_ends_with_run _
           [Text (ModernGenerator.formatCurrency
                    (ModernGenerator.totalValue rd));
            Text (lit "Total Value")]).
  revert s Hs. change (hoare (page_ends_with []) (ModernGenerator.kpiCards rd)
    (page_ends_with (modern_cards rd ++
           [Text (ModernGenerator.formatCurrency
                    (ModernGenerator.totalValue rd));
            Text (lit "Total Value")]))).
  unfold ModernGenerator.kpiCards, text. texts.
Qed.

Lemma classic_kpiCards_run rd :
  hoare valid_page (PdfGenerator.kpiCards rd)
    (fun s => has_run (classic_cards rd) (doc s)).
Proof.
  intros s Hs. apply page_ends_with_nil in Hs.
  apply (page_ends_with_run _ []). rewrite app_nil_r.
  revert s Hs. change (hoare (page_ends_with []) (PdfGenerator.kpiCards rd)
    (page_ends_with (classic_cards rd))).
  unfold PdfGenerator.kpiCards, text. texts.
Qed.

Lemma plainTable_run E head body :
  hoare valid_page (PdfGenerator.plainTable E head body)
    (fun s => has_run [Table head body 1] (doc s)).
Proof.
  unfold PdfGenerator.plainTable, autoTable. keep valid_page_invariant.
  destruct (tableLayout E a head body) as [extra finalY].
  eapply hoare_bind;
    [|intros _; keep_all (has_run_invariant [Table head body 1])].
  change (seq 1 (S extra)) with (1%nat :: seq 2 extra).
  change (forEach (1%nat :: seq 2 extra) ?f)
    with (bind (f 1%nat) (fun _ => forEach (seq 2 extra) f)).
  cbv beta.
  eapply hoare_bind;
    [|intros _; keep_all (has_run_invariant [Table head body 1])].
  keep valid_page_invariant.
  eapply hoare_bind; [apply emit_run|]. intros _.
  keep_all (has_run_invariant [Table head body 1]).
Qed.

Lemma modern_cards_drawn E rd filters :
  has_run (modern_cards rd) (ModernGenerator.document E rd filters).
Proof.
  cut (hoare valid_page (ModernGenerator.generatePDF E rd filters)
         (fun s => has_run (modern_cards rd) (doc s))).
  { intros H. apply H, initial_valid. }
  unfold ModernGenerator.generatePDF.
  keep valid_page_invariant. keep valid_page_invariant.
  unfold ModernGenerator.sections.
  eapply hoare_bind;
    [|intros _; keep_all (has_run_invariant (modern_cards rd))].
  unfold ModernGenerator.performanceOverview.
  keep valid_page_invariant.
  eapply hoare_bind; [apply modern_kpiCards_run|]. intros _.
  keep_all (has_run_invariant (modern_cards rd)).
Qed.

(** What the executive summary draws is in the document when the selection
    has bidsSummary. *)
Lemma classic_bidsSummary_drawn E rd filters (l : list op) :
  hoare valid_page (PdfGenerator.bidsSummary E rd)
    (fun s => has_run l (doc s)) ->
  In (lit "bidsSummary") (includeSections filters) ->
  has_run l (PdfGenerator.document E rd filters).
Proof.
  intros Hdraw Hsel.
  cut (hoare valid_page (PdfGenerator.generatePDF E rd filters)
         (fun s => has_run l (doc s))).
  { intros H. apply H, initial_valid. }
  unfold PdfGenerator.generatePDF.
  keep valid_page_invariant.
  eapply hoare_bind.
  - unfold PdfGenerator.sections.
    eapply hoare_bind; [|intros _; keep_all (has_run_invariant l)].
    unfold PdfGenerator.selected.
    rewrite (proj2 (includes_In _ _) Hsel). unfold when.
    keep valid_page_invariant. exact Hdraw.
  - intros _.
    eapply (hoare_bind _ (fun s => has_run l (doc s)));
      [intros s H; exact H|].
    intros _.
    keep_all (has_run_invariant l).
Qed.

Lemma classic_cards_drawn E rd :
  hoare valid_page (PdfGenerator.bidsSummary E rd)
    (fun s => has_run (classic_cards rd) (doc s)).
Proof.
  unfold PdfGenerator.bidsSummary.
  do 3 keep valid_page_invariant.
  eapply hoare_bind; [apply classic_kpiCards_run|]. intros _.
  keep_all (has_run_invariant (classic_cards rd)).
Qed.

Lemma classic_metrics_drawn E rd :
  hoare valid_page (PdfGenerator.bidsSummary E rd)
    (fun s => has_run [classic_metrics rd] (doc s)).
Proof.
  unfold PdfGenerator.bidsSummary.
  do 13 keep valid_page_invariant.
  eapply hoare_bind; [apply plainTable_run|]. intros _.
  keep_all (has_run_invariant [classic_metrics rd]).
Qed.

(** *** The figures as functions of the two lists *)

Lemma or_num_fin (q : Q) : exists t, or_num (Some (Fin q)) 0%js = Fin t /\ t == q.
Proof.
  unfold or_num, truthy. destruct (Qeq_bool q 0) eqn:Eq; simpl.
  - exists 0%Q. split; [reflexivity|]. apply Qeq_bool_iff in Eq.
    symmetry. exact Eq.
  - exists q. split; reflexivity.
Qed.

Lemma fold_total_price (ws : list Bid) (qs : list Q) (a : Q) :
  map total_price ws = map (fun q => Some (Fin q)) qs ->
  exists t,
    fold_left (fun sum w => (sum + or_num (total_price w) 0)%js) ws (Fin a)
    = Fin t
    /\ t == a + Qsum qs.
Proof.
  revert qs a. induction ws as [|w r IH]; intros [|q qs] a H;
    try discriminate H.
  - exists a. split; [reflexivity|]. simpl. ring.
  - injection H as Hw Hr. simpl fold_left. rewrite Hw.
    destruct (or_num_fin q) as [t [-> Ht]].
    destruct (IH qs (a + t)%Q Hr) as [u [Hu Hq]].
    exists u. split; [exact Hu|]. rewrite Hq, Ht.
    change (Qsum (q :: qs)) with (q + Qsum qs)%Q. ring.
Qed.

Lemma sum_total_price_fin (ws : list Bid) (qs : list Q) :
  map total_price ws = map (fun q => Some (Fin q)) qs ->
  exists t, sum_total_price ws = Fin t /\ t == Qsum qs.
Proof.
  intros H. destruct (fold_total_price ws qs 0 H) as [t [Ht Hq]].
  exists t. split; [exact Ht|]. rewrite Hq. ring.
Qed.

Lemma of_nat_nonzero (n : nat) : (0 < n)%nat -> ~ inject_Z (Z.of_nat n) == 0.
Proof.
  intros H He. unfold Qeq in He. simpl in He. lia.
Qed.

(** The average order value as the specification words it: the quotient,
    not rounded. *)
Definition quotient_avgValue (rd : ModernGenerator.ReportData) : number :=
  if (0 <? ModernGenerator.successCount rd)%nat
  then (ModernGenerator.totalValue rd
        / of_nat (ModernGenerator.successCount rd))%js
  else 0%js.




(** * Beyond the generators' headline behaviour *)

(** ** The report form: the caller of [generatePDF] *)

(** The selection of sections in the [GenerateReport] page, whose
    [selectedFilters] state is what [handleSubmit] passes to [generatePDF]
    as [includeSections]. *)
Module GenerateReport.

Record FilterSection : Type := {
  id : string;
  label : string;
  default : bool
}.

Definition FILTER_SECTIONS : list FilterSection :=
  [ {| id := "bidsSummary";
       label := "Summary of Bids Participated (Department-wise)";
       default := true |};
    {| id := "marketOverview"; label := "Overall Market Overview";
       default := true |};
    {| id := "topPerformer"; label := "Top Performer Department";
       default := true |};
    {| id := "missedTenders"; label := "Missed-but-Winnable Tenders";
       default := true |};
    {| id := "buyerInsights"; label := "Buyer/Department Insights";
       default := true |};
    {| id := "rivalryScore"; label := "Rivalry Scorecard";
       default := true |};
    {| id := "lowCompetition";
       label := "Single-Bidder/Low-Competition Opportunities";
       default := true |};
    {| id := "categoryAnalysis"; label := "Category Distribution Analysis";
       default := true |};
    {| id := "statesAnalysis"; label := "Top Performing States/Geographies";
       default := true |};
    {| id := "departmentsAnalysis";
       label := "Top Departments by Tender Volume";
       default := true |} ]%string.

(** [FILTER_SECTIONS.filter(f => f.default).map(f => f.id)], the initial
    state of [selectedFilters]. *)
Definition initialFilters : list jsstring :=
  map (fun f => lit (id f)) (List.filter default FILTER_SECTIONS).

(** [prev.includes(filterId) ? prev.filter(id => id !== filterId)
                             : [...prev, filterId]] *)
Definition handleFilterToggle (prev : list jsstring) (filterId : jsstring)
  : list jsstring :=
  if includes prev filterId
  then List.filter (fun i => negb (jsstring_eqb i filterId)) prev
  else prev ++ [filterId].

Definition handleSelectAll : list jsstring :=
  map (fun f => lit (id f)) FILTER_SECTIONS.

Definition handleDeselectAll : list jsstring := [].

(** What the page lets the user do to the selection: the checkbox of the
    [n]-th entry of [FILTER_SECTIONS], or one of the two buttons. *)
Inductive action : Type :=
  | Toggle (n : nat)
  | SelectAll
  | DeselectAll.

Definition step (prev : list jsstring) (a : action) : list jsstring :=
  match a with
  | Toggle n =>
      match nth_error FILTER_SECTIONS n with
      | Some f => handleFilterToggle prev (lit (id f))
      | None => prev
      end
  | SelectAll => handleSelectAll
  | DeselectAll => handleDeselectAll
  end.

(** The state of [selectedFilters] after a sequence of actions. *)
Definition selectedFilters (l : list action) : list jsstring :=
  fold_left step l initialFilters.

(** The second argument of [generatePDF(reportData, {includeSections:
    selectedFilters})]. *)
Definition filters (l : list action) : FilterOptions :=
  {| includeSections := selectedFilters l |}.

End GenerateReport.

(** *** The checkboxes *)

Lemma includes_filter_other (l : list jsstring) (x y : jsstring) :
  y <> x ->
  includes (List.filter (fun i => negb (jsstring_eqb i x)) l) y
  = includes l y.
Proof.
  intros Hne. apply eq_true_iff_eq. rewrite !includes_In, List.filter_In.
  split; [intros [H _]; exact H|]. intros H. split; [exact H|].
  unfold jsstring_eqb. rewrite bool_decide_eq_false_2 by exact Hne.
  reflexivity.
Qed.

Lemma includes_filter_same (l : list jsstring) (x : jsstring) :
  includes (List.filter (fun i => negb (jsstring_eqb i x)) l) x = false.
Proof.
  apply not_true_is_false. rewrite includes_In, List.filter_In.
  intros [_ H]. unfold jsstring_eqb in H.
  rewrite bool_decide_eq_true_2 in H by reflexivity. discriminate H.
Qed.

Lemma includes_app (l r : list jsstring) (y : jsstring) :
  includes (l ++ r) y = includes l y || includes r y.
Proof. unfold includes. apply existsb_app. Qed.

Lemma toggle_includes (prev : list jsstring) (x y : jsstring) :
  includes (GenerateReport.handleFilterToggle prev x) y
  = if jsstring_eqb y x then negb (includes prev x) else includes prev y.
Proof.
  unfold GenerateReport.handleFilterToggle.
  destruct (jsstring_eqb y x) eqn:Eyx; unfold jsstring_eqb in Eyx.
  - apply bool_decide_eq_true in Eyx. subst y.
    destruct (includes prev x) eqn:Ex.
    + apply includes_filter_same.
    + rewrite includes_app, Ex. simpl. unfold jsstring_eqb.
      rewrite bool_decide_eq_true_2 by reflexivity. reflexivity.
  - apply bool_decide_eq_false in Eyx.
    destruct (includes prev x) eqn:Ex.
    + apply includes_filter_other. exact Eyx.
    + rewrite includes_app. simpl. unfold jsstring_eqb.
      rewrite bool_decide_eq_false_2 by exact Eyx.
      rewrite !orb_false_r. reflexivity.
Qed.

(** X1. A click on a checkbox flips the membership of its identifier in the
    selection and leaves the membership of every other identifier as it
    was; a second click on the same checkbox restores every membership. *)
Theorem toggle_flips_one (prev : list jsstring) (x : jsstring) :
  includes (GenerateReport.handleFilterToggle prev x) x
  = negb (includes prev x)
  /\ (forall y, y <> x ->
        includes (GenerateReport.handleFilterToggle prev x) y
        = includes prev y)
  /\ (forall y,
        includes (GenerateReport.handleFilterToggle
                    (GenerateReport.handleFilterToggle prev x) x) y
        = includes prev y).
Proof.
  split; [|split].
  - rewrite toggle_includes. unfold jsstring_eqb.
    rewrite bool_decide_eq_true_2 by reflexivity. reflexivity.
  - intros y Hne. rewrite toggle_includes. unfold jsstring_eqb.
    rewrite bool_decide_eq_false_2 by exact Hne. reflexivity.
  - intros y. rewrite !toggle_includes. unfold jsstring_eqb.
    destruct (bool_decide (y = x)) eqn:Eyx.
    + apply bool_decide_eq_true in Eyx. subst y.
      rewrite bool_decide_eq_true_2 by reflexivity.
      apply negb_involutive.
    + reflexivity.
Qed.

(** *** The selection as the generators read it *)

(** The identifiers that [src/utils/pdfGenerator.ts] looks up in the
    selection, and those the modern generator looks up. *)
Definition classic_ids : list string := map fst classic_guarded.
Definition modern_ids : list string := map fst modern_guarded.

(** Two selections with the same answers to [includes] for the identifiers
    [ids]. *)
Definition same_answers (ids : list string) (f1 f2 : FilterOptions) : Prop :=
  forall i, In i ids ->
    includes (includeSections f1) (lit i)
    = includes (includeSections f2) (lit i).

Lemma classic_sections_by_membership E rd f1 f2 :
  same_answers classic_ids f1 f2 ->
  PdfGenerator.sections E rd f1 = PdfGenerator.sections E rd f2.
Proof.
  intros H. unfold PdfGenerator.sections, PdfGenerator.selected.
  rewrite (H "bidsSummary"%string), (H "marketOverview"%string),
    (H "topPerformer"%string), (H "missedTenders"%string),
    (H "buyerInsights"%string), (H "rivalryScore"%string),
    (H "lowCompetition"%string), (H "topStates"%string)
    by in_table.
  reflexivity.
Qed.

Lemma classic_document_by_membership E rd f1 f2 :
  same_answers classic_ids f1 f2 ->
  PdfGenerator.document E rd f1 = PdfGenerator.document E rd f2.
Proof.
  intros H. unfold PdfGenerator.document, PdfGenerator.generatePDF.
  rewrite (classic_sections_by_membership E rd f1 f2 H). reflexivity.
Qed.

Lemma modern_document_by_membership E rd f1 f2 :
  same_answers modern_ids f1 f2 ->
  ModernGenerator.document E rd f1 = ModernGenerator.document E rd f2.
Proof.
  intros H.
  unfold ModernGenerator.document, ModernGenerator.generatePDF,
    ModernGenerator.sections, ModernGenerator.selected.
  rewrite (H "categoryAnalysis"%string), (H "bidsSummary"%string)
    by in_table.
  reflexivity.
Qed.

(** A selection in another order and with repetitions. *)
Definition shuffled_selection : FilterOptions :=
  {| includeSections :=
       [lit "rivalryScore"; lit "bidsSummary"; lit "rivalryScore";
        lit "statesAnalysis"] |}.

Definition plain_selection : FilterOptions :=
  {| includeSections := [lit "bidsSummary"; lit "rivalryScore"] |}.

(** X2. [src/utils/pdfGenerator.ts] reads the selection through
    [includes] of its eight identifiers only: two selections that agree on
    the membership of bidsSummary, marketOverview, topPerformer,
    missedTenders, buyerInsights, rivalryScore, lowCompetition and topStates
    give the same document, whatever their order, their repetitions and
    their other entries. *)
Theorem classic_selection_is_a_set (E : env) (rd : PdfGenerator.ReportData)
    (f1 f2 : FilterOptions) :
  same_answers
    ["bidsSummary"; "marketOverview"; "topPerformer"; "missedTenders";
     "buyerInsights"; "rivalryScore"; "lowCompetition"; "topStates"]%string
    f1 f2 ->
  PdfGenerator.document E rd f1 = PdfGenerator.document E rd f2.
Proof. apply classic_document_by_membership. Qed.

Lemma classic_selection_is_a_set_witness :
  PdfGenerator.document sample_env (classic_report sample_wins)
    shuffled_selection
  = PdfGenerator.document sample_env (classic_report sample_wins)
      plain_selection.
Proof.
  apply (classic_selection_is_a_set sample_env (classic_report sample_wins)
           shuffled_selection plain_selection).
  intros i Hi. simpl in Hi.
  repeat (destruct Hi as [<- | Hi]; [vm_compute; reflexivity|]).
  contradiction.
Defined.

(** X3. The modern generator reads two identifiers only: two selections
    that agree on the membership of categoryAnalysis and bidsSummary give
    the same document; no other entry of the selection changes anything. *)
Theorem modern_selection_two_ids (E : env) (rd : ModernGenerator.ReportData)
    (f1 f2 : FilterOptions) :
  same_answers ["categoryAnalysis"; "bidsSummary"]%string f1 f2 ->
  ModernGenerator.document E rd f1 = ModernGenerator.document E rd f2.
Proof. apply modern_document_by_membership. Qed.

Lemma modern_selection_two_ids_witness :
  ModernGenerator.document sample_env (modern_report sample_wins)
    shuffled_selection
  = ModernGenerator.document sample_env (modern_report sample_wins)
      plain_selection.
Proof.
  apply (modern_selection_two_ids sample_env (modern_report sample_wins)
           shuffled_selection plain_selection).
  intros i Hi. simpl in Hi.
  repeat (destruct Hi as [<- | Hi]; [vm_compute; reflexivity|]).
  contradiction.
Defined.

(** *** The selections the form can reach *)

Definition offered (x : jsstring) : Prop :=
  In x GenerateReport.handleSelectAll.

Lemma NoDup_snoc {A} (l : list A) (x : A) :
  List.NoDup l -> ~ In x l -> List.NoDup (l ++ [x]).
Proof.
  intros Hl Hx. induction Hl as [|y l Hy Hl IH]; simpl.
  - constructor; [intros []|constructor].
  - constructor.
    + rewrite in_app_iff. intros [H | [H | []]]; [exact (Hy H)|].
      subst y. apply Hx. left. reflexivity.
    + apply IH. intros H. apply Hx. right. exact H.
Qed.

Lemma select_all_NoDup : List.NoDup GenerateReport.handleSelectAll.
Proof.
  unfold GenerateReport.handleSelectAll. simpl.
  repeat (constructor;
          [ let H := fresh in
            intros H; split_in H; vm_compute in H; discriminate H | ]).
  constructor.
Qed.

Lemma toggle_keeps (prev : list jsstring) (x : jsstring) :
  offered x ->
  Forall offered prev /\ List.NoDup prev ->
  Forall offered (GenerateReport.handleFilterToggle prev x)
  /\ List.NoDup (GenerateReport.handleFilterToggle prev x).
Proof.
  intros Hx [Hf Hn]. unfold GenerateReport.handleFilterToggle.
  destruct (includes prev x) eqn:Ex.
  - split.
    + apply Forall_forall. intros y Hy.
      apply list_elem_of_In, List.filter_In in Hy. destruct Hy as [Hy _].
      rewrite Forall_forall in Hf. apply Hf, list_elem_of_In, Hy.
    + apply List.NoDup_filter. exact Hn.
  - split.
    + apply Forall_app. split; [exact Hf|]. constructor; [exact Hx|constructor].
    + apply NoDup_snoc; [exact Hn|].
      intros H. apply includes_In in H. rewrite H in Ex. discriminate Ex.
Qed.

Lemma reachable_selection (l : list GenerateReport.action) :
  Forall offered (GenerateReport.selectedFilters l)
  /\ List.NoDup (GenerateReport.selectedFilters l).
Proof.
  unfold GenerateReport.selectedFilters.
  assert (H0 : Forall offered GenerateReport.initialFilters
               /\ List.NoDup GenerateReport.initialFilters).
  { change GenerateReport.initialFilters with GenerateReport.handleSelectAll.
    split; [|exact select_all_NoDup].
    apply Forall_forall. intros x Hx. apply list_elem_of_In. exact Hx. }
  revert H0. generalize GenerateReport.initialFilters.
  induction l as [|a l IH]; intros s Hs; [exact Hs|].
  simpl. apply IH. destruct a as [n| |]; simpl.
  - destruct (nth_error GenerateReport.FILTER_SECTIONS n) as [f|] eqn:En;
      [|exact Hs].
    apply toggle_keeps; [|exact Hs].
    unfold offered, GenerateReport.handleSelectAll.
    apply (in_map (fun g => lit (GenerateReport.id g))).
    eapply nth_error_In. exact En.
  - split; [|exact select_all_NoDup].
    apply Forall_forall. intros x Hx. apply list_elem_of_In. exact Hx.
  - split; constructor.
Qed.

Lemma not_offered (x : string) :
  existsb (String.eqb x) (map GenerateReport.id GenerateReport.FILTER_SECTIONS)
  = false ->
  ~ offered (lit x).
Proof.
  intros Hx H. unfold offered, GenerateReport.handleSelectAll in H.
  apply in_map_iff in H. destruct H as [f [Hf Hin]].
  assert (He : GenerateReport.id f = x).
  { clear -Hf. revert Hf. generalize (GenerateReport.id f). intros y.
    revert x. induction y as [|a y IH]; intros [|b x] H;
      try discriminate H; [reflexivity|].
    unfold lit in H. simpl in H. injection H as Hab Hr.
    apply (f_equal ascii_of_N) in Hab. rewrite !ascii_N_embedding in Hab.
    subst b. f_equal. apply IH. exact Hr. }
  assert (Hex : existsb (String.eqb x)
                  (map GenerateReport.id GenerateReport.FILTER_SECTIONS)
                = true).
  { apply existsb_exists. exists x. split; [|apply String.eqb_refl].
    rewrite <- He. apply (in_map GenerateReport.id). exact Hin. }
  rewrite Hex in Hx. discriminate Hx.
Qed.

(** X4. Whatever the user clicks (checkboxes of the ten entries, Select
    All, Deselect All, in any order and number), the selection passed to
    [generatePDF] holds only identifiers of [FILTER_SECTIONS], each at most
    once; so it never has more than ten entries. *)
Theorem selection_stays_offered (l : list GenerateReport.action) :
  Forall (fun x => In x (map (fun f => lit (GenerateReport.id f))
                           GenerateReport.FILTER_SECTIONS))
    (GenerateReport.selectedFilters l)
  /\ List.NoDup (GenerateReport.selectedFilters l)
  /\ (length (GenerateReport.selectedFilters l) <= 10)%nat.
Proof.
  destruct (reachable_selection l) as [Hf Hn].
  split; [exact Hf|]. split; [exact Hn|].
  change 10%nat with (length GenerateReport.handleSelectAll).
  apply NoDup_incl_length; [exact Hn|].
  intros x Hx. rewrite Forall_forall in Hf.
  apply Hf, list_elem_of_In, Hx.
Qed.

(** X5. The section of the top performing states of
    [src/utils/pdfGenerator.ts] is out of reach of the form: the generator
    asks for the identifier topStates, which is not among the checkboxes
    (the form offers statesAnalysis), so no sequence of clicks and no report
    ever gives a document with that band. *)
Theorem top_states_out_of_reach (E : env) (rd : PdfGenerator.ReportData)
    (l : list GenerateReport.action) :
  no_section_band "Top Performing States / Geographies"
    (PdfGenerator.document E rd (GenerateReport.filters l)).
Proof.
  apply (classic_guarded_suppressed E rd (GenerateReport.filters l)
           "topStates" ["Top Performing States / Geographies"%string]).
  - in_table.
  - left. reflexivity.
  - intros H. destruct (reachable_selection l) as [Hf _].
    rewrite Forall_forall in Hf. apply list_elem_of_In, Hf in H.
    revert H. apply not_offered. reflexivity.
Qed.

(** X6. Three checkboxes of the form do nothing to the document of
    [src/utils/pdfGenerator.ts]: a click on categoryAnalysis, statesAnalysis
    or departmentsAnalysis, from any selection, leaves the document as it
    was. *)
Theorem dead_checkboxes (E : env) (rd : PdfGenerator.ReportData)
    (prev : list jsstring) (x : string) :
  In x ["categoryAnalysis"; "statesAnalysis"; "departmentsAnalysis"]%string ->
  PdfGenerator.document E rd
    {| includeSections := GenerateReport.handleFilterToggle prev (lit x) |}
  = PdfGenerator.document E rd {| includeSections := prev |}.
Proof.
  intros Hx. apply classic_document_by_membership.
  intros i Hi. simpl includeSections. rewrite toggle_includes.
  assert (Hne : jsstring_eqb (lit i) (lit x) = false).
  { simpl in Hx, Hi.
    repeat (destruct Hx as [<- | Hx]; [|]);
      try contradiction;
      repeat (destruct Hi as [<- | Hi]; [vm_compute; reflexivity|]);
      contradiction. }
  rewrite Hne. reflexivity.
Qed.

Lemma dead_checkboxes_witness :
  PdfGenerator.document sample_env (classic_report sample_wins)
    {| includeSections :=
         GenerateReport.handleFilterToggle [lit "bidsSummary"]
           (lit "statesAnalysis") |}
  = PdfGenerator.document sample_env (classic_report sample_wins)
      {| includeSections := [lit "bidsSummary"] |}.
Proof.
  apply (dead_checkboxes sample_env (classic_report sample_wins)
           [lit "bidsSummary"] "statesAnalysis").
  simpl. right. left. reflexivity.
Defined.

(** ** Page stamps *)

Definition is_header (o : op) : bool :=
  match o with Header _ => true | _ => false end.

Definition is_footer (o : op) : bool :=
  match o with Footer _ => true | _ => false end.

(** The footer shows the page number [n]: the second of its three texts is
    Page [n]. *)
Definition footer_shows (n : nat) (o : op) : Prop :=
  match o with
  | Footer texts => texts !! 1%nat = Some (lit "Page " ++ nat_toString n)
  | _ => True
  end.

(** Every footer of the document shows the number of the page it is on. *)
Definition footers_numbered (d : jsPDF) : Prop :=
  forall i p, pages d !! i = Some p -> Forall (footer_shows (S i)) p.

Lemma emit_numbered (o : op) (s : state) :
  footer_shows (page (doc s)) o ->
  footers_numbered (doc s) -> footers_numbered (doc (exec (emit o) s)).
Proof.
  intros Ho H i p. unfold exec. simpl.
  destruct (page (doc s)) as [|j] eqn:Ej; [apply H|].
  destruct (decide (i = j)) as [->|Hne].
  - rewrite list_lookup_alter_eq.
    destruct (pages (doc s) !! j) as [q|] eqn:Eq; [|discriminate].
    simpl. intros Hp. injection Hp as <-.
    apply Forall_app. split; [exact (H j q Eq)|].
    constructor; [exact Ho | constructor].
  - rewrite list_lookup_alter_ne by (intros He; apply Hne; symmetry; exact He).
    apply H.
Qed.

Lemma not_footer_shows (n : nat) (o : op) :
  is_footer o = false -> footer_shows n o.
Proof. destruct o; simpl; intros H; first [exact Logic.I | discriminate H]. Qed.

Lemma footers_invariant :
  Invariant (fun s => footers_numbered (doc s)) (fun o => is_footer o = false).
Proof.
  split.
  - intros o Ho s H. apply emit_numbered; [|exact H].
    apply not_footer_shows, Ho.
  - intros s H i p. unfold exec. simpl. intros Hp.
    apply lookup_app_Some in Hp. destruct Hp as [Hp | [_ Hp]].
    + exact (H i p Hp).
    + apply list_lookup_singleton_Some in Hp. destruct Hp as [_ <-].
      constructor.
  - intros y s H. exact H.
  - intros y s H. exact H.
  - intros o Ho. destruct o; first [reflexivity | discriminate Ho].
  - reflexivity.
Qed.

Lemma classic_footer_numbered E rd :
  preserves (fun s => footers_numbered (doc s))
    (PdfGenerator.addPageFooter E rd).
Proof.
  intros s H. unfold PdfGenerator.addPageFooter.
  rewrite exec_bind. apply emit_numbered; [reflexivity | exact H].
Qed.

Lemma modern_footer_numbered rd :
  preserves (fun s => footers_numbered (doc s))
    (ModernGenerator.addPageFooter rd).
Proof.
  intros s H. unfold ModernGenerator.addPageFooter.
  rewrite exec_bind. apply emit_numbered; [reflexivity | exact H].
Qed.

Lemma header_not_footer :
  (forall texts, is_footer (Header texts) = false) /\ True.
Proof. split; [reflexivity | exact Logic.I]. Qed.

(** The traversal of a block, with the footers taken as a whole. *)
Ltac numbered_step :=
  lazymatch goal with
  | |- preserves _ (PdfGenerator.addPageFooter _ _) =>
      apply classic_footer_numbered
  | |- preserves _ (ModernGenerator.addPageFooter _) =>
      apply modern_footer_numbered
  | |- preserves _ (emit (SectionBand _)) =>
      apply (inv_emit _ _ footers_invariant); reflexivity
  | |- _ => layout_step footers_invariant header_not_footer
  end.

Ltac numbered := cbv zeta; repeat (numbered_step; cbv zeta).

(** X7. In the documents of both generators every footer shows the number
    of the page it is drawn on: the footers that [addNewPage] and the tables
    add, and the footer that [src/utils/pdfGenerator.ts] adds to page 1 at
    the end. *)
Theorem footers_show_their_page (E : env) (rd : PdfGenerator.ReportData)
    (rd' : ModernGenerator.ReportData) (filters : FilterOptions) :
  footers_numbered (PdfGenerator.document E rd filters)
  /\ footers_numbered (ModernGenerator.document E rd' filters).
Proof.
  assert (H0 : forall y,
             footers_numbered (doc {| doc := new_jsPDF; yPosition := y |})).
  { intros y i p Hp. simpl in Hp. destruct i as [|i]; [|discriminate Hp].
    injection Hp as <-. constructor. }
  split.
  - cut (preserves (fun s => footers_numbered (doc s))
           (PdfGenerator.generatePDF E rd filters)).
    { intros H. apply H, H0. }
    unfold PdfGenerator.generatePDF.
    apply preserves_bind; [numbered | intros _].
    apply preserves_bind; [numbered | intros _].
    apply preserves_bind; [intros s H; exact H | intros _].
    apply classic_footer_numbered.
  - cut (preserves (fun s => footers_numbered (doc s))
           (ModernGenerator.generatePDF E rd' filters)).
    { intros H. apply H, H0. }
    numbered.
Qed.

(** *** Every page after the cover is stamped *)

(** The page holds a header and a footer. *)
Definition stamped (p : list op) : Prop :=
  existsb is_header p = true /\ existsb is_footer p = true.

(** The current page is the last one and every page after the first is
    stamped. *)
Definition all_stamped (s : state) : Prop :=
  page (doc s) = length (pages (doc s))
  /\ forall i p, pages (doc s) !! S i = Some p -> stamped p.

(** The same, but for the last page, which a table has just added. *)
Definition stamped_but_last (s : state) : Prop :=
  page (doc s) = length (pages (doc s))
  /\ forall i p, pages (doc s) !! S i = Some p ->
       (S (S i) < length (pages (doc s)))%nat -> stamped p.

Lemma stamped_app (p q : list op) : stamped p -> stamped (p ++ q).
Proof.
  intros [H1 H2]. unfold stamped. rewrite !existsb_app, H1, H2.
  split; reflexivity.
Qed.

Lemma all_stamped_but_last (s : state) :
  all_stamped s -> stamped_but_last s.
Proof. intros [H1 H2]. split; [exact H1|]. intros i p Hp _. eauto. Qed.

Lemma stamped_emit (o : op) : preserves all_stamped (emit o).
Proof.
  intros s [H1 H2]. unfold all_stamped, exec. simpl.
  destruct (page (doc s)) as [|j] eqn:Ej; [split; assumption|].
  rewrite length_alter. split; [exact H1|].
  intros i p. destruct (decide (S i = j)) as [<-|Hne].
  - rewrite list_lookup_alter_eq.
    destruct (pages (doc s) !! S i) as [q|] eqn:Eq; [|discriminate].
    simpl. intros Hp. injection Hp as <-. apply stamped_app. eauto.
  - rewrite list_lookup_alter_ne
      by (intros He; apply Hne; symmetry; exact He).
    apply H2.
Qed.

Lemma pending_emit (o : op) : preserves stamped_but_last (emit o).
Proof.
  intros s [H1 H2]. unfold stamped_but_last, exec. simpl.
  destruct (page (doc s)) as [|j] eqn:Ej; [split; assumption|].
  rewrite length_alter. split; [exact H1|].
  intros i p. destruct (decide (S i = j)) as [<-|Hne].
  - rewrite list_lookup_alter_eq.
    destruct (pages (doc s) !! S i) as [q|] eqn:Eq; [|discriminate].
    simpl. intros Hp Hlt. injection Hp as <-. apply stamped_app. eauto.
  - rewrite list_lookup_alter_ne
      by (intros He; apply Hne; symmetry; exact He).
    apply H2.
Qed.

Lemma pending_addPage : hoare all_stamped addPage stamped_but_last.
Proof.
  intros s [H1 H2]. unfold stamped_but_last, exec. simpl.
  rewrite length_app. simpl. split; [lia|].
  intros i p Hp Hlt. apply (H2 i).
  rewrite lookup_app_l in Hp by lia. exact Hp.
Qed.

(** A header and a footer on the current page complete the stamping. *)
Lemma stamp_completes (h f : list jsstring) (s : state) :
  stamped_but_last s ->
  all_stamped (exec (emit (Footer f)) (exec (emit (Header h)) s)).
Proof.
  intros [H1 H2]. unfold all_stamped, exec. simpl.
  destruct (page (doc s)) as [|j] eqn:Ej; simpl.
  - split; [exact H1|]. intros i p Hp. apply (H2 i p Hp).
    apply lookup_lt_Some in Hp. lia.
  - rewrite !length_alter. split; [exact H1|].
    intros i p. destruct (decide (S i = j)) as [<-|Hne].
    + rewrite !list_lookup_alter_eq.
      destruct (pages (doc s) !! S i) as [q|] eqn:Eq; [|discriminate].
      simpl. intros Hp. injection Hp as <-.
      unfold stamped. rewrite !existsb_app. simpl.
      rewrite !orb_true_r. split; reflexivity.
    + rewrite !list_lookup_alter_ne
        by (intros He; apply Hne; symmetry; exact He).
      intros Hp. apply (H2 i p Hp).
      apply lookup_lt_Some in Hp. lia.
Qed.

Lemma modern_stamp_completes E rd :
  hoare stamped_but_last
    (bind (ModernGenerator.addPageHeader E rd)
       (fun _ => ModernGenerator.addPageFooter rd))
    all_stamped.
Proof.
  intros s H. rewrite exec_bind.
  unfold ModernGenerator.addPageFooter. rewrite exec_bind.
  apply stamp_completes, H.
Qed.

Lemma stamped_addNewPage E rd :
  preserves all_stamped (ModernGenerator.addNewPage E rd).
Proof.
  unfold ModernGenerator.addNewPage.
  apply (hoare_bind _ stamped_but_last); [apply pending_addPage|]. intros _.
  apply (hoare_bind _ stamped_but_last); [intros s H; exact H|]. intros _.
  apply modern_stamp_completes.
Qed.

Lemma stamped_table E rd head body :
  preserves all_stamped (ModernGenerator.stampedTable E rd head body).
Proof.
  unfold ModernGenerator.stampedTable, autoTable.
  apply preserves_bind; [intros s H; exact H|]. intros startY.
  destruct (tableLayout E startY head _) as [extra finalY].
  apply preserves_bind; [|intros _ s H; exact H].
  apply preserves_forEach. intros k.
  apply (hoare_bind _ stamped_but_last).
  - destruct (1 <? k)%nat; simpl.
    + apply pending_addPage.
    + intros s H. apply all_stamped_but_last, H.
  - intros _. apply (hoare_bind _ stamped_but_last); [apply pending_emit|].
    intros _. apply modern_stamp_completes.
Qed.

(** The statements that carry no primitive of their own. *)
Ltac structure_step :=
  lazymatch goal with
  | |- preserves _ (bind _ _) => apply preserves_bind; [|intros ?]
  | |- preserves _ (ret _) => apply preserves_ret
  | |- preserves _ (when _ _) => apply preserves_when
  | |- preserves _ (forEach _ _) => apply preserves_forEach; intros ?
  | |- preserves _ (forEachi _ _) => apply preserves_forEachi; intros ? ?
  | |- preserves _ getY => apply preserves_getY
  | |- preserves _ getFinalY => apply preserves_getFinalY
  | |- preserves _ pageNumber => apply preserves_pageNumber
  | |- preserves _ (if ?c then _ else _) => destruct c
  | |- preserves _ (match ?x with _ => _ end) => destruct x
  | |- preserves _ ?m => let h := head_of m in unfold h
  end.

Ltac stamped_step :=
  lazymatch goal with
  | |- preserves _ (emit _) => apply stamped_emit
  | |- preserves _ (setY _) => intros ? ?; assumption
  | |- preserves _ (setFinalY _) => intros ? ?; assumption
  | |- preserves _ (ModernGenerator.addNewPage _ _) =>
      apply stamped_addNewPage
  | |- preserves _ (ModernGenerator.stampedTable _ _ _ _) =>
      apply stamped_table
  | |- _ => structure_step
  end.

(** X8. In the document of the modern generator every page after the
    cover holds a header and a footer, whatever the report, the selection
    and the pagination of the tables: [addNewPage] stamps the pages it adds
    and every table stamps the pages it draws on. The current page at the
    end is the last page. *)
Theorem modern_pages_stamped (E : env) (rd : ModernGenerator.ReportData)
    (filters : FilterOptions) :
  Forall (fun p => (exists texts, In (Header texts) p)
                   /\ (exists texts, In (Footer texts) p))
    (tail (pages (ModernGenerator.document E rd filters)))
  /\ page (ModernGenerator.document E rd filters)
     = length (pages (ModernGenerator.document E rd filters)).
Proof.
  assert (H : all_stamped (exec (ModernGenerator.generatePDF E rd filters)
                             ModernGenerator.initial)).
  { cut (preserves all_stamped (ModernGenerator.generatePDF E rd filters)).
    { intros H. apply H. split; [reflexivity|].
      intros i p Hp. destruct i; discriminate Hp. }
    cbv zeta; repeat (stamped_step; cbv zeta). }
  destruct H as [H1 H2]. split; [|exact H1].
  apply Forall_lookup. intros i p Hp. rewrite lookup_tail in Hp.
  destruct (H2 i p Hp) as [Hh Hf].
  apply existsb_exists in Hh. destruct Hh as [o [Ho Hh]].
  apply existsb_exists in Hf. destruct Hf as [o' [Ho' Hf]].
  destruct o; try discriminate Hh. destruct o'; try discriminate Hf.
  split; eexists; eassumption.
Qed.

(** *** How many pages *)

(** The document has at least [n] pages. *)
Definition min_pages (n : nat) (s : state) : Prop :=
  (n <= length (pages (doc s)))%nat.

Lemma min_pages_invariant (n : nat) : Invariant (min_pages n) (fun _ => True).
Proof.
  split; try (intros; exact Logic.I).
  - intros o _ s H. unfold min_pages, exec in *. simpl.
    destruct (page (doc s)); [exact H|]. rewrite length_alter. exact H.
  - intros s H. unfold min_pages, exec in *. simpl.
    rewrite length_app. simpl. lia.
  - intros y s H. exact H.
  - intros y s H. exact H.
Qed.

Lemma addPage_one_more (n : nat) :
  hoare (min_pages n) addPage (min_pages (S n)).
Proof.
  intros s H. unfold min_pages, exec in *. simpl.
  rewrite length_app. simpl. lia.
Qed.

Lemma modern_addNewPage_one_more E rd (n : nat) :
  hoare (min_pages n) (ModernGenerator.addNewPage E rd) (min_pages (S n)).
Proof.
  unfold ModernGenerator.addNewPage.
  eapply hoare_bind; [apply addPage_one_more|]. intros _.
  keep_all (min_pages_invariant (S n)).
Qed.

Lemma classic_addNewPage_one_more E rd (n : nat) :
  hoare (min_pages n) (PdfGenerator.addNewPage E rd) (min_pages (S n)).
Proof.
  unfold PdfGenerator.addNewPage.
  eapply hoare_bind; [apply addPage_one_more|]. intros _.
  keep_all (min_pages_invariant (S n)).
Qed.

(** One for a section that is drawn, none for one that is not. *)
Definition one_if (b : bool) : nat := if b then 1%nat else 0%nat.

(** A section of [src/utils/pdfGenerator.ts] behind its test. *)
Lemma classic_guarded_one_more E rd (c : bool) (body : M unit) (n : nat) :
  preserves (min_pages (S n)) body ->
  hoare (min_pages n)
    (when c (bind (PdfGenerator.addNewPage E rd) (fun _ => body)))
    (min_pages (n + one_if c)).
Proof.
  intros Hb. destruct c; simpl.
  - replace (n + 1)%nat with (S n) by lia.
    eapply hoare_bind; [apply classic_addNewPage_one_more|]. intros _.
    exact Hb.
  - replace (n + 0)%nat with n by lia. intros s H. exact H.
Qed.

(** The sections that [src/utils/pdfGenerator.ts] draws for a report and a
    selection: the eight behind the selection, the AI block and the list of
    recent bids. *)
Definition classic_section_count (rd : PdfGenerator.ReportData)
    (filters : FilterOptions) : nat :=
  (one_if (PdfGenerator.selected filters "bidsSummary")
   + one_if (PdfGenerator.selected filters "marketOverview")
   + one_if (PdfGenerator.selected filters "topPerformer")
   + one_if (PdfGenerator.selected filters "missedTenders")
   + match opt_bind (PdfGenerator.missedButWinnable (PdfGenerator.data rd))
             ai with
     | Some _ => 1
     | None => 0
     end
   + one_if (PdfGenerator.selected filters "buyerInsights")
   + one_if (PdfGenerator.selected filters "rivalryScore")
   + one_if (PdfGenerator.selected filters "lowCompetition")
   + one_if (PdfGenerator.selected filters "topStates")
   + one_if (0 <? length (PdfGenerator.wins rd)))%nat.

(** The rest of a block keeps the number of pages reached. *)
Ltac keep_pages :=
  lazymatch goal with
  | |- preserves (min_pages ?n) _ =>
      layout (min_pages_invariant n) stamps_ok_True
  | |- hoare (min_pages ?n) _ _ =>
      apply hoare_preserves; layout (min_pages_invariant n) stamps_ok_True
  end.

Ltac section_page :=
  eapply hoare_bind;
  [ apply classic_guarded_one_more; keep_pages | intros _ ].

Lemma classic_ai_pages E rd (n : nat) :
  hoare (min_pages n)
    (match opt_bind (PdfGenerator.missedButWinnable (PdfGenerator.data rd))
             ai with
     | Some aiData =>
         bind (PdfGenerator.addNewPage E rd)
           (fun _ => PdfGenerator.aiInsights E rd aiData)
     | None => ret tt
     end)
    (min_pages
       (n + match opt_bind (PdfGenerator.missedButWinnable
                              (PdfGenerator.data rd)) ai with
            | Some _ => 1
            | None => 0
            end)).
Proof.
  destruct (opt_bind _ ai) as [aiData|].
  - replace (n + 1)%nat with (S n) by lia.
    eapply hoare_bind; [apply classic_addNewPage_one_more|]. intros _.
    keep_pages.
  - replace (n + 0)%nat with n by lia. intros s H. exact H.
Qed.

Lemma classic_sections_pages E rd filters :
  hoare (min_pages 1) (PdfGenerator.sections E rd filters)
    (min_pages (1 + classic_section_count rd filters)).
Proof.
  cut (hoare (min_pages 1) (PdfGenerator.sections E rd filters)
         (min_pages
            (1 + one_if (PdfGenerator.selected filters "bidsSummary")
             + one_if (PdfGenerator.selected filters "marketOverview")
             + one_if (PdfGenerator.selected filters "topPerformer")
             + one_if (PdfGenerator.selected filters "missedTenders")
             + match opt_bind (PdfGenerator.missedButWinnable
                                 (PdfGenerator.data rd)) ai with
               | Some _ => 1
               | None => 0
               end
             + one_if (PdfGenerator.selected filters "buyerInsights")
             + one_if (PdfGenerator.selected filters "rivalryScore")
             + one_if (PdfGenerator.selected filters "lowCompetition")
             + one_if (PdfGenerator.selected filters "topStates")
             + one_if (0 <? length (PdfGenerator.wins rd))))).
  { intros H s Hs. specialize (H s Hs).
    unfold min_pages, classic_section_count in *. lia. }
  unfold PdfGenerator.sections.
  do 4 section_page.
  eapply hoare_bind; [apply classic_ai_pages|].
  intros _.
  do 4 section_page.
  apply classic_guarded_one_more. keep_pages.
Qed.

(** X9. Every section starts a page of its own. The document of
    [src/utils/pdfGenerator.ts] has at least one page more than the number
    of sections it draws (the selected ones among its eight, the AI block
    when the report has one, the recent bids when there is a win); the
    document of the modern generator has at least five pages, even for an
    empty report and an empty selection. *)
Theorem pages_at_least (E : env) (rd : PdfGenerator.ReportData)
    (rd' : ModernGenerator.ReportData) (filters : FilterOptions) :
  (1 + classic_section_count rd filters
   <= length (pages (PdfGenerator.document E rd filters)))%nat
  /\ (5 <= length (pages (ModernGenerator.document E rd' filters)))%nat.
Proof.
  split.
  - cut (hoare (min_pages 1) (PdfGenerator.generatePDF E rd filters)
           (min_pages (1 + classic_section_count rd filters))).
    { intros H. apply H. unfold min_pages. simpl. lia. }
    unfold PdfGenerator.generatePDF.
    eapply hoare_bind; [keep_pages|]. intros _.
    eapply hoare_bind; [apply classic_sections_pages|]. intros _.
    apply (hoare_bind _ (min_pages (1 + classic_section_count rd filters)));
      [intros s H; exact H|].
    intros _.
    keep_pages.
  - cut (hoare (min_pages 1) (ModernGenerator.generatePDF E rd' filters)
           (min_pages 5)).
    { intros H. apply H. unfold min_pages. simpl. lia. }
    unfold ModernGenerator.generatePDF.
    eapply hoare_bind; [keep_pages|]. intros _.
    eapply hoare_bind; [apply modern_addNewPage_one_more|]. intros _.
    unfold ModernGenerator.sections.
    eapply hoare_bind; [keep_pages|]. intros _.
    eapply hoare_bind; [apply modern_addNewPage_one_more|]. intros _.
    do 3 (eapply hoare_bind; [keep_pages|]; intros _).
    eapply hoare_bind; [apply modern_addNewPage_one_more|]. intros _.
    do 3 (eapply hoare_bind; [keep_pages|]; intros _).
    eapply hoare_bind; [apply modern_addNewPage_one_more|]. intros _.
    keep_pages.
Qed.

(** ** Which sections are drawn *)

(** The band with this title is somewhere in the document. *)
Definition has_band (title : string) (d : jsPDF) : Prop :=
  exists p, In p (pages d) /\ In (SectionBand (lit title)) p.

Lemma run_has_band (title : string) (d : jsPDF) :
  has_run [SectionBand (lit title)] d -> has_band title d.
Proof. apply has_run_in. Qed.

Ltac keep_run :=
  lazymatch goal with
  | |- hoare (fun s => has_run ?l (doc s)) _ _ =>
      apply hoare_preserves; layout (has_run_invariant l) stamps_ok_True
  end.

Lemma modern_header_drawn E rd (t : string) :
  hoare valid_page (ModernGenerator.addSectionHeader E rd t)
    (fun s => has_run [SectionBand (lit t)] (doc s)).
Proof.
  unfold ModernGenerator.addSectionHeader.
  keep valid_page_invariant.
  eapply hoare_bind; [apply emit_run|]. intros _. keep_run.
Qed.

Lemma classic_band_drawn (t : jsstring) :
  hoare valid_page (PdfGenerator.sectionBand t)
    (fun s => has_run [SectionBand t] (doc s)).
Proof.
  unfold PdfGenerator.sectionBand.
  eapply hoare_bind; [apply emit_run|]. intros _. keep_run.
Qed.

Lemma classic_header_drawn E rd (t : string) :
  hoare valid_page (PdfGenerator.addSectionHeader E rd t)
    (fun s => has_run [SectionBand (lit t)] (doc s)).
Proof.
  unfold PdfGenerator.addSectionHeader.
  keep valid_page_invariant. apply classic_band_drawn.
Qed.

(** Up to the band with the title [t] in a sequence of statements, then
    through the rest. *)
Ltac to_band t :=
  lazymatch goal with
  | |- hoare _ (bind (ModernGenerator.addSectionHeader _ _ t) _) _ =>
      eapply hoare_bind; [apply modern_header_drawn | intros _; keep_run]
  | |- hoare _ (bind (PdfGenerator.addSectionHeader _ _ t) _) _ =>
      eapply hoare_bind; [apply classic_header_drawn | intros _; keep_run]
  | |- hoare _ (bind (PdfGenerator.sectionBand (lit t)) _) _ =>
      eapply hoare_bind; [apply classic_band_drawn | intros _; keep_run]
  | |- hoare _ (bind _ _) _ => keep valid_page_invariant; to_band t
  end.

(** Up to the statement that [enter] opens, then through the rest. *)
Ltac to_section enter :=
  first
    [ eapply hoare_bind; [enter | intros _; keep_run]
    | keep valid_page_invariant; to_section enter ].

Lemma modern_band_always E rd filters (t : string) :
  In t ["Performance Overview";
        "Summary of Bids Participated - Department-wise";
        "Overall Market Overview";
        "Top Performer Departments";
        "Missed-but-Winnable Tenders";
        "Buyer / Department Insights";
        "Rivalry Scorecard - Top Sellers";
        "Single-Bidder / Low-Competition Opportunities";
        "Top Performing States / Geographies"]%string ->
  has_run [SectionBand (lit t)] (ModernGenerator.document E rd filters).
Proof.
  intros Ht.
  cut (hoare valid_page (ModernGenerator.generatePDF E rd filters)
         (fun s => has_run [SectionBand (lit t)] (doc s))).
  { intros H. apply H, initial_valid. }
  unfold ModernGenerator.generatePDF.
  keep valid_page_invariant. keep valid_page_invariant.
  unfold ModernGenerator.sections.
  simpl in Ht.
  repeat (destruct Ht as [<- | Ht]; [|]); try contradiction.
  - to_section ltac:(unfold ModernGenerator.performanceOverview;
                     to_band "Performance Overview"%string).
  - to_section ltac:(unfold ModernGenerator.departmentSummary;
                     to_band
                       "Summary of Bids Participated - Department-wise"%string).
  - to_section ltac:(unfold ModernGenerator.marketOverview;
                     to_band "Overall Market Overview"%string).
  - to_section ltac:(unfold ModernGenerator.topPerformer;
                     to_band "Top Performer Departments"%string).
  - to_section ltac:(unfold ModernGenerator.missedTenders;
                     to_band "Missed-but-Winnable Tenders"%string).
  - to_section ltac:(unfold ModernGenerator.buyerInsights;
                     to_band "Buyer / Department Insights"%string).
  - to_section ltac:(unfold ModernGenerator.rivalryScorecard;
                     to_band "Rivalry Scorecard - Top Sellers"%string).
  - to_section ltac:(unfold ModernGenerator.lowCompetition;
                     to_band
                       "Single-Bidder / Low-Competition Opportunities"%string).
  - to_section ltac:(unfold ModernGenerator.topStates;
                     to_band "Top Performing States / Geographies"%string).
Qed.

Lemma classic_selected_drawn E rd filters id titles title :
  In (id, titles) classic_guarded -> In title titles ->
  In (lit id) (includeSections filters) ->
  has_run [SectionBand (lit title)] (PdfGenerator.document E rd filters).
Proof.
  intros Hin Ht Hsel. apply includes_In in Hsel.
  fold (PdfGenerator.selected filters id) in Hsel.
  cut (hoare valid_page (PdfGenerator.generatePDF E rd filters)
         (fun s => has_run [SectionBand (lit title)] (doc s))).
  { intros H. apply H, initial_valid. }
  unfold PdfGenerator.generatePDF.
  keep valid_page_invariant.
  eapply hoare_bind.
  2:{ intros _.
      apply (hoare_bind _ (fun s => has_run [SectionBand (lit title)] (doc s)));
        [intros s H; exact H|].
      intros _. keep_run. }
  unfold PdfGenerator.sections.
  split_in Hin; injection Hin as <- <-; split_in Ht; subst title.
  - to_section ltac:(rewrite Hsel; unfold when; keep valid_page_invariant;
                     unfold PdfGenerator.bidsSummary;
                     to_band "Executive Summary"%string).
  - to_section ltac:(rewrite Hsel; unfold when; keep valid_page_invariant;
                     unfold PdfGenerator.bidsSummary;
                     to_band "AI-Powered Strategic Insights"%string).
  - to_section ltac:(rewrite Hsel; unfold when; keep valid_page_invariant;
                     unfold PdfGenerator.marketOverview;
                     to_band "Overall Market Overview"%string).
  - to_section ltac:(rewrite Hsel; unfold when; keep valid_page_invariant;
                     unfold PdfGenerator.topPerformer;
                     to_band "Top Performer Department"%string).
  - to_section ltac:(rewrite Hsel; unfold when; keep valid_page_invariant;
                     unfold PdfGenerator.missedTenders;
                     to_band "Missed-but-Winnable Tenders"%string).
  - to_section ltac:(rewrite Hsel; unfold when; keep valid_page_invariant;
                     unfold PdfGenerator.buyerInsights;
                     to_band "Buyer / Department Insights"%string).
  - to_section ltac:(rewrite Hsel; unfold when; keep valid_page_invariant;
                     unfold PdfGenerator.rivalryScore;
                     to_band "Rivalry Scorecard"%string).
  - to_section ltac:(rewrite Hsel; unfold when; keep valid_page_invariant;
                     unfold PdfGenerator.lowCompetition;
                     to_band
                       "Single-Bidder / Low-Competition Opportunities"%string).
  - to_section ltac:(rewrite Hsel; unfold when; keep valid_page_invariant;
                     unfold PdfGenerator.topStatesSection;
                     to_band "Top Performing States / Geographies"%string).
Qed.

Lemma classic_recent_drawn E rd filters :
  PdfGenerator.wins rd <> [] ->
  has_run [SectionBand (lit "Recent Successful Bids - Detailed List")]
    (PdfGenerator.document E rd filters).
Proof.
  intros Hw.
  assert (Hlen : (0 <? length (PdfGenerator.wins rd))%nat = true).
  { destruct (PdfGenerator.wins rd); [contradiction|reflexivity]. }
  cut (hoare valid_page (PdfGenerator.generatePDF E rd filters)
         (fun s => has_run
                     [SectionBand
                        (lit "Recent Successful Bids - Detailed List")]
                     (doc s))).
  { intros H. apply H, initial_valid. }
  unfold PdfGenerator.generatePDF.
  keep valid_page_invariant.
  eapply hoare_bind.
  2:{ intros _.
      apply (hoare_bind _
               (fun s => has_run
                           [SectionBand
                              (lit "Recent Successful Bids - Detailed List")]
                           (doc s)));
        [intros s H; exact H|].
      intros _. keep_run. }
  unfold PdfGenerator.sections.
  do 9 keep valid_page_invariant.
  rewrite Hlen. unfold when. keep valid_page_invariant.
  unfold PdfGenerator.recentBids.
  eapply hoare_bind; [apply classic_header_drawn | intros _; keep_run].
Qed.

Lemma classic_ai_drawn E rd filters (aiData : Ai) :
  opt_bind (PdfGenerator.missedButWinnable (PdfGenerator.data rd)) ai
  = Some aiData ->
  has_run
    [SectionBand (lit "Comprehensive AI Intelligence & Recommendations")]
    (PdfGenerator.document E rd filters).
Proof.
  intros Hai.
  cut (hoare valid_page (PdfGenerator.generatePDF E rd filters)
         (fun s => has_run
                     [SectionBand
                        (lit "Comprehensive AI Intelligence & Recommendations")]
                     (doc s))).
  { intros H. apply H, initial_valid. }
  unfold PdfGenerator.generatePDF.
  keep valid_page_invariant.
  eapply hoare_bind.
  2:{ intros _.
      apply (hoare_bind _
               (fun s => has_run
                           [SectionBand
                              (lit "Comprehensive AI Intelligence & Recommendations")]
                           (doc s)));
        [intros s H; exact H|].
      intros _. keep_run. }
  unfold PdfGenerator.sections.
  do 4 keep valid_page_invariant.
  rewrite Hai.
  eapply hoare_bind.
  { keep valid_page_invariant.
    unfold PdfGenerator.aiInsights.
    eapply hoare_bind; [apply classic_header_drawn | intros _; keep_run]. }
  intros _. keep_run.
Qed.

(** X10. The modern generator draws nine sections for every report and
    every selection: their bands are in the document even when the report
    has no data for them and the selection is empty. *)
Theorem modern_sections_always (E : env) (rd : ModernGenerator.ReportData)
    (filters : FilterOptions) :
  Forall (fun t => has_band t (ModernGenerator.document E rd filters))
    ["Performance Overview";
     "Summary of Bids Participated - Department-wise";
     "Overall Market Overview";
     "Top Performer Departments";
     "Missed-but-Winnable Tenders";
     "Buyer / Department Insights";
     "Rivalry Scorecard - Top Sellers";
     "Single-Bidder / Low-Competition Opportunities";
     "Top Performing States / Geographies"]%string.
Proof.
  apply Forall_forall. intros t Ht. apply list_elem_of_In in Ht.
  apply run_has_band, modern_band_always, Ht.
Qed.

(** X11. In [src/utils/pdfGenerator.ts] each of the eight sections behind
    the selection is drawn exactly when its identifier is selected, whatever
    the report holds: the band with its title (for bidsSummary both of its
    bands) is in the document if and only if the identifier is in the
    selection. *)
Theorem classic_drawn_iff_selected (E : env) (rd : PdfGenerator.ReportData)
    (filters : FilterOptions) (id : string) (titles : list string)
    (title : string) :
  In (id, titles)
    [ ("bidsSummary",
       ["Executive Summary"; "AI-Powered Strategic Insights"]);
      ("marketOverview", ["Overall Market Overview"]);
      ("topPerformer", ["Top Performer Department"]);
      ("missedTenders", ["Missed-but-Winnable Tenders"]);
      ("buyerInsights", ["Buyer / Department Insights"]);
      ("rivalryScore", ["Rivalry Scorecard"]);
      ("lowCompetition", ["Single-Bidder / Low-Competition Opportunities"]);
      ("topStates", ["Top Performing States / Geographies"]) ]%string ->
  In title titles ->
  (has_band title (PdfGenerator.document E rd filters)
   <-> In (lit id) (includeSections filters)).
Proof.
  intros Hin Ht. split.
  - intros [p [Hp Hb]].
    destruct (includes (includeSections filters) (lit id)) eqn:Ei;
      [apply includes_In; exact Ei|].
    assert (Hsel : ~ In (lit id) (includeSections filters)).
    { intros H. apply includes_In in H. rewrite H in Ei. discriminate Ei. }
    exfalso.
    exact (classic_guarded_suppressed E rd filters id titles title Hin Ht
             Hsel p Hp Hb).
  - intros Hsel. apply run_has_band.
    exact (classic_selected_drawn E rd filters id titles title Hin Ht Hsel).
Qed.

Lemma classic_drawn_iff_selected_witness :
  has_band "Executive Summary"
    (PdfGenerator.document sample_env (classic_report sample_wins)
       only_bidsSummary)
  <-> In (lit "bidsSummary") (includeSections only_bidsSummary).
Proof.
  apply (classic_drawn_iff_selected sample_env (classic_report sample_wins)
           only_bidsSummary "bidsSummary"
           ["Executive Summary"; "AI-Powered Strategic Insights"]%string
           "Executive Summary").
  - simpl. left. reflexivity.
  - simpl. left. reflexivity.
Defined.

(** X12. Two blocks of [src/utils/pdfGenerator.ts] are not behind the
    selection: the list of recent successful bids is drawn whenever the
    report has a win, and the AI intelligence block whenever the report has
    AI data, for every selection, the empty one included. *)
Theorem classic_blocks_outside_selection (E : env)
    (rd : PdfGenerator.ReportData) (filters : FilterOptions) :
  (PdfGenerator.wins rd <> [] ->
   has_band "Recent Successful Bids - Detailed List"
     (PdfGenerator.document E rd filters))
  /\ (forall aiData,
        opt_bind (PdfGenerator.missedButWinnable (PdfGenerator.data rd)) ai
        = Some aiData ->
        has_band "Comprehensive AI Intelligence & Recommendations"
          (PdfGenerator.document E rd filters)).
Proof.
  split.
  - intros Hw. apply run_has_band, classic_recent_drawn, Hw.
  - intros aiData Hai. eapply run_has_band, classic_ai_drawn, Hai.
Qed.

(** ** The sanitizer, beyond the example *)

Lemma has_double_space_split (s : jsstring) :
  has_double_space s = true <-> exists a b, s = a ++ 32%N :: 32%N :: b.
Proof.
  split.
  - induction s as [|x [|y r] IH]; simpl; try discriminate.
    intros H. apply orb_true_iff in H. destruct H as [H | H].
    + apply andb_true_iff in H. destruct H as [Hx Hy].
      apply N.eqb_eq in Hx, Hy. subst. exists [], r. reflexivity.
    + destruct (IH H) as [a [b Hab]]. exists (x :: a), b.
      simpl. rewrite <- Hab. reflexivity.
  - intros [a [b ->]]. induction a as [|x a IH]; [reflexivity|].
    simpl app. simpl has_double_space.
    destruct (a ++ 32%N :: 32%N :: b) eqn:E.
    + destruct a; discriminate E.
    + rewrite IH. apply orb_true_r.
Qed.

Lemma space_is_space (c : N) : is_space c = false -> c <> 32%N.
Proof. intros H ->. discriminate H. Qed.

Lemma collapse_shape (s : jsstring) :
  (forall r, collapse_spaces true s <> 32%N :: r)
  /\ has_double_space (collapse_spaces true s) = false
  /\ has_double_space (collapse_spaces false s) = false.
Proof.
  induction s as [|c s [IH1 [IH2 IH3]]]; simpl.
  - repeat split; [intros r H; discriminate H].
  - destruct (is_space c) eqn:Ec.
    + split; [exact IH1|]. split; [exact IH2|].
      destruct (collapse_spaces true s) as [|b t] eqn:Et; [reflexivity|].
      change (has_double_space (32%N :: b :: t))
        with (((32 =? 32) && (b =? 32))%N || has_double_space (b :: t)).
      rewrite IH2.
      assert (Hb : (b =? 32)%N = false).
      { apply N.eqb_neq. intros ->. exact (IH1 t eq_refl). }
      rewrite Hb. reflexivity.
    + apply space_is_space in Ec.
      assert (Hc : (c =? 32)%N = false) by (apply N.eqb_neq; exact Ec).
      assert (Hd : has_double_space (c :: collapse_spaces false s) = false).
      { destruct (collapse_spaces false s) as [|b t] eqn:Et; [reflexivity|].
        change (has_double_space (c :: b :: t))
          with (((c =? 32) && (b =? 32))%N || has_double_space (b :: t)).
        rewrite Hc, IH3. reflexivity. }
      split; [|split; exact Hd].
      intros r H. injection H as H _. exact (Ec H).
Qed.

Lemma dropWhile_suffix {A} (f : A -> bool) (l : list A) :
  exists pre, l = pre ++ dropWhile f l.
Proof.
  induction l as [|x l [pre IH]]; simpl.
  - exists []. reflexivity.
  - destruct (f x).
    + exists (x :: pre). simpl. rewrite <- IH. reflexivity.
    + exists []. reflexivity.
Qed.

Lemma trim_sandwich (s : jsstring) :
  exists pre post, s = pre ++ trim s ++ post.
Proof.
  unfold trim.
  destruct (dropWhile_suffix is_space s) as [pre Hpre].
  destruct (dropWhile_suffix is_space (rev (dropWhile is_space s)))
    as [pre' Hpre'].
  exists pre, (rev pre').
  rewrite <- rev_app_distr, <- Hpre', rev_involutive. exact Hpre.
Qed.

Lemma trim_single_spaced (s : jsstring) :
  has_double_space s = false -> has_double_space (trim s) = false.
Proof.
  intros H. apply not_true_is_false. intros Ht.
  apply has_double_space_split in Ht. destruct Ht as [a [b Hab]].
  destruct (trim_sandwich s) as [pre [post Hs]].
  assert (Hd : has_double_space s = true).
  { apply has_double_space_split. exists (pre ++ a), (b ++ post).
    rewrite Hs, Hab. rewrite <- !app_assoc. reflexivity. }
  rewrite Hd in H. discriminate H.
Qed.

Lemma filter_printable_id (s : jsstring) :
  Forall (fun c => is_printable c = true) s ->
  List.filter is_printable s = s.
Proof.
  induction 1 as [|c s Hc _ IH]; simpl; [reflexivity|].
  rewrite Hc, IH. reflexivity.
Qed.

(** The code units that [clean] keeps or replaces: printable ASCII, white
    space, the rupee sign and the four curly quotes. *)
Definition survives (c : N) : bool :=
  is_printable c || is_space c
  || ((c =? 8377) || (c =? 8216) || (c =? 8217)
      || (c =? 8220) || (c =? 8221))%N.

Definition kept (c : N) : bool := is_printable c || is_space c.

Lemma collapse_printable (b : bool) (s : jsstring) :
  Forall (fun c => kept c = true) s ->
  Forall (fun c => is_printable c = true) (collapse_spaces b s).
Proof.
  intros H. revert b. induction H as [|c s Hc _ IH]; intros b; simpl.
  - constructor.
  - destruct (is_space c) eqn:Ec.
    + destruct b; [apply IH|]. constructor; [reflexivity | apply IH].
    + constructor; [|apply IH].
      unfold kept in Hc. rewrite Ec, orb_false_r in Hc. exact Hc.
Qed.

Lemma replacements_kept (s : jsstring) :
  Forall (fun c => survives c = true) s ->
  Forall (fun c => kept c = true)
    (replace_nbsp
       (replace_double_quotes (replace_single_quotes (replace_rupee s)))).
Proof.
  intros H. unfold replace_nbsp, replace_double_quotes,
    replace_single_quotes, replace_rupee.
  rewrite !map_map.
  induction H as [|c s Hc _ IH]; simpl; [constructor|].
  rewrite map_app. apply Forall_app. split; [|exact IH].
  clear IH. unfold survives in Hc.
  destruct (c =? 8377)%N eqn:E1; [repeat constructor|].
  simpl. constructor; [|constructor].
  destruct (c =? 8216)%N eqn:E2; [reflexivity|].
  destruct (c =? 8217)%N eqn:E3; [reflexivity|].
  simpl.
  destruct (c =? 8220)%N eqn:E4; [reflexivity|].
  destruct (c =? 8221)%N eqn:E5; [reflexivity|].
  simpl.
  destruct (c =? 160)%N eqn:E6; [reflexivity|].
  rewrite !orb_false_r in Hc. exact Hc.
Qed.

Lemma clean_kept_single_spaced (s : jsstring) :
  Forall (fun c => survives c = true) s ->
  has_double_space (clean (Some s)) = false.
Proof.
  intros H. unfold clean. apply trim_single_spaced.
  unfold strip_non_printable.
  rewrite filter_printable_id
    by (apply collapse_printable, replacements_kept, H).
  apply collapse_shape.
Qed.

Lemma printable_space (c : N) :
  is_printable c = true -> is_space c = (c =? 32)%N.
Proof.
  unfold is_printable, is_space. intros H.
  apply andb_true_iff in H. destruct H as [H1 H2].
  apply N.leb_le in H1, H2.
  assert (E1 : (c <=? 13)%N = false) by (apply N.leb_gt; lia).
  assert (E2 : (c =? 160)%N = false) by (apply N.eqb_neq; lia).
  assert (E3 : (c =? 5760)%N = false) by (apply N.eqb_neq; lia).
  assert (E4 : (8192 <=? c)%N = false) by (apply N.leb_gt; lia).
  assert (E5 : (c =? 8232)%N = false) by (apply N.eqb_neq; lia).
  assert (E6 : (c =? 8233)%N = false) by (apply N.eqb_neq; lia).
  assert (E7 : (c =? 8239)%N = false) by (apply N.eqb_neq; lia).
  assert (E8 : (c =? 8287)%N = false) by (apply N.eqb_neq; lia).
  assert (E9 : (c =? 12288)%N = false) by (apply N.eqb_neq; lia).
  assert (E10 : (c =? 65279)%N = false) by (apply N.eqb_neq; lia).
  rewrite E1, E2, E3, E4, E5, E6, E7, E8, E9, E10.
  rewrite andb_false_r. simpl. rewrite !orb_false_r. reflexivity.
Qed.

Lemma replacements_id (s : jsstring) :
  Forall (fun c => is_printable c = true) s ->
  replace_nbsp
    (replace_double_quotes (replace_single_quotes (replace_rupee s))) = s.
Proof.
  intros H. unfold replace_nbsp, replace_double_quotes,
    replace_single_quotes, replace_rupee.
  rewrite !map_map.
  induction H as [|c s Hc _ IH]; simpl; [reflexivity|].
  unfold is_printable in Hc.
  apply andb_true_iff in Hc. destruct Hc as [_ Hc]. apply N.leb_le in Hc.
  assert (E1 : (c =? 8377)%N = false) by (apply N.eqb_neq; lia).
  assert (E2 : (c =? 8216)%N = false) by (apply N.eqb_neq; lia).
  assert (E3 : (c =? 8217)%N = false) by (apply N.eqb_neq; lia).
  assert (E4 : (c =? 8220)%N = false) by (apply N.eqb_neq; lia).
  assert (E5 : (c =? 8221)%N = false) by (apply N.eqb_neq; lia).
  assert (E6 : (c =? 160)%N = false) by (apply N.eqb_neq; lia).
  rewrite E1. simpl. rewrite E2, E3. simpl. rewrite E4, E5. simpl.
  rewrite E6. f_equal. exact IH.
Qed.

Lemma collapse_id (s : jsstring) (b : bool) :
  Forall (fun c => is_printable c = true) s ->
  has_double_space s = false ->
  (b = true -> forall r, s <> 32%N :: r) ->
  collapse_spaces b s = s.
Proof.
  intros H. revert b. induction H as [|c s Hc Hs IH]; intros b Hd Hb;
    [reflexivity|].
  simpl. rewrite (printable_space c Hc).
  assert (Hd' : has_double_space s = false).
  { destruct s as [|y r]; [reflexivity|].
    simpl in Hd. apply orb_false_iff in Hd. apply Hd. }
  destruct (c =? 32)%N eqn:Ec.
  - apply N.eqb_eq in Ec. subst c.
    destruct b; [exfalso; exact (Hb eq_refl s eq_refl)|].
    f_equal. apply IH; [exact Hd'|].
    intros _ r ->. simpl in Hd. discriminate Hd.
  - f_equal. apply IH; [exact Hd'|]. intros Hf. discriminate Hf.
Qed.

Lemma dropWhile_id {A} (f : A -> bool) (l : list A) :
  (forall x r, l = x :: r -> f x = false) -> dropWhile f l = l.
Proof.
  destruct l as [|x r]; [reflexivity|]. intros H. simpl.
  rewrite (H x r eq_refl). reflexivity.
Qed.

Lemma trim_id (s : jsstring) :
  (forall c r, s = c :: r -> is_space c = false) ->
  (forall c r, rev s = c :: r -> is_space c = false) ->
  trim s = s.
Proof.
  intros H1 H2. unfold trim.
  rewrite (dropWhile_id is_space s H1), (dropWhile_id is_space (rev s) H2).
  apply rev_involutive.
Qed.

Lemma clean_fixed (s : jsstring) :
  Forall (fun c => is_printable c = true) s ->
  has_double_space s = false ->
  (forall c r, s = c :: r -> is_space c = false) ->
  (forall c r, rev s = c :: r -> is_space c = false) ->
  clean (Some s) = s.
Proof.
  intros Hp Hd H1 H2. unfold clean.
  rewrite (replacements_id s Hp).
  rewrite (collapse_id s false Hp Hd) by (intros Hf; discriminate Hf).
  unfold strip_non_printable. rewrite (filter_printable_id s Hp).
  apply trim_id; assumption.
Qed.

Lemma printable_survives (s : jsstring) :
  Forall (fun c => is_printable c = true) s ->
  Forall (fun c => survives c = true) s.
Proof.
  intros H. eapply Forall_impl; [exact H|].
  intros c Hc. unfold survives. rewrite Hc. reflexivity.
Qed.

(** X13. When the input holds nothing that the sanitizer deletes (only
    printable ASCII, white space, the rupee sign and curly quotes), [clean]
    returns a string without two adjacent spaces. *)
Theorem clean_single_spaced (s : jsstring) :
  Forall (fun c => survives c = true) s ->
  has_double_space (clean (Some s)) = false.
Proof. apply clean_kept_single_spaced. Qed.

Lemma clean_single_spaced_witness :
  has_double_space
    (clean (Some ([8377%N; 160%N; 9%N] ++ lit "1,000  " ++ [8220%N]
                    ++ lit "demo" ++ [8221%N; 32%N])))
  = false.
Proof.
  apply (clean_single_spaced
           ([8377%N; 160%N; 9%N] ++ lit "1,000  " ++ [8220%N]
              ++ lit "demo" ++ [8221%N; 32%N])).
  vm_compute. repeat constructor.
Defined.

(** X14. [clean] leaves alone what is already clean: a string of printable
    ASCII without two adjacent spaces and without a space at either end is
    returned unchanged. *)
Theorem clean_fixed_point (s : jsstring) :
  Forall (fun c => is_printable c = true) s ->
  has_double_space s = false ->
  (forall c r, s = c :: r -> c <> 32%N) ->
  (forall c r, rev s = c :: r -> c <> 32%N) ->
  clean (Some s) = s.
Proof.
  intros Hp Hd H1 H2.
  assert (Hsp : forall c, In c s -> c <> 32%N -> is_space c = false).
  { intros c Hc Hne. rewrite Forall_forall in Hp.
    rewrite (printable_space c (Hp c (proj2 (list_elem_of_In _ _) Hc))).
    apply N.eqb_neq. exact Hne. }
  apply clean_fixed; try assumption.
  - intros c r Hs. apply Hsp; [rewrite Hs; left; reflexivity|].
    exact (H1 c r Hs).
  - intros c r Hs. apply Hsp; [|exact (H2 c r Hs)].
    apply in_rev. rewrite Hs. left. reflexivity.
Qed.

Lemma clean_fixed_point_witness :
  clean (Some (lit "Rs 1,000 per unit")) = lit "Rs 1,000 per unit".
Proof.
  apply (clean_fixed_point (lit "Rs 1,000 per unit")).
  - vm_compute. repeat constructor.
  - vm_compute. reflexivity.
  - intros c r H. vm_compute in H. injection H as <- _. discriminate.
  - intros c r H. vm_compute in H. injection H as <- _. discriminate.
Defined.

(** X15. One pass of [clean] may leave two adjacent spaces, a second pass
    never does: [clean] of [clean] of any value is printable, trimmed and
    single-spaced, and further passes change nothing. [clean] is not
    idempotent: on the example of the specification the second pass differs
    from the first. *)
Theorem clean_twice (value : option jsstring) :
  has_double_space (clean (Some (clean value))) = false
  /\ clean (Some (clean (Some (clean value)))) = clean (Some (clean value))
  /\ clean (Some (clean (Some spec_example))) <> clean (Some spec_example).
Proof.
  destruct (clean_printable_trimmed value) as [Hp _].
  assert (Hd : has_double_space (clean (Some (clean value))) = false).
  { apply clean_kept_single_spaced, printable_survives, Hp. }
  split; [exact Hd|]. split.
  - destruct (clean_printable_trimmed (Some (clean value)))
      as [Hp2 [Hh Hl]].
    apply clean_fixed; assumption.
  - vm_compute. discriminate.
Qed.

(** ** The charts, beyond their geometry *)

(** *** The label of a bar *)

(** The condition of the [while] loop that shortens a label. *)
Definition loop_continues (E : env) (labelText : jsstring) : bool :=
  (getTextWidth E labelText >? ModernGenerator.maxLabelWidth)%js
  && (3 <? length labelText)%nat.

Lemma shorten_spec (E : env) (fuel : nat) (s : jsstring) :
  (length s <= fuel)%nat ->
  exists k,
    (k <= length s)%nat
    /\ ModernGenerator.shorten E fuel s = firstn k s
    /\ loop_continues E (firstn k s) = false
    /\ (forall j, (k < j <= length s)%nat ->
          loop_continues E (firstn j s) = true).
Proof.
  revert s. induction fuel as [|fuel IH]; intros s Hlen.
  - destruct s; [|simpl in Hlen; lia].
    exists 0%nat. repeat split; try reflexivity.
    + unfold loop_continues. simpl. apply andb_false_r.
    + intros j Hj. simpl in Hj. lia.
  - change (ModernGenerator.shorten E (S fuel) s)
      with (if loop_continues E s
            then ModernGenerator.shorten E fuel
                   (substring0 (length s - 1) s)
            else s).
    destruct (loop_continues E s) eqn:Ec.
    + assert (Hpos : (3 < length s)%nat).
      { unfold loop_continues in Ec. apply andb_true_iff in Ec.
        apply Nat.ltb_lt, Ec. }
      unfold substring0.
      assert (Hshort : (length (firstn (length s - 1) s) <= fuel)%nat)
        by (rewrite length_firstn; lia).
      destruct (IH (firstn (length s - 1) s) Hshort)
        as [k [Hk [Hs [Hstop Hmore]]]].
      rewrite length_firstn in Hk, Hmore.
      assert (Hf : forall j, (j <= length s - 1)%nat ->
                     firstn j (firstn (length s - 1) s) = firstn j s).
      { intros j Hj. rewrite firstn_firstn. f_equal. lia. }
      exists k. split; [lia|]. rewrite Hs, Hf in * by lia.
      split; [reflexivity|]. split; [exact Hstop|].
      intros j Hj. destruct (decide (j = length s)) as [->|Hne].
      * rewrite firstn_all. exact Ec.
      * rewrite <- Hf by lia. apply Hmore. lia.
    + exists (length s). rewrite firstn_all.
      repeat split; try assumption; try lia.
Qed.

(** X16. The label of a bar of the modern chart is the cleaned label when
    that fits in 50 units of text width or has at most three code units.
    Otherwise it is the longest proper prefix of the cleaned label that fits
    or has three code units, followed by three dots: every longer prefix is
    too wide, the prefix keeps at least three code units, and the dots are
    added after the measurement. *)
Theorem bar_label_shape (E : env) (item : chart_item) :
  exists k,
    (k <= length (clean (Some (label item))))%nat
    /\ (Nat.min 3 (length (clean (Some (label item)))) <= k)%nat
    /\ loop_continues E (firstn k (clean (Some (label item)))) = false
    /\ (forall j, (k < j <= length (clean (Some (label item))))%nat ->
          loop_continues E (firstn j (clean (Some (label item)))) = true)
    /\ ModernGenerator.bar_label E item
       = if (k =? length (clean (Some (label item))))%nat
         then clean (Some (label item))
         else firstn k (clean (Some (label item))) ++ lit "...".
Proof.
  set (c := clean (Some (label item))).
  destruct (shorten_spec E (length c) c (Nat.le_refl _))
    as [k [Hk [Hs [Hstop Hmore]]]].
  exists k. split; [exact Hk|]. split; [|split; [exact Hstop|split;
                                                   [exact Hmore|]]].
  - destruct (Nat.le_gt_cases (Nat.min 3 (length c)) k) as [H|H];
      [exact H|].
    exfalso.
    assert (Hj : (k < S k <= length c)%nat) by lia.
    specialize (Hmore (S k) Hj). unfold loop_continues in Hmore.
    apply andb_true_iff in Hmore. destruct Hmore as [_ Hm].
    apply Nat.ltb_lt in Hm. rewrite length_firstn in Hm. lia.
  - unfold ModernGenerator.bar_label. fold c. cbv zeta. rewrite Hs.
    unfold jsstring_eqb.
    destruct (Nat.eqb_spec k (length c)) as [->|Hne].
    + rewrite firstn_all. rewrite bool_decide_eq_true_2 by reflexivity.
      reflexivity.
    + rewrite bool_decide_eq_false_2; [reflexivity|].
      intros He. apply (f_equal (@length N)) in He.
      rewrite length_firstn in He. lia.
Qed.

(** *** The fan of a slice *)

Lemma pie_slice_shape cx cy r total cur data l :
  PieChart.slices cx cy r total cur data = Some l ->
  Forall (fun sl =>
            slice_steps sl = ceil (slice_span sl * 180 / Math_PI / 5)%js
            /\ exists n,
                 loop_count (slice_steps sl) = Some n
                 /\ slice_ops sl
                    = Circle cx cy r
                        :: PieChart.fan cx cy r (slice_start sl)
                             (slice_span sl) (slice_steps sl) n) l.
Proof.
  revert cur l. induction data as [|item rest IH]; intros cur l H; simpl in H.
  - injection H as <-. constructor.
  - destruct (loop_count _) as [n|] eqn:En; [|discriminate].
    destruct (PieChart.slices cx cy r total _ rest) as [more|] eqn:Em;
      [|discriminate].
    injection H as <-. constructor; [|eapply IH; exact Em].
    simpl. split; [reflexivity|]. exists n. split; [exact En | reflexivity].
Qed.

Lemma donut_slice_shape cx cy ro ri total cur data l :
  DonutChart.slices cx cy ro ri total cur data = Some l ->
  Forall (fun sl =>
            slice_steps sl = ceil (slice_span sl * 180 / Math_PI / 2)%js
            /\ exists n,
                 loop_count (slice_steps sl) = Some n
                 /\ slice_ops sl
                    = DonutChart.fan cx cy ro ri (slice_start sl)
                        (slice_span sl) (slice_steps sl) n) l.
Proof.
  revert cur l. induction data as [|item rest IH]; intros cur l H; simpl in H.
  - injection H as <-. constructor.
  - destruct (loop_count _) as [n|] eqn:En; [|discriminate].
    destruct (DonutChart.slices cx cy ro ri total _ rest) as [more|] eqn:Em;
      [|discriminate].
    injection H as <-. constructor; [|eapply IH; exact Em].
    simpl. split; [reflexivity|]. exists n. split; [exact En | reflexivity].
Qed.

Lemma Qceiling_pos (x : Q) : (0 < x)%Q -> (1 <= Qceiling x)%Z.
Proof.
  intros Hx. pose proof (Qle_ceiling x) as Hc.
  assert (H : (0 < inject_Z (Qceiling x))%Q) by (eapply Qlt_le_trans; eassumption).
  unfold Qlt in H. simpl in H. lia.
Qed.

(** The number of turns of a fan and the angles of its last turn, for a
    slice of positive span [q] from the angle [c], in steps of [k]
    degrees. *)
Lemma last_turn (c q : Q) (k : Z) :
  (0 < q)%Q -> (0 < k)%Z ->
  exists z,
    (1 <= z)%Z
    /\ ceil (Fin q * 180 / Math_PI / Fin (inject_Z k))%js = of_Z z
    /\ loop_count (of_Z z) = Some (S (Z.to_nat z))
    /\ (Fin c + Fin q * of_nat (Z.to_nat z) / of_Z z)%js ≈ Fin (c + q)
    /\ (Fin c + Fin q * (of_nat (Z.to_nat z) + 1) / of_Z z)%js
       ≈ Fin (c + q + q / inject_Z z).
Proof.
  intros Hq Hk.
  assert (Hk0 : ~ (inject_Z k == 0)%Q).
  { intros H. unfold Qeq in H. simpl in H. lia. }
  change (Fin q * 180)%js with (Fin (q * 180)).
  rewrite div_PI, (div_fin _ _ Hk0).
  set (x := (q * 180 / PIq / inject_Z k)%Q).
  assert (Hx : (0 < x)%Q).
  { unfold x. apply Qlt_shift_div_l.
    - unfold Qlt. simpl. lia.
    - rewrite Qmult_0_l. apply Qlt_shift_div_l; [exact PIq_pos|].
      rewrite Qmult_0_l.
      apply Qmult_lt_0_compat; [exact Hq | reflexivity]. }
  pose proof (Qceiling_pos x Hx) as Hz.
  exists (Qceiling x). split; [exact Hz|]. split; [reflexivity|].
  assert (Hz0 : ~ (inject_Z (Qceiling x) == 0)%Q).
  { intros H. unfold Qeq in H. simpl in H. lia. }
  split.
  - unfold loop_count, of_Z.
    assert (Hle : Qle_bool 0 (inject_Z (Qceiling x)) = true).
    { apply Qle_bool_iff. unfold Qle. simpl. lia. }
    rewrite Hle, Qfloor_Z. reflexivity.
  - unfold of_nat, of_Z. rewrite Z2Nat.id by lia.
    change (Fin q * Fin (inject_Z (Qceiling x)))%js
      with (Fin (q * inject_Z (Qceiling x))).
    rewrite (div_fin _ _ Hz0).
    change (Fin (inject_Z (Qceiling x)) + 1)%js
      with (Fin (inject_Z (Qceiling x) + 1)).
    change (Fin q * Fin (inject_Z (Qceiling x) + 1))%js
      with (Fin (q * (inject_Z (Qceiling x) + 1))).
    rewrite (div_fin _ _ Hz0).
    split; simpl; field; exact Hz0.
Qed.

Lemma last_map_seq {B} (f : nat -> B) (n : nat) :
  last (map f (seq 0 (S n))) = Some (f n).
Proof. rewrite seq_S, map_app. simpl. apply last_snoc. Qed.

Lemma length_flat_map_pairs {A B} (f : A -> list B) (l : list A) :
  (forall x, length (f x) = 2%nat) ->
  length (flat_map f l) = (2 * length l)%nat.
Proof.
  intros Hf. induction l as [|x l IH]; [reflexivity|].
  simpl flat_map. rewrite length_app, Hf, IH. simpl. lia.
Qed.

Lemma geometry_at (lp ld : list slice) (k : nat) (sp sd : slice) :
  map slice_geometry lp = map slice_geometry ld ->
  lp !! k = Some sp -> ld !! k = Some sd ->
  slice_start sd = slice_start sp /\ slice_span sd = slice_span sp.
Proof.
  intros H Hp Hd.
  assert (He : map slice_geometry lp !! k = map slice_geometry ld !! k)
    by (rewrite H; reflexivity).
  change (map slice_geometry lp) with (slice_geometry <$> lp) in He.
  change (map slice_geometry ld) with (slice_geometry <$> ld) in He.
  rewrite !list_lookup_fmap, Hp, Hd in He. simpl in He.
  injection He as H1 H2. split; congruence.
Qed.


(** The slices of the series 3 and 1, and the first of them. *)
Definition sample_pie : list slice :=
  default [] (PieChart.pie_slices 0%js 0%js 10%js two_slices).

Definition sample_donut : list slice :=
  default [] (DonutChart.donut_slices 0%js 0%js 10%js 5%js two_slices).

Definition no_slice : slice :=
  {| slice_start := NaN; slice_span := NaN; slice_steps := NaN;
     slice_ops := [] |}.


(** *** When the renderers return *)

Lemma span_infinite (v t : Q) :
  (Fin v / Fin t * 2 * Math_PI)%js = PInf <-> (t == 0)%Q /\ (0 < v)%Q.
Proof.
  unfold div. destruct (Qeq_bool t 0) eqn:Et.
  - apply Qeq_bool_iff in Et.
    destruct (v ?= 0)%Q eqn:Ev.
    + split; [discriminate|]. intros [_ Hv].
      apply Qeq_alt in Ev. rewrite Ev in Hv. discriminate Hv.
    + split; [discriminate|]. intros [_ Hv].
      apply Qlt_alt in Ev. exfalso.
      exact (Qlt_irrefl 0 (Qlt_trans _ _ _ Hv Ev)).
    + split; [|reflexivity]. intros _. split; [exact Et|].
      apply Qgt_alt in Ev. exact Ev.
  - split; [discriminate|]. intros [Ht _].
    apply Qeq_bool_iff in Ht. rewrite Ht in Et. discriminate Et.
Qed.

Lemma pie_slices_none cx cy r (t : Q) (cur : number) data vs :
  map value data = map Fin vs ->
  PieChart.slices cx cy r (Fin t) cur data = None
  <-> (t == 0)%Q /\ Exists (fun v => (0 < v)%Q) vs.
Proof.
  revert cur vs. induction data as [|item rest IH]; intros cur vs H.
  - destruct vs; [|discriminate]. simpl. split; [discriminate|].
    intros [_ He]. inversion He.
  - destruct vs as [|v vs]; [discriminate|]. simpl in H.
    injection H as Hv Hrest. simpl. rewrite Hv.
    pose proof (steps_terminate (Fin v / Fin t * 2 * Math_PI)%js 5 eq_refl)
      as Hst.
    change (Fin (inject_Z 5)) with 5%js in Hst.
    destruct (loop_count _) as [n|] eqn:En.
    + specialize (IH (cur + Fin v / Fin t * 2 * Math_PI)%js vs Hrest).
      destruct (PieChart.slices cx cy r (Fin t) _ rest) as [more|] eqn:Em.
      * split; [discriminate|]. intros [Ht He].
        apply Exists_cons in He. destruct He as [He | He].
        -- assert (Hinf : (Fin v / Fin t * 2 * Math_PI)%js = PInf)
             by (apply span_infinite; split; assumption).
           apply Hst in Hinf. discriminate Hinf.
        -- assert (Hn : Some more = None)
             by (apply IH; split; assumption).
           discriminate Hn.
      * split; [|reflexivity]. intros _.
        destruct (proj1 IH eq_refl) as [Ht He].
        split; [exact Ht|]. apply Exists_cons. right. exact He.
    + split; [|reflexivity]. intros _.
      assert (Hinf : (Fin v / Fin t * 2 * Math_PI)%js = PInf)
        by (apply Hst; reflexivity).
      apply span_infinite in Hinf. destruct Hinf as [Ht Hpos].
      split; [exact Ht|]. apply Exists_cons. left. exact Hpos.
Qed.



(** *** The card of a bar chart *)

(** Top edge and height of the rectangles among some operations. *)
Definition rects_of (l : list op) : list (number * number) :=
  flat_map (fun o => match o with
                     | RoundedRect _ y _ h => [(y, h)]
                     | _ => []
                     end) l.

Lemma combine_seq_lookup {A} (l : list A) (a i : nat) (x : A) :
  l !! i = Some x ->
  combine (seq a (length l)) l !! i = Some ((a + i)%nat, x).
Proof.
  revert a i. induction l as [|y l IH]; intros a i H; [discriminate|].
  destruct i as [|i]; simpl in *.
  - injection H as ->. rewrite Nat.add_0_r. reflexivity.
  - rewrite (IH (S a) i H). f_equal. f_equal. lia.
Qed.

Lemma mapi_lookup {A B} (f : nat -> A -> B) (l : list A) (i : nat) (x : A) :
  l !! i = Some x -> mapi f l !! i = Some (f i x).
Proof.
  intros H. unfold mapi.
  change (map ?g ?k) with (g <$> k).
  rewrite list_lookup_fmap, (combine_seq_lookup l 0 i x H). reflexivity.
Qed.

Lemma concat_middle {A} (l : list (list A)) (i : nat) (x : list A) :
  l !! i = Some x ->
  concat l = concat (take i l) ++ x ++ concat (drop (S i) l).
Proof.
  intros H. rewrite <- (take_drop_middle l i x H) at 1.
  rewrite concat_app. reflexivity.
Qed.

Lemma emit_all_cursor (l : list op) (s : state) :
  yPosition (exec (emit_all l) s) = yPosition s.
Proof.
  unfold emit_all. revert s. induction l as [|o l IH]; intros s;
    [reflexivity|].
  simpl. rewrite exec_bind, IH. reflexivity.
Qed.

(** The height of the card for [n] bars under the cap of 85. *)
Definition card_height (n : nat) : Q :=
  if (n <=? 4)%nat then 16 * inject_Z (Z.of_nat n) + 10 else 85.

Lemma card_height_min (n : nat) :
  JS.min (of_nat n * 16 + 10)%js 85%js ≈ Fin (card_height n).
Proof.
  unfold card_height, of_nat, of_Z.
  change (Fin (inject_Z (Z.of_nat n)) * 16 + 10)%js
    with (Fin (inject_Z (Z.of_nat n) * 16 + 10)).
  unfold JS.min. simpl isNaN. simpl orb. cbv iota.
  change (85 <? Fin (inject_Z (Z.of_nat n) * 16 + 10))%js
    with (negb (Qle_bool (inject_Z (Z.of_nat n) * 16 + 10) 85)).
  destruct (Nat.leb_spec n 4) as [Hn | Hn].
  - assert (Hle : Qle_bool (inject_Z (Z.of_nat n) * 16 + 10) 85 = true).
    { apply Qle_bool_iff. unfold Qle. simpl. lia. }
    rewrite Hle. simpl. ring.
  - destruct (Qle_bool (inject_Z (Z.of_nat n) * 16 + 10) 85) eqn:Hle.
    + apply Qle_bool_iff in Hle. unfold Qle in Hle. simpl in Hle.
      exfalso. lia.
    + simpl. reflexivity.
Qed.

Lemma card_cursor E rd (data : list chart_item) (cap : number) (sv : bool)
    (s : state) :
  exec (ModernGenerator.barChartCard E rd data cap sv) s
  = exec (advance (JS.min (of_nat (length data) * 16 + 10) cap + 8)%js)
      (exec (emit_all
               (ModernGenerator.drawModernBarChart E
                  (ModernGenerator.margin + 8)%js
                  (yPosition
                     (exec (ModernGenerator.checkPageBreak E rd
                              (JS.min (of_nat (length data) * 16 + 10) cap
                               + 20)%js) s) + 6)%js
                  (ModernGenerator.inner E 75%js) data sv))
         (exec (ModernGenerator.checkPageBreak E rd
                  (JS.min (of_nat (length data) * 16 + 10) cap + 20)%js) s)).
Proof.
  unfold ModernGenerator.barChartCard. cbv zeta.
  rewrite !exec_bind. reflexivity.
Qed.

(** X19. A bar chart of the modern generator is drawn in a card whose
    height is 16 per bar plus 10, capped at 85, and the cursor moves on by
    that height plus 8; the bars themselves are 16 apart, bar [i] ending
    16 i + 15 below the top of the card. So up to five bars fit in the card,
    and from the sixth on (the charts take up to ten entries) a bar ends
    below the card and below the cursor, where the next block is drawn. *)
Theorem bars_run_past_card (E : env) (rd : ModernGenerator.ReportData)
    (data : list chart_item) (sv : bool) (s : state) (yq : Q) (i : nat)
    (item : chart_item) :
  yPosition
    (exec (ModernGenerator.checkPageBreak E rd
             (JS.min (of_nat (length data) * 16 + 10) 85 + 20)%js) s)
  = Fin yq ->
  data !! i = Some item ->
  exists (before row after : list op) (top h h' : number),
    doc (exec (ModernGenerator.barChartCard E rd data 85%js sv) s)
    = doc (exec (emit_all (before ++ row ++ after))
             (exec (ModernGenerator.checkPageBreak E rd
                      (JS.min (of_nat (length data) * 16 + 10) 85 + 20)%js)
                s))
    /\ rects_of row = [(top, h); (top, h); (top, h')]
    /\ (top + h)%js ≈ Fin (yq + 16 * inject_Z (Z.of_nat i) + 15)
    /\ yPosition (exec (ModernGenerator.barChartCard E rd data 85%js sv) s)
       ≈ Fin (yq + card_height (length data) + 8)
    /\ ((i <= 4)%nat ->
        (yq + 16 * inject_Z (Z.of_nat i) + 15
         <= yq + card_height (length data))%Q)
    /\ ((5 <= i)%nat ->
        (yq + card_height (length data) + 8
         < yq + 16 * inject_Z (Z.of_nat i) + 15)%Q).
Proof.
  intros Hy Hi.
  assert (Hlt : (i < length data)%nat) by (eapply lookup_lt_Some; exact Hi).
  pose proof (mapi_lookup
                (ModernGenerator.bar_row E (ModernGenerator.margin + 8)%js
                   (Fin yq + 6)%js (ModernGenerator.inner E 75%js) sv
                   (max_list (map value data))) data i item Hi) as Hrow.
  pose proof (concat_middle _ _ _ Hrow) as Hcat.
  eexists _, _, _, _, _, _.
  split; [|split; [|split; [|split; [|split]]]].
  - rewrite card_cursor, Hy.
    unfold ModernGenerator.drawModernBarChart. cbv zeta.
    rewrite Hcat. reflexivity.
  - unfold ModernGenerator.bar_row, rects_of. cbv zeta.
    rewrite flat_map_app. simpl.
    destruct sv; destruct (percentage item) as [p|];
      try destruct (truthy p); reflexivity.
  - unfold ModernGenerator.barHeight, ModernGenerator.spacing, of_nat, of_Z.
    simpl. ring.
  - rewrite card_cursor.
    assert (Hadv : forall dy s0,
               yPosition (exec (advance dy) s0) = (yPosition s0 + dy)%js)
      by reflexivity.
    rewrite Hadv, emit_all_cursor, Hy.
    pose proof (card_height_min (length data)) as Hh.
    destruct (JS.min (of_nat (length data) * 16 + 10) 85) as [hq| | |];
      try contradiction.
    simpl in Hh. simpl. rewrite Hh. ring.
  - intros Hle. unfold card_height.
    assert (H1 : (inject_Z (Z.of_nat i) + 1 <= inject_Z (Z.of_nat (length data)))%Q).
    { rewrite <- (inject_Z_plus _ 1), <- Zle_Qle. lia. }
    assert (H2 : (inject_Z (Z.of_nat i) <= 4)%Q).
    { change 4%Q with (inject_Z 4). rewrite <- Zle_Qle. lia. }
    destruct (length data <=? 4)%nat; lra.
  - intros Hge. unfold card_height.
    assert (H1 : (5 <= inject_Z (Z.of_nat i))%Q).
    { change 5%Q with (inject_Z 5). rewrite <- Zle_Qle. lia. }
    destruct (Nat.leb_spec (length data) 4) as [Hn | Hn]; [lia | lra].
Qed.

(** Six bars of value 1. *)
Definition six_bars : list chart_item := repeat (item_of 1%js) 6.

Lemma bars_run_past_card_witness :
  yPosition
    (exec (ModernGenerator.barChartCard sample_env
             (modern_report sample_wins) six_bars 85%js false)
       ModernGenerator.initial)
  ≈ Fin (18 + card_height 6 + 8)
  /\ (18 + card_height 6 + 8 < 18 + 16 * inject_Z (Z.of_nat 5) + 15)%Q.
Proof.
  destruct (bars_run_past_card sample_env (modern_report sample_wins)
              six_bars false ModernGenerator.initial 18 5 (item_of 1%js)
              eq_refl eq_refl)
    as (before & row & after & top & h & h' & _ & _ & _ & Hc & _ & Hover).
  split; [exact Hc | apply Hover; lia].
Defined.

(** ** The currency formatter at its edges *)

Lemma toFixed_just_under (q : Q) :
  (9999501 <= q)%Q -> (q < 10000000)%Q ->
  toFixed (Fin q / 100000)%js 2 = lit "100.00".
Proof.
  intros H1 H2.
  assert (Hd : ~ (100000 == 0)%Q) by discriminate.
  rewrite (div_fin _ _ Hd). unfold toFixed.
  assert (Hx : (0 <= q / 100000)%Q).
  { apply Qle_shift_div_l; [reflexivity | lra]. }
  assert (Hle : Qle_bool 0 (q / 100000) = true)
    by (apply Qle_bool_iff; exact Hx).
  assert (Hfl : Qfloor (Qabs (q / 100000) * inject_Z (10 ^ Z.of_nat 2)
                        + (1 # 2)) = 10000%Z).
  { rewrite (Qabs_pos _ Hx).
    change (inject_Z (10 ^ Z.of_nat 2)) with 100%Q.
    assert (He : (q / 100000 * 100 + (1 # 2) == q / 1000 + (1 # 2))%Q)
      by (field).
    rewrite He. apply Qfloor_unique.
    - change (inject_Z 10000) with 10000%Q.
      assert (9999 + (1 # 2) <= q / 1000)%Q
        by (apply Qle_shift_div_l; [reflexivity | lra]).
      lra.
    - change (inject_Z (10000 + 1)) with 10001%Q.
      assert (q / 1000 < 10000)%Q
        by (apply Qlt_shift_div_r; [reflexivity | lra]).
      lra. }
  cbv zeta. rewrite Hle, Hfl. reflexivity.
Qed.

(** X20. The formatter of the modern generator chooses the tier before it
    rounds: an amount from 9,999,501 up to, but not including, 10,000,000
    prints as Rs 100.00 L, not as Rs 1.00 Cr. Negative amounts are never
    abbreviated, however large, and a NaN amount prints as Rs NaN. *)
Theorem currency_edges (q : Q) :
  ((9999501 <= q)%Q -> (q < 10000000)%Q ->
   ModernGenerator.formatCurrency (Fin q) = lit "Rs 100.00 L")
  /\ ((q < 0)%Q ->
      ModernGenerator.formatCurrency (Fin q)
      = lit "Rs " ++ toLocaleString_enIN (Fin q))
  /\ ModernGenerator.formatCurrency NaN = lit "Rs NaN".
Proof.
  split; [|split; [|reflexivity]].
  - intros H1 H2. unfold ModernGenerator.formatCurrency.
    rewrite !geb_fin.
    assert (E1 : Qle_bool 10000000 q = false)
      by (apply Qle_bool_false; exact H2).
    assert (E2 : Qle_bool 100000 q = true)
      by (apply Qle_bool_iff; lra).
    change (Fin (inject_Z 10000000)) with 10000000%js.
    rewrite E1, E2, (toFixed_just_under q H1 H2). reflexivity.
  - intros Hq. unfold ModernGenerator.formatCurrency.
    rewrite !geb_fin.
    assert (E1 : Qle_bool 10000000 q = false)
      by (apply Qle_bool_false; lra).
    assert (E2 : Qle_bool 100000 q = false)
      by (apply Qle_bool_false; lra).
    rewrite E1, E2. reflexivity.
Qed.

(** ** The headline figures at their edges *)

Lemma of_nat_div_zero (n : nat) (q : Q) :
  (q == 0)%Q ->
  (of_nat n / Fin q)%js = if (0 <? n)%nat then PInf else NaN.
Proof.
  intros Hq. unfold of_nat, of_Z, div.
  apply Qeq_bool_iff in Hq. rewrite Hq.
  destruct n as [|n]; [reflexivity|].
  change (0 <? S n)%nat with true. cbv iota.
  assert (H : (inject_Z (Z.of_nat (S n)) ?= 0)%Q = Gt).
  { apply Qgt_alt. unfold Qlt. simpl. lia. }
  rewrite H. reflexivity.
Qed.

(** X21. The win rate is guarded against a report without bids, the bids
    per day are not guarded against a period of 0 days. For every report
    the win rate of the modern generator is a finite number from 0 to 100.
    With [days] equal to 0 both generators print the bids per day as
    Infinity when there is a bid and as NaN when there is none. *)
Theorem kpi_guards (rd : PdfGenerator.ReportData)
    (rd' : ModernGenerator.ReportData) :
  (exists w, ModernGenerator.winRate rd' = Fin w
             /\ (0 <= w)%Q /\ (w <= 100)%Q)
  /\ (forall q, days (ModernGenerator.params rd') = Fin q -> (q == 0)%Q ->
        toFixed (ModernGenerator.avgBidsPerDay rd') 2
        = if (0 <? ModernGenerator.totalBids rd')%nat
          then lit "Infinity" else lit "NaN")
  /\ (forall q, days (PdfGenerator.params rd) = Fin q -> (q == 0)%Q ->
        PdfGenerator.avgBidsPerDay rd
        = if (0 <? PdfGenerator.totalBids rd)%nat
          then lit "Infinity" else lit "NaN").
Proof.
  split; [|split].
  - unfold ModernGenerator.winRate, ModernGenerator.totalBids,
      ModernGenerator.successCount.
    set (n := length (ModernGenerator.wins rd')).
    set (k := length (ModernGenerator.marketWins rd')).
    destruct (n + k)%nat as [|j] eqn:Ej.
    + exists 0%Q. split; [reflexivity|]. split; [apply Qle_refl | discriminate].
    + change (0 <? S j)%nat with true. cbv iota.
      unfold of_nat, of_Z.
      rewrite div_fin by (apply of_nat_nonzero; lia).
      eexists. split; [reflexivity|].
      assert (Hn : (0 <= inject_Z (Z.of_nat n))%Q).
      { change 0%Q with (inject_Z 0). rewrite <- Zle_Qle. lia. }
      assert (Hj : (0 < inject_Z (Z.of_nat (S j)))%Q).
      { change 0%Q with (inject_Z 0). rewrite <- Zlt_Qlt. lia. }
      assert (Hnj : (inject_Z (Z.of_nat n) <= inject_Z (Z.of_nat (S j)))%Q).
      { rewrite <- Zle_Qle. lia. }
      assert (H0 : (0 <= inject_Z (Z.of_nat n) / inject_Z (Z.of_nat (S j)))%Q).
      { apply Qle_shift_div_l; [exact Hj | lra]. }
      assert (H1 : (inject_Z (Z.of_nat n) / inject_Z (Z.of_nat (S j)) <= 1)%Q).
      { apply Qle_shift_div_r; [exact Hj | lra]. }
      split; lra.
  - intros q Hd Hq. unfold ModernGenerator.avgBidsPerDay.
    rewrite Hd, (of_nat_div_zero _ q Hq).
    destruct (0 <? ModernGenerator.totalBids rd')%nat; reflexivity.
  - intros q Hd Hq. unfold PdfGenerator.avgBidsPerDay.
    rewrite Hd, (of_nat_div_zero _ q Hq).
    destruct (0 <? PdfGenerator.totalBids rd)%nat; reflexivity.
Qed.

(** ** The cells of the tables *)

(** A sanitized cell: printable ASCII, no white space at either end. *)
Definition clean_cell (c : jsstring) : Prop :=
  Forall (fun u => is_printable u = true) c
  /\ (forall u r, c = u :: r -> is_space u = false)
  /\ (forall u r, rev c = u :: r -> is_space u = false).

(** The body of a table holds sanitized cells only. *)
Definition clean_table (o : op) : Prop :=
  match o with
  | Table _ body _ => Forall (Forall clean_cell) body
  | _ => True
  end.

Lemma all_ops_emit (P : op -> Prop) (o : op) :
  P o -> preserves (all_ops P) (emit o).
Proof.
  intros Ho s H. unfold all_ops, exec in *. simpl.
  destruct (page (doc s)) as [|i]; [exact H|].
  apply Forall_alter; [exact H|].
  intros p _ Hp. apply Forall_app. split; [exact Hp|].
  constructor; [exact Ho | constructor].
Qed.

Lemma all_ops_addPage (P : op -> Prop) : preserves (all_ops P) addPage.
Proof.
  intros s H. unfold all_ops, exec in *. simpl.
  apply Forall_app. split; [exact H|]. repeat constructor.
Qed.

Lemma cleaned_body (body : list (list jsstring)) :
  Forall (Forall clean_cell)
    (map (map (fun cell => clean (Some cell))) body).
Proof.
  apply Forall_forall. intros row Hrow.
  apply list_elem_of_In, in_map_iff in Hrow. destruct Hrow as [r [<- _]].
  apply Forall_forall. intros c Hc.
  apply list_elem_of_In, in_map_iff in Hc. destruct Hc as [c0 [<- _]].
  apply clean_printable_trimmed.
Qed.

Lemma all_ops_emit_all (P : op -> Prop) (l : list op) :
  Forall P l -> preserves (all_ops P) (emit_all l).
Proof.
  intros Hl. unfold emit_all.
  induction Hl as [|o r Ho _ IH]; simpl.
  - apply preserves_ret.
  - apply preserves_bind; [apply all_ops_emit, Ho | intros _; exact IH].
Qed.

Lemma draw_clean_table (l : list op) :
  Forall (fun o => is_draw o = true) l -> Forall clean_table l.
Proof.
  intros H. eapply Forall_impl; [exact H|].
  intros o Ho. destruct o; first [exact Logic.I | discriminate Ho].
Qed.

Ltac cells_step :=
  lazymatch goal with
  | |- preserves _ (emit_all _) =>
      apply all_ops_emit_all, draw_clean_table;
      first [ apply drawBarChart_draws | apply drawModernBarChart_draws
            | apply drawPieChart_draws | apply drawModernDonutChart_draws ]
  | |- preserves _ (emit (Table _ (map (map _) _) _)) =>
      apply all_ops_emit; apply cleaned_body
  | |- preserves _ (emit _) => apply all_ops_emit; exact Logic.I
  | |- preserves _ (setY _) => intros ? ?; assumption
  | |- preserves _ (setFinalY _) => intros ? ?; assumption
  | |- preserves _ addPage => apply all_ops_addPage
  | |- _ => structure_step
  end.

(** X22. Every cell in the body of every table of the modern document has
    gone through [clean]: it is printable ASCII without white space at
    either end, whatever text the report holds. *)
Theorem modern_table_cells_clean (E : env) (rd : ModernGenerator.ReportData)
    (filters : FilterOptions) :
  Forall (Forall clean_table)
    (pages (ModernGenerator.document E rd filters)).
Proof.
  cut (preserves (all_ops clean_table)
         (ModernGenerator.generatePDF E rd filters)).
  { intros H. apply H. repeat constructor. }
  cbv zeta; repeat (cells_step; cbv zeta).
Qed.

(** ** The pages a table adds *)

(** One page of a table drawn without a [didDrawPage] hook. *)
Definition plain_part (head : list jsstring) (body : list (list jsstring))
    (k : nat) : M unit :=
  when (1 <? k)%nat addPage ;;
  emit (Table head body k) ;;
  ret tt.

Lemma plain_parts_after (head : list jsstring) (body : list (list jsstring))
    (n a : nat) (s : state) :
  page (doc s) = length (pages (doc s)) -> (2 <= a)%nat ->
  pages (doc (exec (forEach (seq a n) (plain_part head body)) s))
  = pages (doc s) ++ map (fun k => [Table head body k]) (seq a n)
  /\ page (doc (exec (forEach (seq a n) (plain_part head body)) s))
     = (length (pages (doc s)) + n)%nat
  /\ yPosition (exec (forEach (seq a n) (plain_part head body)) s)
     = yPosition s
  /\ lastAutoTable (doc (exec (forEach (seq a n) (plain_part head body)) s))
     = lastAutoTable (doc s).
Proof.
  revert a s. induction n as [|n IH]; intros a s Hp Ha.
  - simpl. rewrite app_nil_r, Nat.add_0_r. repeat split. exact Hp.
  - change (seq a (S n)) with (a :: seq (S a) n).
    change (forEach (a :: seq (S a) n) (plain_part head body))
      with (bind (plain_part head body a)
              (fun _ => forEach (seq (S a) n) (plain_part head body))).
    rewrite exec_bind.
    set (s1 := exec (plain_part head body a) s).
    assert (Hs1 : pages (doc s1) = pages (doc s) ++ [[Table head body a]]
                  /\ page (doc s1) = S (length (pages (doc s)))
                  /\ yPosition s1 = yPosition s
                  /\ lastAutoTable (doc s1) = lastAutoTable (doc s)).
    { unfold s1, plain_part.
      destruct a as [|[|a]]; [lia | lia |].
      change (1 <? S (S a))%nat with true.
      unfold exec, when, bind, addPage, emit, add_op, ret. simpl.
      rewrite alter_last. repeat split. }
    destruct Hs1 as [H1 [H2 [H3 H4]]].
    destruct (IH (S a) s1) as [I1 [I2 [I3 I4]]].
    { rewrite H1, H2, length_app. simpl. lia. }
    { lia. }
    rewrite I1, I2, I3, I4, H1, H3, H4, length_app. simpl.
    rewrite <- app_assoc. simpl. repeat split. lia.
Qed.

(** X23. A table of [src/utils/pdfGenerator.ts] drawn without a
    [didDrawPage] hook (every table but the list of recent bids) leaves the
    pages it adds without header and footer. Drawn with the current page
    being the last one, it puts its first part on that page and adds one
    page per further part, which holds that part and nothing else; the last
    of them is the current page afterwards, the cursor is where it was and
    the end of the table is recorded. *)
Theorem plain_table_pages (E : env) (head : list jsstring)
    (body : list (list jsstring)) (s : state) (extra : nat)
    (finalY : number) :
  page (doc s) = length (pages (doc s)) ->
  (1 <= page (doc s))%nat ->
  tableLayout E (yPosition s) head body = (extra, finalY) ->
  pages (doc (exec (PdfGenerator.plainTable E head body) s))
  = alter (fun p => p ++ [Table head body 1]) (page (doc s) - 1)
      (pages (doc s))
    ++ map (fun k => [Table head body k]) (seq 2 extra)
  /\ page (doc (exec (PdfGenerator.plainTable E head body) s))
     = (length (pages (doc s)) + extra)%nat
  /\ yPosition (exec (PdfGenerator.plainTable E head body) s) = yPosition s
  /\ lastAutoTable (doc (exec (PdfGenerator.plainTable E head body) s))
     = Some finalY.
Proof.
  intros Hp H1 Hl.
  unfold PdfGenerator.plainTable, autoTable.
  rewrite exec_bind.
  change (fst (getY s)) with (yPosition s).
  change (exec getY s) with s.
  rewrite Hl.
  change (seq 1 (S extra)) with (1%nat :: seq 2 extra).
  fold (plain_part head body).
  change (forEach (1%nat :: seq 2 extra) (plain_part head body))
    with (bind (plain_part head body 1)
            (fun _ => forEach (seq 2 extra) (plain_part head body))).
  rewrite !exec_bind.
  set (s1 := exec (plain_part head body 1) s).
  assert (Hs1 : pages (doc s1)
                = alter (fun p => p ++ [Table head body 1])
                    (page (doc s) - 1) (pages (doc s))
                /\ page (doc s1) = page (doc s)
                /\ yPosition s1 = yPosition s).
  { unfold s1, plain_part, exec, when, bind, emit, add_op, ret. simpl.
    destruct (page (doc s)) as [|j]; [lia|].
    simpl. rewrite Nat.sub_0_r. repeat split. }
  destruct Hs1 as [P1 [P2 P3]].
  destruct (plain_parts_after head body extra 2 s1) as [I1 [I2 [I3 I4]]].
  { rewrite P1, P2, length_alter. exact Hp. }
  { lia. }
  unfold exec at 1 3 5 7. unfold setFinalY. simpl.
  rewrite I1, I2, I3, P1, P3, length_alter. repeat split.
Qed.

(** A state on its last page and a table of 25 rows, which the sample
    layout cuts after 20. *)
Definition long_body : list (list jsstring) :=
  repeat [lit "1"; lit "Indian Army"] 25.

Lemma plain_table_pages_witness :
  pages (doc (exec (PdfGenerator.plainTable sample_env [lit "#"; lit "Org"]
                      long_body) PdfGenerator.initial))
  = [[Table [lit "#"; lit "Org"] long_body 1];
     [Table [lit "#"; lit "Org"] long_body 2]].
Proof.
  apply (plain_table_pages sample_env [lit "#"; lit "Org"] long_body
           PdfGenerator.initial 1
           (20 + 10 + of_nat (25 mod 20) * 8)%js).
  - reflexivity.
  - simpl. lia.
  - reflexivity.
Defined.

(** ** The first generator: traversal *)

Lemma corporate_bar_draws E x y width data showValues :
  Forall (fun o => is_draw o = true)
    (CorporateGenerator.drawModernBarChart E x y width data showValues).
Proof.
  apply Forall_concat_mapi. intros i item.
  unfold CorporateGenerator.bar_row. apply Forall_app. split.
  - repeat constructor.
  - destruct showValues; repeat constructor.
Qed.

(** The traversal of a block of this generator: its bar chart, then the
    steps common to all generators. *)
Ltac corporate_step HI HS :=
  lazymatch goal with
  | |- preserves _
         (emit_all (CorporateGenerator.drawModernBarChart _ _ _ _ _ _)) =>
      apply (preserves_emit_all HI); apply corporate_bar_draws
  | |- _ => layout_step HI HS
  end.

Ltac corporate_layout HI HS :=
  cbv zeta; repeat (corporate_step HI HS; cbv zeta).

Ltac corporate_keep HI :=
  eapply hoare_bind;
  [ apply hoare_preserves; corporate_layout HI stamps_ok_True | intros ? ].

Ltac corporate_keep_all HI :=
  apply hoare_preserves; corporate_layout HI stamps_ok_True.

Ltac corporate_keep_run :=
  lazymatch goal with
  | |- hoare (fun s => has_run ?l (doc s)) _ _ =>
      corporate_keep_all (has_run_invariant l)
  end.

(** ** The selection as the first generator reads it *)

Definition noisy_selection : FilterOptions :=
  {| includeSections :=
       [lit "rivalryScore"; lit "bidsSummary"; lit "marketOverview";
        lit "rivalryScore"] |}.

(** X24. The first generator of [src/unnamed/part_001] reads five
    identifiers only: two selections that agree on the membership of
    bidsSummary, lowCompetition, categoryAnalysis, statesAnalysis and
    departmentsAnalysis give the same document; the other five identifiers
    of the form (marketOverview, topPerformer, missedTenders, buyerInsights,
    rivalryScore), the order of the entries and their repetitions change
    nothing. *)
Theorem corporate_selection_five_ids (E : env)
    (rd : ModernGenerator.ReportData) (f1 f2 : FilterOptions) :
  same_answers
    ["bidsSummary"; "lowCompetition"; "categoryAnalysis"; "statesAnalysis";
     "departmentsAnalysis"]%string f1 f2 ->
  CorporateGenerator.document E rd f1 = CorporateGenerator.document E rd f2.
Proof.
  intros H.
  unfold CorporateGenerator.document, CorporateGenerator.generatePDF,
    CorporateGenerator.sections, CorporateGenerator.selected.
  rewrite (H "bidsSummary"%string), (H "lowCompetition"%string),
    (H "categoryAnalysis"%string), (H "statesAnalysis"%string),
    (H "departmentsAnalysis"%string)
    by in_table.
  reflexivity.
Qed.

Lemma corporate_selection_five_ids_witness :
  CorporateGenerator.document sample_env (modern_report sample_wins)
    noisy_selection
  = CorporateGenerator.document sample_env (modern_report sample_wins)
      only_bidsSummary.
Proof.
  apply (corporate_selection_five_ids sample_env (modern_report sample_wins)
           noisy_selection only_bidsSummary).
  intros i Hi. simpl in Hi.
  repeat (destruct Hi as [<- | Hi]; [vm_compute; reflexivity|]).
  contradiction.
Defined.

(** ** The pages of the first generator *)

(** The current page exists and the first page holds no header and no
    footer. *)
Definition first_unstamped (s : state) : Prop :=
  valid_page s
  /\ Forall (fun o => is_stamp o = false) (hd [] (pages (doc s))).

(** The same, with the current page after the first. *)
Definition past_first (s : state) : Prop :=
  first_unstamped s /\ (2 <= page (doc s))%nat.

Lemma hd_alter_later {A} (f : A -> A) (i : nat) (l : list A) (d : A) :
  hd d (alter f (S i) l) = hd d l.
Proof. destruct l; reflexivity. Qed.

Lemma hd_app_nonempty {A} (l k : list A) (d : A) :
  (1 <= length l)%nat -> hd d (l ++ k) = hd d l.
Proof. destruct l; simpl; [lia | reflexivity]. Qed.

Lemma first_unstamped_invariant :
  Invariant first_unstamped (fun o => is_stamp o = false).
Proof.
  split.
  - intros o Ho s [Hv Hf]. split; [apply (inv_emit _ _ valid_page_invariant);
                                   [exact Logic.I | exact Hv]|].
    unfold exec. simpl.
    destruct (page (doc s)) as [|[|i]]; [exact Hf| |].
    + destruct (pages (doc s)) as [|p r]; [exact Hf|]. simpl in *.
      apply Forall_app. split; [exact Hf|]. repeat constructor. exact Ho.
    + rewrite hd_alter_later. exact Hf.
  - intros s [Hv Hf]. split; [apply (inv_addPage _ _ valid_page_invariant);
                              exact Hv|].
    unfold exec. simpl. rewrite hd_app_nonempty; [exact Hf|].
    destruct Hv. lia.
  - intros y s H. exact H.
  - intros y s H. exact H.
  - intros o Ho. destruct o; first [reflexivity | discriminate Ho].
  - reflexivity.
Qed.

Lemma past_first_invariant : Invariant past_first (fun _ => True).
Proof.
  split; try (intros; exact Logic.I).
  - intros o _ s [[Hv Hf] Hp]. split; [split|].
    + apply (inv_emit _ _ valid_page_invariant); [exact Logic.I | exact Hv].
    + unfold exec. simpl.
      destruct (page (doc s)) as [|[|i]]; [lia | lia |].
      rewrite hd_alter_later. exact Hf.
    + exact Hp.
  - intros s [[Hv Hf] Hp]. split; [split|].
    + apply (inv_addPage _ _ valid_page_invariant). exact Hv.
    + unfold exec. simpl. rewrite hd_app_nonempty; [exact Hf|].
      destruct Hv. lia.
    + unfold exec. simpl. destruct Hv. lia.
  - intros y s H. exact H.
  - intros y s H. exact H.
Qed.

Lemma addPage_past_first : hoare first_unstamped addPage past_first.
Proof.
  intros s H. split.
  - apply (inv_addPage _ _ first_unstamped_invariant), H.
  - unfold exec. simpl. destruct H as [[H1 H2] _]. lia.
Qed.

Lemma corporate_addNewPage_past E rd :
  hoare first_unstamped (CorporateGenerator.addNewPage E rd) past_first.
Proof.
  unfold CorporateGenerator.addNewPage.
  eapply hoare_bind; [apply addPage_past_first|]. intros _.
  corporate_keep_all past_first_invariant.
Qed.

Lemma corporate_addNewPage_unstamped E rd :
  preserves first_unstamped (CorporateGenerator.addNewPage E rd).
Proof. intros s H. apply (corporate_addNewPage_past E rd s H). Qed.

(** The traversal before the first page break, where the page breaks of the
    guard are taken as a whole. *)
Ltac unstamped_step :=
  lazymatch goal with
  | |- preserves _ (CorporateGenerator.addNewPage _ _) =>
      apply corporate_addNewPage_unstamped
  | |- preserves _ (emit (SectionBand _)) =>
      apply (inv_emit _ _ first_unstamped_invariant); reflexivity
  | |- _ => corporate_step first_unstamped_invariant stamps_ok_True
  end.

Lemma corporate_stamp_completes E rd :
  hoare stamped_but_last
    (bind (CorporateGenerator.addPageHeader E rd)
       (fun _ => CorporateGenerator.addPageFooter rd))
    all_stamped.
Proof.
  intros s H. rewrite exec_bind.
  unfold CorporateGenerator.addPageFooter. rewrite exec_bind.
  apply stamp_completes, H.
Qed.

Lemma corporate_stamped_addNewPage E rd :
  preserves all_stamped (CorporateGenerator.addNewPage E rd).
Proof.
  unfold CorporateGenerator.addNewPage.
  apply (hoare_bind _ stamped_but_last); [apply pending_addPage|]. intros _.
  apply (hoare_bind _ stamped_but_last); [intros s H; exact H|]. intros _.
  apply corporate_stamp_completes.
Qed.

Lemma corporate_stamped_table E rd head body :
  preserves all_stamped (CorporateGenerator.stampedTable E rd head body).
Proof.
  unfold CorporateGenerator.stampedTable, autoTable.
  apply preserves_bind; [intros s H; exact H|]. intros startY.
  destruct (tableLayout E startY head _) as [extra finalY].
  apply preserves_bind; [|intros _ s H; exact H].
  apply preserves_forEach. intros k.
  apply (hoare_bind _ stamped_but_last).
  - destruct (1 <? k)%nat; simpl.
    + apply pending_addPage.
    + intros s H. apply all_stamped_but_last, H.
  - intros _. apply (hoare_bind _ stamped_but_last); [apply pending_emit|].
    intros _. apply corporate_stamp_completes.
Qed.

Lemma emit_all_stamped (l : list op) : preserves all_stamped (emit_all l).
Proof.
  unfold emit_all. apply preserves_forEach. intros o. apply stamped_emit.
Qed.

Ltac corporate_stamped_step :=
  lazymatch goal with
  | |- preserves _ (emit _) => apply stamped_emit
  | |- preserves _ (emit_all _) => apply emit_all_stamped
  | |- preserves _ (setY _) => intros ? ?; assumption
  | |- preserves _ (setFinalY _) => intros ? ?; assumption
  | |- preserves _ (CorporateGenerator.addNewPage _ _) =>
      apply corporate_stamped_addNewPage
  | |- preserves _ (CorporateGenerator.stampedTable _ _ _ _) =>
      apply corporate_stamped_table
  | |- _ => structure_step
  end.

Lemma corporate_footer_numbered rd :
  preserves (fun s => footers_numbered (doc s))
    (CorporateGenerator.addPageFooter rd).
Proof.
  intros s H. unfold CorporateGenerator.addPageFooter.
  rewrite exec_bind. apply emit_numbered; [reflexivity | exact H].
Qed.

Ltac corporate_numbered_step :=
  lazymatch goal with
  | |- preserves _ (CorporateGenerator.addPageFooter _) =>
      apply corporate_footer_numbered
  | |- preserves _ (emit (SectionBand _)) =>
      apply (inv_emit _ _ footers_invariant); reflexivity
  | |- _ => corporate_step footers_invariant header_not_footer
  end.

Lemma corporate_addNewPage_one_more E rd (n : nat) :
  hoare (min_pages n) (CorporateGenerator.addNewPage E rd) (min_pages (S n)).
Proof.
  unfold CorporateGenerator.addNewPage.
  eapply hoare_bind; [apply addPage_one_more|]. intros _.
  corporate_keep_all (min_pages_invariant (S n)).
Qed.

(** X25. The pages of the first generator of [src/unnamed/part_001]. The
    first page (the cover and the start of the performance overview) never
    holds a header or a footer, whatever the page height, the report and the
    selection; the document has at least two pages; every page after the
    first holds a header and a footer; every footer shows the number of the
    page it is drawn on; the current page at the end is the last page. *)
Theorem corporate_page_stamps (E : env) (rd : ModernGenerator.ReportData)
    (filters : FilterOptions) :
  Forall (fun o => is_stamp o = false)
    (hd [] (pages (CorporateGenerator.document E rd filters)))
  /\ (2 <= length (pages (CorporateGenerator.document E rd filters)))%nat
  /\ Forall (fun p => (exists texts, In (Header texts) p)
                      /\ (exists texts, In (Footer texts) p))
       (tail (pages (CorporateGenerator.document E rd filters)))
  /\ footers_numbered (CorporateGenerator.document E rd filters)
  /\ page (CorporateGenerator.document E rd filters)
     = length (pages (CorporateGenerator.document E rd filters)).
Proof.
  assert (H1 : past_first (exec (CorporateGenerator.generatePDF E rd filters)
                             CorporateGenerator.initial)).
  { cut (hoare first_unstamped (CorporateGenerator.generatePDF E rd filters)
           past_first).
    { intros H. apply H. split; [apply initial_valid | constructor]. }
    unfold CorporateGenerator.generatePDF.
    eapply hoare_bind.
    { apply hoare_preserves. cbv zeta; repeat (unstamped_step; cbv zeta). }
    intros _. eapply hoare_bind.
    { apply hoare_preserves. cbv zeta; repeat (unstamped_step; cbv zeta). }
    intros _. eapply hoare_bind; [apply corporate_addNewPage_past|].
    intros _. corporate_keep_all past_first_invariant. }
  assert (H2 : min_pages 2 (exec (CorporateGenerator.generatePDF E rd filters)
                              CorporateGenerator.initial)).
  { cut (hoare (min_pages 1) (CorporateGenerator.generatePDF E rd filters)
           (min_pages 2)).
    { intros H. apply H. unfold min_pages. simpl. lia. }
    unfold CorporateGenerator.generatePDF.
    corporate_keep (min_pages_invariant 1).
    corporate_keep (min_pages_invariant 1).
    eapply hoare_bind; [apply corporate_addNewPage_one_more|]. intros _.
    corporate_keep_all (min_pages_invariant 2). }
  assert (H3 : all_stamped (exec (CorporateGenerator.generatePDF E rd filters)
                              CorporateGenerator.initial)).
  { cut (preserves all_stamped (CorporateGenerator.generatePDF E rd filters)).
    { intros H. apply H. split; [reflexivity|].
      intros i p Hp. destruct i; discriminate Hp. }
    cbv zeta; repeat (corporate_stamped_step; cbv zeta). }
  assert (H4 : footers_numbered (CorporateGenerator.document E rd filters)).
  { cut (preserves (fun s => footers_numbered (doc s))
           (CorporateGenerator.generatePDF E rd filters)).
    { intros H. apply H. intros i p Hp. simpl in Hp.
      destruct i as [|i]; [|discriminate Hp].
      injection Hp as <-. constructor. }
    cbv zeta; repeat (corporate_numbered_step; cbv zeta). }
  destruct H1 as [[_ H1] _]. destruct H3 as [H3 H3'].
  split; [exact H1|]. split; [exact H2|]. split; [|split; [exact H4|exact H3]].
  apply Forall_lookup. intros i p Hp. rewrite lookup_tail in Hp.
  destruct (H3' i p Hp) as [Hh Hf].
  apply existsb_exists in Hh. destruct Hh as [o [Ho Hh]].
  apply existsb_exists in Hf. destruct Hf as [o' [Ho' Hf]].
  destruct o; try discriminate Hh. destruct o'; try discriminate Hf.
  split; eexists; eassumption.
Qed.

(** ** Which sections the first generator draws *)

Lemma corporate_header_drawn E rd (t : string) (icon : jsstring) :
  hoare valid_page (CorporateGenerator.addSectionHeader E rd t icon)
    (fun s => has_run [SectionBand (lit t)] (doc s)).
Proof.
  unfold CorporateGenerator.addSectionHeader.
  corporate_keep valid_page_invariant.
  corporate_keep valid_page_invariant.
  eapply hoare_bind; [apply emit_run|]. intros _. corporate_keep_run.
Qed.

(** Up to the band with the title [t] in a sequence of statements, then
    through the rest. *)
Ltac corporate_to_band t :=
  lazymatch goal with
  | |- hoare _ (bind (CorporateGenerator.addSectionHeader _ _ t _) _) _ =>
      eapply hoare_bind;
      [ apply corporate_header_drawn | intros _; corporate_keep_run ]
  | |- hoare _ (bind _ _) _ =>
      corporate_keep valid_page_invariant; corporate_to_band t
  end.

(** Up to the statement that [enter] opens, then through the rest. *)
Ltac corporate_to_section enter :=
  first
    [ eapply hoare_bind; [enter | intros _; corporate_keep_run]
    | corporate_keep valid_page_invariant; corporate_to_section enter ].

Lemma corporate_overview_drawn E rd filters :
  has_run [SectionBand (lit "Performance Overview")]
    (CorporateGenerator.document E rd filters).
Proof.
  cut (hoare valid_page (CorporateGenerator.generatePDF E rd filters)
         (fun s => has_run [SectionBand (lit "Performance Overview")]
                     (doc s))).
  { intros H. apply H, initial_valid. }
  unfold CorporateGenerator.generatePDF.
  corporate_to_section
    ltac:(unfold CorporateGenerator.performanceOverview;
          corporate_to_band "Performance Overview"%string).
Qed.

Lemma corporate_band_always E rd filters (t : string) :
  In t ["AI-Powered Strategic Insights";
        "Organization Affinity Analysis";
        "Department Performance"]%string ->
  has_run [SectionBand (lit t)] (CorporateGenerator.document E rd filters).
Proof.
  intros Ht.
  cut (hoare valid_page (CorporateGenerator.generatePDF E rd filters)
         (fun s => has_run [SectionBand (lit t)] (doc s))).
  { intros H. apply H, initial_valid. }
  unfold CorporateGenerator.generatePDF.
  do 3 corporate_keep valid_page_invariant.
  unfold CorporateGenerator.sections.
  simpl in Ht.
  repeat (destruct Ht as [<- | Ht]; [|]); try contradiction.
  - corporate_to_section
      ltac:(unfold CorporateGenerator.aiSummaryCard;
            corporate_to_band "AI-Powered Strategic Insights"%string).
  - corporate_to_section
      ltac:(unfold CorporateGenerator.organizationAffinity;
            corporate_to_band "Organization Affinity Analysis"%string).
  - corporate_to_section
      ltac:(unfold CorporateGenerator.departmentPerformance;
            corporate_to_band "Department Performance"%string).
Qed.

(** The sections behind a test, when the test holds. *)
Lemma corporate_recent_drawn E rd filters :
  CorporateGenerator.selected filters "bidsSummary" = true ->
  CorporateGenerator.wins rd <> [] ->
  has_run [SectionBand (lit "Recent Successful Bids")]
    (CorporateGenerator.document E rd filters).
Proof.
  intros Hsel Hw.
  assert (Hlen : (0 <? length (CorporateGenerator.wins rd))%nat = true).
  { destruct (CorporateGenerator.wins rd); [contradiction|reflexivity]. }
  cut (hoare valid_page (CorporateGenerator.generatePDF E rd filters)
         (fun s => has_run [SectionBand (lit "Recent Successful Bids")]
                     (doc s))).
  { intros H. apply H, initial_valid. }
  unfold CorporateGenerator.generatePDF.
  do 3 corporate_keep valid_page_invariant.
  unfold CorporateGenerator.sections.
  do 3 corporate_keep valid_page_invariant.
  rewrite Hsel, Hlen. unfold when. simpl andb. cbv iota.
  eapply hoare_bind.
  { unfold CorporateGenerator.recentBids.
    corporate_to_band "Recent Successful Bids"%string. }
  intros _. corporate_keep_run.
Qed.

Lemma corporate_recommendations_drawn E rd filters recommendations :
  opt_bind (opt_bind (CorporateGenerator.the_ai rd) guidance) next_steps
  = Some recommendations ->
  has_run [SectionBand (lit "Strategic Recommendations")]
    (CorporateGenerator.document E rd filters).
Proof.
  intros Hr.
  cut (hoare valid_page (CorporateGenerator.generatePDF E rd filters)
         (fun s => has_run [SectionBand (lit "Strategic Recommendations")]
                     (doc s))).
  { intros H. apply H, initial_valid. }
  unfold CorporateGenerator.generatePDF.
  do 3 corporate_keep valid_page_invariant.
  unfold CorporateGenerator.sections.
  do 4 corporate_keep valid_page_invariant.
  rewrite Hr.
  eapply hoare_bind.
  { unfold CorporateGenerator.recommendationsSection.
    corporate_to_band "Strategic Recommendations"%string. }
  intros _. corporate_keep_run.
Qed.

Lemma corporate_lowCompetition_drawn E rd filters :
  CorporateGenerator.selected filters "lowCompetition" = true ->
  has_run [SectionBand (lit "Low Competition Opportunities")]
    (CorporateGenerator.document E rd filters).
Proof.
  intros Hsel.
  cut (hoare valid_page (CorporateGenerator.generatePDF E rd filters)
         (fun s => has_run
                     [SectionBand (lit "Low Competition Opportunities")]
                     (doc s))).
  { intros H. apply H, initial_valid. }
  unfold CorporateGenerator.generatePDF.
  do 3 corporate_keep valid_page_invariant.
  unfold CorporateGenerator.sections.
  do 5 corporate_keep valid_page_invariant.
  rewrite Hsel. unfold when. cbv iota.
  eapply hoare_bind.
  { unfold CorporateGenerator.lowCompetition.
    corporate_to_band "Low Competition Opportunities"%string. }
  intros _. corporate_keep_run.
Qed.

Lemma corporate_category_drawn E rd filters :
  CorporateGenerator.selected filters "categoryAnalysis" = true ->
  has_run [SectionBand (lit "Category Distribution")]
    (CorporateGenerator.document E rd filters).
Proof.
  intros Hsel.
  cut (hoare valid_page (CorporateGenerator.generatePDF E rd filters)
         (fun s => has_run [SectionBand (lit "Category Distribution")]
                     (doc s))).
  { intros H. apply H, initial_valid. }
  unfold CorporateGenerator.generatePDF.
  do 3 corporate_keep valid_page_invariant.
  unfold CorporateGenerator.sections.
  do 6 corporate_keep valid_page_invariant.
  rewrite Hsel. unfold when. cbv iota.
  eapply hoare_bind.
  { unfold CorporateGenerator.categoryDistribution.
    corporate_to_band "Category Distribution"%string. }
  intros _. corporate_keep_run.
Qed.

Lemma corporate_states_drawn E rd filters results :
  CorporateGenerator.selected filters "statesAnalysis" = true ->
  opt_bind (ModernGenerator.topPerformingStates
              (CorporateGenerator.the_data rd)) (fun r => r)
  = Some results ->
  has_run [SectionBand (lit "Top Performing States")]
    (CorporateGenerator.document E rd filters).
Proof.
  intros Hsel Hr.
  cut (hoare valid_page (CorporateGenerator.generatePDF E rd filters)
         (fun s => has_run [SectionBand (lit "Top Performing States")]
                     (doc s))).
  { intros H. apply H, initial_valid. }
  unfold CorporateGenerator.generatePDF.
  do 3 corporate_keep valid_page_invariant.
  unfold CorporateGenerator.sections.
  do 7 corporate_keep valid_page_invariant.
  rewrite Hsel, Hr. unfold when. cbv iota.
  eapply hoare_bind.
  { unfold CorporateGenerator.topStates.
    corporate_to_band "Top Performing States"%string. }
  intros _. corporate_keep_run.
Qed.

Lemma corporate_departments_drawn E rd filters allDepartments :
  CorporateGenerator.selected filters "departmentsAnalysis" = true ->
  ModernGenerator.allDepartments (CorporateGenerator.the_data rd)
  = Some allDepartments ->
  has_run [SectionBand (lit "Top Departments by Tender Volume")]
    (CorporateGenerator.document E rd filters).
Proof.
  intros Hsel Hr.
  cut (hoare valid_page (CorporateGenerator.generatePDF E rd filters)
         (fun s => has_run
                     [SectionBand (lit "Top Departments by Tender Volume")]
                     (doc s))).
  { intros H. apply H, initial_valid. }
  unfold CorporateGenerator.generatePDF.
  do 3 corporate_keep valid_page_invariant.
  unfold CorporateGenerator.sections.
  do 8 corporate_keep valid_page_invariant.
  rewrite Hsel, Hr. unfold when. cbv iota.
  eapply hoare_bind.
  { unfold CorporateGenerator.topDepartments.
    corporate_to_band "Top Departments by Tender Volume"%string. }
  intros _. corporate_keep_run.
Qed.

(** The sections behind a test, when the test fails: the rest of the
    document draws other bands only. *)
Ltac corporate_absent_step t :=
  lazymatch goal with
  | |- preserves _ (emit (SectionBand _)) =>
      apply (inv_emit _ _ (other_band_invariant t)); lit_differ
  | |- _ =>
      corporate_step (other_band_invariant t) (other_band_stamps t)
  end.

Ltac corporate_absent t :=
  lazymatch goal with
  | |- no_section_band _ (CorporateGenerator.document ?E ?rd ?f) =>
      apply all_ops_no_band;
      cut (preserves (all_ops (fun o => o <> SectionBand (lit t)))
             (CorporateGenerator.generatePDF E rd f));
      [ let H := fresh in intros H; apply H, initial_all_ops
      | unfold CorporateGenerator.generatePDF, CorporateGenerator.sections ]
  end.

Ltac corporate_rest t :=
  cbv beta iota delta [when];
  cbv zeta; repeat (corporate_absent_step t; cbv zeta).

Lemma corporate_recent_absent E rd filters :
  CorporateGenerator.selected filters "bidsSummary"
  && (0 <? length (CorporateGenerator.wins rd))%nat = false ->
  no_section_band "Recent Successful Bids"
    (CorporateGenerator.document E rd filters).
Proof.
  intros Hg.
  corporate_absent "Recent Successful Bids"%string.
  rewrite Hg. corporate_rest "Recent Successful Bids"%string.
Qed.

Lemma corporate_recommendations_absent E rd filters :
  opt_bind (opt_bind (CorporateGenerator.the_ai rd) guidance) next_steps
  = None ->
  no_section_band "Strategic Recommendations"
    (CorporateGenerator.document E rd filters).
Proof.
  intros Hg.
  corporate_absent "Strategic Recommendations"%string.
  rewrite Hg. corporate_rest "Strategic Recommendations"%string.
Qed.

Lemma corporate_lowCompetition_absent E rd filters :
  CorporateGenerator.selected filters "lowCompetition" = false ->
  no_section_band "Low Competition Opportunities"
    (CorporateGenerator.document E rd filters).
Proof.
  intros Hg.
  corporate_absent "Low Competition Opportunities"%string.
  rewrite Hg. corporate_rest "Low Competition Opportunities"%string.
Qed.

Lemma corporate_category_absent E rd filters :
  CorporateGenerator.selected filters "categoryAnalysis" = false ->
  no_section_band "Category Distribution"
    (CorporateGenerator.document E rd filters).
Proof.
  intros Hg.
  corporate_absent "Category Distribution"%string.
  rewrite Hg. corporate_rest "Category Distribution"%string.
Qed.

Lemma corporate_states_absent E rd filters :
  CorporateGenerator.selected filters "statesAnalysis" = false
  \/ opt_bind (ModernGenerator.topPerformingStates
                 (CorporateGenerator.the_data rd)) (fun r => r) = None ->
  no_section_band "Top Performing States"
    (CorporateGenerator.document E rd filters).
Proof.
  intros Hg.
  corporate_absent "Top Performing States"%string.
  destruct Hg as [Hg | Hg]; rewrite Hg;
    [|destruct (CorporateGenerator.selected filters "statesAnalysis")];
    corporate_rest "Top Performing States"%string.
Qed.

Lemma corporate_departments_absent E rd filters :
  CorporateGenerator.selected filters "departmentsAnalysis" = false
  \/ ModernGenerator.allDepartments (CorporateGenerator.the_data rd)
     = None ->
  no_section_band "Top Departments by Tender Volume"
    (CorporateGenerator.document E rd filters).
Proof.
  intros Hg.
  corporate_absent "Top Departments by Tender Volume"%string.
  destruct Hg as [Hg | Hg]; rewrite Hg;
    [|destruct (CorporateGenerator.selected filters "departmentsAnalysis")];
    corporate_rest "Top Departments by Tender Volume"%string.
Qed.

Lemma band_or_none (title : string) (d : jsPDF) :
  has_band title d -> no_section_band title d -> False.
Proof. intros [p [Hp Hb]] Hn. exact (Hn p Hp Hb). Qed.

Lemma selected_In (filters : FilterOptions) (id : string) :
  CorporateGenerator.selected filters id = true
  <-> In (lit id) (includeSections filters).
Proof. apply includes_In. Qed.

(** X26. What the first generator of [src/unnamed/part_001] draws. Four
    sections are in every document: the performance overview, the AI
    insights, the organization affinity and the department performance, even
    for an empty report and an empty selection. Each of the other six is
    drawn exactly when its test holds: the recent successful bids when
    bidsSummary is selected and the report has a win; the recommendations
    when the report has next steps, whatever the selection; the low
    competition opportunities and the category distribution when their
    identifier is selected, whatever the report holds; the top performing
    states and the top departments when their identifier is selected and the
    report has the list. *)
Theorem corporate_sections_drawn (E : env) (rd : ModernGenerator.ReportData)
    (filters : FilterOptions) :
  Forall (fun t => has_band t (CorporateGenerator.document E rd filters))
    ["Performance Overview"; "AI-Powered Strategic Insights";
     "Organization Affinity Analysis"; "Department Performance"]%string
  /\ (has_band "Recent Successful Bids"
        (CorporateGenerator.document E rd filters)
      <-> In (lit "bidsSummary") (includeSections filters)
          /\ CorporateGenerator.wins rd <> [])
  /\ (has_band "Strategic Recommendations"
        (CorporateGenerator.document E rd filters)
      <-> opt_bind (opt_bind (CorporateGenerator.the_ai rd) guidance)
            next_steps <> None)
  /\ (has_band "Low Competition Opportunities"
        (CorporateGenerator.document E rd filters)
      <-> In (lit "lowCompetition") (includeSections filters))
  /\ (has_band "Category Distribution"
        (CorporateGenerator.document E rd filters)
      <-> In (lit "categoryAnalysis") (includeSections filters))
  /\ (has_band "Top Performing States"
        (CorporateGenerator.document E rd filters)
      <-> In (lit "statesAnalysis") (includeSections filters)
          /\ opt_bind (ModernGenerator.topPerformingStates
                         (ModernGenerator.data rd)) (fun r => r) <> None)
  /\ (has_band "Top Departments by Tender Volume"
        (CorporateGenerator.document E rd filters)
      <-> In (lit "departmentsAnalysis") (includeSections filters)
          /\ ModernGenerator.allDepartments (ModernGenerator.data rd)
             <> None).
Proof.
  split; [|split; [|split; [|split; [|split; [|split]]]]].
  - repeat constructor; apply run_has_band;
      first [ apply corporate_overview_drawn
            | apply corporate_band_always; in_table ].
  - split.
    + intros Hb.
      destruct (CorporateGenerator.selected filters "bidsSummary") eqn:Es.
      * split; [apply selected_In, Es|]. intros Hw.
        apply (band_or_none _ _ Hb), corporate_recent_absent.
        rewrite Es, Hw. reflexivity.
      * exfalso. apply (band_or_none _ _ Hb), corporate_recent_absent.
        rewrite Es. reflexivity.
    + intros [Hs Hw]. apply run_has_band, corporate_recent_drawn;
        [apply selected_In, Hs | exact Hw].
  - split.
    + intros Hb Hn.
      apply (band_or_none _ _ Hb), corporate_recommendations_absent, Hn.
    + intros Hn.
      destruct (opt_bind (opt_bind (CorporateGenerator.the_ai rd) guidance)
                  next_steps) as [recs|] eqn:Er; [|contradiction].
      eapply run_has_band, corporate_recommendations_drawn, Er.
  - split.
    + intros Hb.
      destruct (CorporateGenerator.selected filters "lowCompetition") eqn:Es;
        [apply selected_In, Es|].
      exfalso. apply (band_or_none _ _ Hb), corporate_lowCompetition_absent, Es.
    + intros Hs. apply run_has_band, corporate_lowCompetition_drawn,
                   selected_In, Hs.
  - split.
    + intros Hb.
      destruct (CorporateGenerator.selected filters "categoryAnalysis") eqn:Es;
        [apply selected_In, Es|].
      exfalso. apply (band_or_none _ _ Hb), corporate_category_absent, Es.
    + intros Hs. apply run_has_band, corporate_category_drawn,
                   selected_In, Hs.
  - split.
    + intros Hb.
      destruct (CorporateGenerator.selected filters "statesAnalysis") eqn:Es.
      * split; [apply selected_In, Es|]. intros Hn.
        apply (band_or_none _ _ Hb), corporate_states_absent.
        right. exact Hn.
      * exfalso. apply (band_or_none _ _ Hb), corporate_states_absent.
        left. exact Es.
    + intros [Hs Hn].
      destruct (opt_bind (ModernGenerator.topPerformingStates
                            (ModernGenerator.data rd)) (fun r => r))
        as [results|] eqn:Er; [|contradiction].
      eapply run_has_band, corporate_states_drawn;
        [apply selected_In, Hs | exact Er].
  - split.
    + intros Hb.
      destruct (CorporateGenerator.selected filters "departmentsAnalysis")
        eqn:Es.
      * split; [apply selected_In, Es|]. intros Hn.
        apply (band_or_none _ _ Hb), corporate_departments_absent.
        right. exact Hn.
      * exfalso. apply (band_or_none _ _ Hb), corporate_departments_absent.
        left. exact Es.
    + intros [Hs Hn].
      destruct (ModernGenerator.allDepartments (ModernGenerator.data rd))
        as [l|] eqn:Er; [|contradiction].
      eapply run_has_band, corporate_departments_drawn;
        [apply selected_In, Hs | exact Er].
Qed.

(** ** The bar charts of the first generator *)

Lemma corporate_card_cursor E (data : list chart_item) (sv : bool)
    (s : state) :
  exec (CorporateGenerator.barChartCard E data sv) s
  = exec (advance (of_nat (length data) * 20 + 10 + 12)%js)
      (exec (emit_all
               (CorporateGenerator.drawModernBarChart E
                  (CorporateGenerator.margin + 10)%js (yPosition s + 8)%js
                  (CorporateGenerator.inner E 80%js) data sv))
         s).
Proof.
  unfold CorporateGenerator.barChartCard. cbv zeta.
  rewrite !exec_bind. reflexivity.
Qed.

(** X27. A bar chart of the first generator of [src/unnamed/part_001] is
    drawn in a card whose height is 20 per bar plus 10, with no cap, and the
    cursor moves on by that height plus 12. The three rectangles of bar [i]
    start 20 i + 10 below the top of the card and end 20 i + 18 below it, so
    every bar lies inside the card, however many bars there are; the modern
    generator, with its cap on the height, does not keep this. *)
Theorem corporate_bars_in_card (E : env) (data : list chart_item)
    (sv : bool) (s : state) (yq : Q) (i : nat) (item : chart_item) :
  yPosition s = Fin yq ->
  data !! i = Some item ->
  exists (before row after : list op) (top h h' : number),
    doc (exec (CorporateGenerator.barChartCard E data sv) s)
    = doc (exec (emit_all (before ++ row ++ after)) s)
    /\ rects_of row = [(top, h); (top, h); (top, h')]
    /\ top ≈ Fin (yq + 20 * inject_Z (Z.of_nat i) + 10)
    /\ (top + h)%js ≈ Fin (yq + 20 * inject_Z (Z.of_nat i) + 18)
    /\ (top + h')%js ≈ Fin (yq + 20 * inject_Z (Z.of_nat i) + 14)
    /\ yPosition (exec (CorporateGenerator.barChartCard E data sv) s)
       ≈ Fin (yq + (20 * inject_Z (Z.of_nat (length data)) + 10) + 12)
    /\ (yq <= yq + 20 * inject_Z (Z.of_nat i) + 10)%Q
    /\ (yq + 20 * inject_Z (Z.of_nat i) + 18
        <= yq + (20 * inject_Z (Z.of_nat (length data)) + 10))%Q.
Proof.
  intros Hy Hi.
  assert (Hlt : (i < length data)%nat) by (eapply lookup_lt_Some; exact Hi).
  pose proof (mapi_lookup
                (CorporateGenerator.bar_row E
                   (CorporateGenerator.margin + 10)%js
                   (Fin yq + 8)%js (CorporateGenerator.inner E 80%js) sv
                   (max_list (map value data))) data i item Hi) as Hrow.
  pose proof (concat_middle _ _ _ Hrow) as Hcat.
  assert (H0 : (0 <= inject_Z (Z.of_nat i))%Q).
  { change 0%Q with (inject_Z 0). rewrite <- Zle_Qle. lia. }
  assert (H1 : (inject_Z (Z.of_nat i) + 1
                <= inject_Z (Z.of_nat (length data)))%Q).
  { rewrite <- (inject_Z_plus _ 1), <- Zle_Qle. lia. }
  eexists _, _, _, _, _, _.
  split; [|split; [|split; [|split; [|split; [|split; [|split]]]]]].
  - rewrite corporate_card_cursor, Hy.
    unfold CorporateGenerator.drawModernBarChart. cbv zeta.
    rewrite Hcat. reflexivity.
  - unfold CorporateGenerator.bar_row, rects_of. cbv zeta.
    rewrite flat_map_app. simpl.
    destruct sv; destruct (percentage item) as [p|];
      try destruct (truthy p); reflexivity.
  - unfold CorporateGenerator.barHeight, CorporateGenerator.spacing,
      of_nat, of_Z.
    simpl. ring.
  - unfold CorporateGenerator.barHeight, CorporateGenerator.spacing,
      of_nat, of_Z.
    simpl. ring.
  - unfold CorporateGenerator.barHeight, CorporateGenerator.spacing,
      of_nat, of_Z.
    simpl. field.
  - rewrite corporate_card_cursor.
    assert (Hadv : forall dy s0,
               yPosition (exec (advance dy) s0) = (yPosition s0 + dy)%js)
      by reflexivity.
    rewrite Hadv, emit_all_cursor, Hy.
    unfold of_nat, of_Z. simpl. ring.
  - lra.
  - lra.
Qed.

Lemma corporate_bars_in_card_witness :
  (18 <= 18 + 20 * inject_Z (Z.of_nat 5) + 10)%Q
  /\ (18 + 20 * inject_Z (Z.of_nat 5) + 18
      <= 18 + (20 * inject_Z (Z.of_nat (length six_bars)) + 10))%Q.
Proof.
  destruct (corporate_bars_in_card sample_env six_bars false
              ModernGenerator.initial 18 5 (item_of 1%js) eq_refl eq_refl)
    as (before & row & after & top & h & h' & _ & _ & _ & _ & _ & _ & Hin).
  exact Hin.
Defined.

(** ** A chart below the end of the page *)

(** The current page exists and the cursor is at [q]. *)
Definition at_cursor (q : Q) (s : state) : Prop :=
  valid_page s /\ yPosition s = Fin q.

Lemma at_emit (q : Q) (o : op) : hoare (at_cursor q) (emit o) (at_cursor q).
Proof.
  intros s [Hv Hy]. split; [|exact Hy].
  apply (inv_emit _ _ valid_page_invariant); [exact Logic.I | exact Hv].
Qed.

Lemma at_emit_all (q : Q) (l : list op) :
  hoare (at_cursor q) (emit_all l) (at_cursor q).
Proof.
  unfold emit_all. induction l as [|o l IH]; simpl.
  - intros s H. exact H.
  - eapply hoare_bind; [apply at_emit|]. intros _. exact IH.
Qed.

Lemma at_advance (q d : Q) :
  hoare (at_cursor q) (advance (Fin d)) (at_cursor (q + d)).
Proof.
  intros s [Hv Hy]. split; [exact Hv|].
  unfold exec, advance, bind, getY, setY. simpl. rewrite Hy. reflexivity.
Qed.

Lemma corporate_addNewPage_cursor E rd :
  hoare valid_page (CorporateGenerator.addNewPage E rd) (at_cursor 20).
Proof.
  intros s Hv. split; [|reflexivity].
  revert s Hv. change (preserves valid_page (CorporateGenerator.addNewPage E rd)).
  corporate_layout valid_page_invariant stamps_ok_True.
Qed.

(** The guard lets the cursor be when the space is there. *)
Lemma corporate_no_break E rd (h q r : Q) :
  pageHeight E = Fin h -> (q + r <= h - 25)%Q ->
  hoare (at_cursor q) (CorporateGenerator.checkPageBreak E rd (Fin r))
    (at_cursor q).
Proof.
  intros Hh Hle s [Hv Hy]. unfold CorporateGenerator.checkPageBreak.
  rewrite exec_bind.
  change (fst (getY s)) with (yPosition s). change (exec getY s) with s.
  rewrite Hy, Hh.
  assert (Hc : (Fin q + Fin r >? Fin h - 25)%js = false).
  { unfold gtb, ltb, sub, add, neg.
    apply negb_false_iff, Qle_bool_iff. lra. }
  rewrite Hc. split; assumption.
Qed.

Lemma corporate_header_cursor E rd (t : string) (h q : Q) :
  pageHeight E = Fin h -> (q + 25 <= h - 25)%Q ->
  hoare (at_cursor q) (CorporateGenerator.addSectionHeader E rd t [])
    (at_cursor (q + 18)).
Proof.
  intros Hh Hle. unfold CorporateGenerator.addSectionHeader.
  eapply hoare_bind; [apply (corporate_no_break E rd h q 25 Hh Hle)|].
  intros _.
  eapply hoare_bind.
  { unfold when. destruct (negb (jsstring_eqb [] [])).
    - apply at_emit.
    - intros s H. exact H. }
  intros _.
  eapply hoare_bind; [apply at_emit|]. intros _.
  apply at_advance.
Qed.

Lemma corporate_card_advance E (data : list chart_item) (sv : bool) (q : Q) :
  hoare (at_cursor q) (CorporateGenerator.barChartCard E data sv)
    (at_cursor (q + (inject_Z (Z.of_nat (length data)) * 20 + 10 + 12))).
Proof.
  intros s Hs. rewrite corporate_card_cursor.
  apply (at_advance q (inject_Z (Z.of_nat (length data)) * 20 + 10 + 12)).
  apply at_emit_all, Hs.
Qed.

Lemma emit_all_app (a b : list op) (s : state) :
  exec (emit_all (a ++ b)) s = exec (emit_all b) (exec (emit_all a) s).
Proof.
  unfold emit_all. revert s. induction a as [|o a IH]; intros s;
    [reflexivity|].
  simpl. rewrite !exec_bind. apply IH.
Qed.

Lemma emit_all_run (pre post : list op) (o : op) :
  hoare valid_page (emit_all (pre ++ o :: post))
    (fun s => has_run [o] (doc s)).
Proof.
  intros s Hv. rewrite emit_all_app.
  change (emit_all (o :: post)) with (bind (emit o) (fun _ => emit_all post)).
  rewrite exec_bind.
  assert (Hpost : preserves (fun s => has_run [o] (doc s)) (emit_all post)).
  { unfold emit_all. apply preserves_forEach. intros o'.
    apply (inv_emit _ _ (has_run_invariant [o])). exact Logic.I. }
  apply Hpost, emit_run.
  assert (Hpre : preserves valid_page (emit_all pre)).
  { unfold emit_all. apply preserves_forEach. intros o'.
    apply (inv_emit _ _ valid_page_invariant). exact Logic.I. }
  apply Hpre, Hv.
Qed.

(** The track of bar [i] of a chart drawn with the cursor at [q]. *)
Definition track_of (E : env) (q : Q) (i : nat) : op :=
  RoundedRect (CorporateGenerator.margin + 10 + 60)%js
    (Fin q + 8 + of_nat i * (CorporateGenerator.barHeight
                             + CorporateGenerator.spacing) + 2)%js
    (CorporateGenerator.inner E 80%js)
    (CorporateGenerator.barHeight - 4)%js.

Lemma corporate_card_run E (data : list chart_item) (sv : bool) (q : Q)
    (i : nat) (item : chart_item) :
  data !! i = Some item ->
  hoare (at_cursor q) (CorporateGenerator.barChartCard E data sv)
    (fun s => has_run [track_of E q i] (doc s)).
Proof.
  intros Hi s [Hv Hy]. rewrite corporate_card_cursor, Hy.
  change (doc (exec (advance ?d) ?s0)) with (doc s0).
  pose proof (mapi_lookup
                (CorporateGenerator.bar_row E
                   (CorporateGenerator.margin + 10)%js
                   (Fin q + 8)%js (CorporateGenerator.inner E 80%js) sv
                   (max_list (map value data))) data i item Hi) as Hrow.
  unfold CorporateGenerator.drawModernBarChart. cbv zeta.
  rewrite (concat_middle _ _ _ Hrow).
  unfold CorporateGenerator.bar_row at 2. cbv zeta.
  match goal with
  | |- has_run _
         (doc (exec (emit_all (?a ++ ((?t :: ?r :: ?rest) ++ ?tl) ++ ?b))
                 _)) =>
      replace (a ++ ((t :: r :: rest) ++ tl) ++ b)
        with ((a ++ [t]) ++ r :: (rest ++ tl ++ b))
        by (rewrite <- !app_assoc; reflexivity)
  end.
  apply emit_all_run, Hv.
Qed.

(** The cursor after the organization affinity section, for [n] bars. *)
Definition below_organizations (n : nat) : Q :=
  if (n =? 0)%nat then 123
  else 123 + (20 * inject_Z (Z.of_nat n) + 22).

Section OffPage.
Context (E : env) (rd : ModernGenerator.ReportData) (h : Q).
Context (Hh : pageHeight E = Fin h).

Lemma corporate_ai_cursor :
  (228 <= h)%Q ->
  hoare (at_cursor 20) (CorporateGenerator.aiSummaryCard E rd)
    (at_cursor (20 + 18 + (55 + 12))).
Proof.
  intros Hle. unfold CorporateGenerator.aiSummaryCard.
  eapply hoare_bind; [apply (corporate_header_cursor E rd _ h 20 Hh); lra|].
  intros _. cbv zeta.
  eapply hoare_bind; [apply at_emit|]. intros _.
  eapply hoare_bind; [apply at_emit|]. intros _.
  apply (at_advance (20 + 18) (55 + 12)).
Qed.

Lemma corporate_org_cursor :
  (228 <= h)%Q ->
  exists q,
    (q == below_organizations
            (length (firstn 8 (or_nil (opt_bind
                                         (CorporateGenerator.the_signals rd)
                                         org_affinity)))))%Q
    /\ hoare (at_cursor (20 + 18 + (55 + 12)))
         (CorporateGenerator.organizationAffinity E rd) (at_cursor q).
Proof.
  intros Hle. unfold CorporateGenerator.organizationAffinity. cbv zeta.
  destruct (or_nil (opt_bind (CorporateGenerator.the_signals rd)
                      org_affinity)) as [|o l] eqn:El.
  - exists (20 + 18 + (55 + 12) + 18)%Q. split; [reflexivity|].
    eapply hoare_bind;
      [apply (corporate_no_break E rd h _ 80 Hh); lra|].
    intros _.
    eapply hoare_bind;
      [apply (corporate_header_cursor E rd _ h _ Hh); lra|].
    intros _. intros s H. exact H.
  - eexists. split.
    2:{ eapply hoare_bind;
          [apply (corporate_no_break E rd h _ 80 Hh); lra|].
        intros _.
        eapply hoare_bind;
          [apply (corporate_header_cursor E rd _ h _ Hh); lra|].
        intros _. change (0 <? length (o :: l))%nat with true.
        unfold when. apply corporate_card_advance. }
    rewrite length_map. unfold below_organizations.
    change (length (firstn 8 (o :: l)))
      with (S (length (firstn 7 l))).
    change (S (length (firstn 7 l)) =? 0)%nat with false. cbv iota.
    ring.
Qed.

Lemma corporate_dept_run (q : Q) (i : nat) (d : Affinity) :
  (q + 105 <= h)%Q ->
  firstn 8 (or_nil (opt_bind (CorporateGenerator.the_signals rd)
                      dept_affinity)) !! i = Some d ->
  hoare (at_cursor q) (CorporateGenerator.departmentPerformance E rd)
    (fun s => has_run [track_of E (q + 18) i] (doc s)).
Proof.
  intros Hle Hi. unfold CorporateGenerator.departmentPerformance. cbv zeta.
  eapply hoare_bind; [apply (corporate_no_break E rd h q 80 Hh); lra|].
  intros _.
  eapply hoare_bind; [apply (corporate_header_cursor E rd _ h q Hh); lra|].
  intros _.
  destruct (or_nil (opt_bind (CorporateGenerator.the_signals rd)
                      dept_affinity)) as [|d0 l] eqn:El.
  - rewrite firstn_nil in Hi. discriminate Hi.
  - change (0 <? length (d0 :: l))%nat with true. unfold when.
    apply (corporate_card_run E _ true (q + 18) i
             (CorporateGenerator.dept_item rd d)).
    change (map ?g ?k) with (g <$> k).
    rewrite list_lookup_fmap, Hi. reflexivity.
Qed.

End OffPage.


(** A report with eight departments in the signals and no organization. *)
Definition eight_departments : MissedButWinnable :=
  {| recentWins := None;
     marketWins := None;
     ai := Some {| strategy_summary := None;
                   likely_wins := None;
                   signals :=
                     Some {| org_affinity := None;
                             dept_affinity :=
                               Some (repeat {| entity := lit "Health";
                                               signal := lit "strong" |} 8);
                             ministry_affinity := None;
                             quantity_ranges := None;
                             price_ranges := None |};
                   guidance := None |} |}.

